(** * Report dashboard: the view-model pipeline of the report grid

    A shallow embedding of [app/ui/dashboard/report-grid.tsx] (the
    [ReportGrid] component: filtering, sorting, grouping by date,
    pagination, the CSV detail view and the sort toggles) and of
    [app/lib/data/data.ts] ([toggleReportStatus]), followed by the
    properties of the specification that concern them.

    Conventions of the embedding.
    - A JavaScript string is a [string]: one [ascii] per code unit, for
      the code units below 256.
    - A JavaScript number is a [Js.number]: NaN, an infinity, or a finite
      binary64 value, held as the rational it denotes.  [Number(s)] and
      the subtraction round to the nearest binary64 value, ties to even,
      with overflow to an infinity and underflow to 0 ([Js.round64]).
      The two zeros are one value: nothing in the component tells them
      apart.  The integers that the component and the host hand over
      (lengths, page numbers, time values, the results of
      [localeCompare], 0 and 1 for booleans) are binary64 values as they
      are.
    - [Array.prototype.sort] is a stable sort; its comparator returns a
      number and only the sign is used, NaN counting as 0.
    - What ECMAScript leaves to the host (collation, date parsing) is the
      class [Host]. *)

From Stdlib Require Import ZArith List String Ascii Bool Lia Lqa.
From Stdlib Require Import QArith Qround Qpower Permutation Sorted OrderedTypeEx.
Import ListNotations.

Local Open Scope string_scope.
Local Open Scope list_scope.
Local Open Scope Z_scope.

(* ------------------------------------------------------------------ *)
(** ** The JavaScript run time the component relies on                  *)
(* ------------------------------------------------------------------ *)

Module Js.

(** *** Numbers *)

Inductive number : Type :=
| NaN
| Inf (negative : bool)
| Fin (q : Q).

(** An integer that binary64 holds exactly. *)
Definition ofZ (z : Z) : number := Fin (inject_Z z).

(** [Number(b)] for a boolean. *)
Definition Number_bool (b : bool) : number := if b then ofZ 1 else ofZ 0.

Definition isNaN (x : number) : bool :=
  match x with NaN => true | _ => false end.

Definition negate (x : number) : number :=
  match x with
  | NaN => NaN
  | Inf s => Inf (negb s)
  | Fin q => Fin (- q)
  end.

(** *** Rounding to binary64 *)

(** The binary exponent of a positive rational: the [e] with
    [2^e <= q < 2^(e+1)].  The difference of the two logarithms is [e]
    or [e + 1]. *)
Definition exponent (q : Q) : Z :=
  let e := Z.log2 (Qnum q) - Z.log2 (QDen q) in
  if Qle_bool (2 ^ e) q then e else e - 1.

(** The nearest integer, and the even one of the two when [q] lies
    half-way. *)
Definition roundHalfEven (q : Q) : Z :=
  let f := Qfloor q in
  match ((q - inject_Z f) ?= (1 # 2))%Q with
  | Lt => f
  | Eq => if Z.even f then f else f + 1
  | Gt => f + 1
  end.

(** A positive rational rounded to binary64.  The unit in the last place
    is [2^u]: 53 significant bits from the exponent of [q] down, and
    never below the least subnormal [2^-1074].  A result of [2^1024] or
    more is an overflow. *)
Definition roundPositive (q : Q) : number :=
  let u := Z.max (exponent q - 52) (-1074) in
  let v := (inject_Z (roundHalfEven (q / 2 ^ u)) * 2 ^ u)%Q in
  if Qle_bool (2 ^ 1024) v then Inf false else Fin (Qred v).

(** The binary64 value of a real number: round to nearest, ties to
    even. *)
Definition round64 (q : Q) : number :=
  match Qnum q with
  | 0 => Fin 0
  | Z.pos _ => roundPositive q
  | Z.neg _ => negate (roundPositive (- q))
  end.

(** [a - b]. *)
Definition sub (a b : number) : number :=
  match a, b with
  | NaN, _ | _, NaN => NaN
  | Fin x, Fin y => round64 (x - y)
  | Inf s, Fin _ => Inf s
  | Fin _, Inf s => Inf (negb s)
  | Inf s, Inf t => if Bool.eqb s t then NaN else Inf s
  end.

(** The sign of a number, as a sort or a comparison reads it: -1, 0 or 1.
    [Array.prototype.sort] replaces a NaN comparator result by +0. *)
Definition sign (x : number) : Z :=
  match x with
  | NaN => 0
  | Inf s => if s then -1 else 1
  | Fin q => Z.sgn (Qnum q)
  end.

(** [Math.ceil] of a finite number.  The component applies it to the
    quotient of a length by a page size, which is taken exactly here:
    for operands below [2^53] the ceiling of the binary64 quotient is
    the same. *)
Definition Math_ceil (q : Q) : Z := Qceiling q.

(** *** Strings *)

Definition code (c : ascii) : Z := Z.of_nat (nat_of_ascii c).

Definition inRange (lo hi : Z) (c : ascii) : bool :=
  (lo <=? code c) && (code c <=? hi).

(** [String.prototype.toLowerCase], on the code units below 256: the
    letters A-Z and the Latin-1 capitals U+00C0-U+00DE other than the
    multiplication sign U+00D7 move 32 places up. *)
Definition lowerChar (c : ascii) : ascii :=
  if inRange 65 90 c || (inRange 192 222 c && negb (code c =? 215))
  then ascii_of_nat (nat_of_ascii c + 32)
  else c.

Fixpoint toLowerCase (s : string) : string :=
  match s with
  | EmptyString => EmptyString
  | String c r => String (lowerChar c) (toLowerCase r)
  end.

Fixpoint startsWith (s p : string) {struct p} : bool :=
  match p, s with
  | EmptyString, _ => true
  | String _ _, EmptyString => false
  | String a p', String b s' => Ascii.eqb a b && startsWith s' p'
  end.

(** [s.includes(sub)]: [sub] occurs in [s] at some position. *)
Fixpoint includes (s sub : string) : bool :=
  startsWith s sub ||
  match s with
  | EmptyString => false
  | String _ r => includes r sub
  end.

(** [xs.includes(x)] on an array of strings. *)
Definition Array_includes (xs : list string) (x : string) : bool :=
  existsb (String.eqb x) xs.

(** [s.split(sep)] for a separator of one code unit: the pieces between
    the occurrences of [sep]; never empty (the empty string gives [[""]]). *)
Fixpoint split (sep : ascii) (s : string) : list string :=
  match s with
  | EmptyString => [EmptyString]
  | String c r =>
      if Ascii.eqb c sep then EmptyString :: split sep r
      else match split sep r with
           | [] => [String c EmptyString]
           | p :: ps => String c p :: ps
           end
  end.

(** White space and line terminators below 256: TAB, LF, VT, FF, CR,
    SP and NBSP. *)
Definition isWhiteSpace (c : ascii) : bool :=
  inRange 9 13 c || (code c =? 32) || (code c =? 160).

Fixpoint trimStart (s : string) : string :=
  match s with
  | String c r => if isWhiteSpace c then trimStart r else s
  | EmptyString => EmptyString
  end.

Fixpoint trimEnd (s : string) : string :=
  match s with
  | EmptyString => EmptyString
  | String c r =>
      match trimEnd r with
      | EmptyString => if isWhiteSpace c then EmptyString else String c EmptyString
      | r' => String c r'
      end
  end.

Definition trim (s : string) : string := trimEnd (trimStart s).

(** *** [Number(s)] for a string: ECMAScript's StringToNumber *)

Definition digitOf (base : Z) (c : ascii) : option Z :=
  let v :=
    if inRange 48 57 c then Some (code c - 48)
    else if inRange 97 102 c then Some (code c - 87)
    else if inRange 65 70 c then Some (code c - 55)
    else None in
  match v with
  | Some d => if d <? base then Some d else None
  | None => None
  end.

(** The longest prefix of digits of [s] in [base]: its digits, most
    significant first, and the rest of [s]. *)
Fixpoint spanDigits (base : Z) (s : string) : list Z * string :=
  match s with
  | EmptyString => ([], EmptyString)
  | String c r =>
      match digitOf base c with
      | Some d => let (ds, rest) := spanDigits base r in (d :: ds, rest)
      | None => ([], s)
      end
  end.

Definition digitsValue (base : Z) (ds : list Z) : Z :=
  fold_left (fun acc d => acc * base + d) ds 0.

(** A string of one or more digits in [base] and nothing else. *)
Definition parseDigits (base : Z) (s : string) : option Z :=
  match spanDigits base s with
  | ((_ :: _) as ds, EmptyString) => Some (digitsValue base ds)
  | _ => None
  end.

(** ExponentPart, or nothing: the exponent it denotes. *)
Definition parseExponent (s : string) : option Z :=
  match s with
  | EmptyString => Some 0
  | String c r =>
      if (code c =? 101) || (code c =? 69) then
        match r with
        | String "+" r' => parseDigits 10 r'
        | String "-" r' => option_map Z.opp (parseDigits 10 r')
        | _ => parseDigits 10 r
        end
      else None
  end.

(** StrUnsignedDecimalLiteral other than [Infinity]:
    digits [. digits] [exponent], or [. digits] [exponent]. *)
Definition parseUnsignedDecimal (s : string) : option Q :=
  let (ip, r1) := spanDigits 10 s in
  let '(fp, r2) :=
    match r1 with
    | String "." r => spanDigits 10 r
    | _ => ([], r1)
    end in
  match ip ++ fp with
  | [] => None
  | ds =>
      match parseExponent r2 with
      | Some e =>
          Some (inject_Z (digitsValue 10 ds) *
                Qpower (inject_Z 10) (e - Z.of_nat (List.length fp)))%Q
      | None => None
      end
  end.

(** The mathematical value of the literal, rounded. *)
Definition parseDecimal (s : string) : number :=
  if String.eqb s "Infinity" then Inf false
  else match parseUnsignedDecimal s with
       | Some q => round64 q
       | None => NaN
       end.

(** A literal in base 16, 8 or 2: digits only, and its value rounded. *)
Definition parseInteger (base : Z) (s : string) : number :=
  match parseDigits base s with
  | Some z => round64 (inject_Z z)
  | None => NaN
  end.

(** A value that the host hands over as a binary64 integer, or NaN. *)
Definition ofOptionZ (o : option Z) : number :=
  match o with Some z => ofZ z | None => NaN end.

Definition Number (s : string) : number :=
  match trim s with
  | EmptyString => ofZ 0
  | String "0" (String "x" r) | String "0" (String "X" r) => parseInteger 16 r
  | String "0" (String "o" r) | String "0" (String "O" r) => parseInteger 8 r
  | String "0" (String "b" r) | String "0" (String "B" r) => parseInteger 2 r
  | String "+" r => parseDecimal r
  | String "-" r => negate (parseDecimal r)
  | t => parseDecimal t
  end.

(** Completion of a call: a value, or an exception with its message. *)
Inductive outcome (A : Type) : Type :=
| Return (a : A)
| Throw (e : string).
Arguments Return {A} a.
Arguments Throw {A} e.

(** *** Arrays *)

(** [xs.slice(start, end)]: a negative index counts from the end, and
    both indices are clipped to the bounds of [xs]. *)
Definition slice {A : Type} (xs : list A) (start end_ : Z) : list A :=
  let len := Z.of_nat (List.length xs) in
  let k := if start <? 0 then Z.max (len + start) 0 else Z.min start len in
  let final := if end_ <? 0 then Z.max (len + end_) 0 else Z.min end_ len in
  firstn (Z.to_nat (final - k)) (skipn (Z.to_nat k) xs).

(** [xs.some(p)] and [xs.filter(p)] are [existsb p xs] and [filter p xs]. *)

Section Sorting.
Context {A : Type}.

(** Stable insertion: [x] stays in front of the first element that it
    does not have to follow. *)
Fixpoint insertBy (le : A -> A -> bool) (x : A) (l : list A) : list A :=
  match l with
  | [] => [x]
  | y :: r => if le x y then x :: l else y :: insertBy le x r
  end.

Definition sortBy (le : A -> A -> bool) (l : list A) : list A :=
  fold_right (insertBy le) [] l.

(** What the sort reads off a comparator result: [x] may stay before [y]
    when [comparefn(x, y)] is not positive (a NaN result counts as 0). *)
Definition notAfter (v : number) : bool := sign v <=? 0.

Definition precedes (comparefn : A -> A -> number) (x y : A) : bool :=
  notAfter (comparefn x y).

(** [xs.sort(comparefn)].  ECMAScript requires a stable sort; for a
    consistent comparator that fixes the result, which this insertion
    sort computes.  For an inconsistent comparator the standard leaves
    the order to the implementation, and this is one such order. *)
Definition Array_sort (comparefn : A -> A -> number) (l : list A) : list A :=
  sortBy (precedes comparefn) l.

(** The same sort for a comparator that may throw: the exception of the
    first failing comparison ends the sort. *)
Fixpoint insertThrowing (comparefn : A -> A -> outcome number) (x : A) (l : list A)
  : outcome (list A) :=
  match l with
  | [] => Return [x]
  | y :: r =>
      match comparefn x y with
      | Throw e => Throw e
      | Return v =>
          if notAfter v then Return (x :: l)
          else match insertThrowing comparefn x r with
               | Return r' => Return (y :: r')
               | Throw e => Throw e
               end
      end
  end.

Definition Array_sort_throwing (comparefn : A -> A -> outcome number) (l : list A)
  : outcome (list A) :=
  fold_right (fun x sorted =>
                match sorted with
                | Return s => insertThrowing comparefn x s
                | Throw e => Throw e
                end)
             (Return []) l.

End Sorting.

(** *** Objects used as dictionaries *)

(** The own properties of an object literal, in the order of their
    creation. *)
Definition object (V : Type) : Type := list (string * V).

(** The properties every [{}] inherits from [Object.prototype]. *)
Definition objectPrototypeKeys : list string :=
  [ "constructor"; "hasOwnProperty"; "isPrototypeOf"; "propertyIsEnumerable";
    "toLocaleString"; "toString"; "valueOf"; "__proto__";
    "__defineGetter__"; "__defineSetter__"; "__lookupGetter__"; "__lookupSetter__" ].

(** The result of reading [o[k]]. *)
Inductive property (V : Type) : Type :=
| Own (v : V)
| Inherited
| Undefined.
Arguments Own {V} v.
Arguments Inherited {V}.
Arguments Undefined {V}.

Fixpoint getOwn {V : Type} (o : object V) (k : string) : option V :=
  match o with
  | [] => None
  | (k', v) :: r => if String.eqb k' k then Some v else getOwn r k
  end.

Definition get {V : Type} (o : object V) (k : string) : property V :=
  match getOwn o k with
  | Some v => Own v
  | None => if Array_includes objectPrototypeKeys k then Inherited else Undefined
  end.

(** [o[k] = v]: an own property keeps its place, a new one goes last. *)
Fixpoint set {V : Type} (o : object V) (k : string) (v : V) : object V :=
  match o with
  | [] => [(k, v)]
  | (k', v') :: r => if String.eqb k' k then (k', v) :: r else (k', v') :: set r k v
  end.

(** An array index: the canonical decimal form of an integer below
    [2^32 - 1]. *)
Definition arrayIndex (k : string) : option Z :=
  match parseDigits 10 k with
  | Some n =>
      if (String.eqb k "0" || negb (startsWith k "0")) && (n <? 2 ^ 32 - 1)
      then Some n else None
  | None => None
  end.

Definition isArrayIndex (k : string) : bool :=
  match arrayIndex k with Some _ => true | None => false end.

Definition indexLe {V : Type} (e1 e2 : string * V) : bool :=
  match arrayIndex (fst e1), arrayIndex (fst e2) with
  | Some m, Some n => m <=? n
  | _, _ => true
  end.

(** [Object.entries(o)]: the array-index keys first, in ascending
    numeric order, then the other keys in the order of their creation. *)
Definition Object_entries {V : Type} (o : object V) : list (string * V) :=
  sortBy indexLe (filter (fun e => isArrayIndex (fst e)) o) ++
  filter (fun e => negb (isArrayIndex (fst e))) o.

End Js.

(** What ECMAScript leaves to the host: the collation behind
    [String.prototype.localeCompare], and the parsing of dates,
    [Date_getTime s] being [new Date(s).getTime()]: the time value in
    milliseconds, or [None] for an invalid date (NaN). *)
Class Host : Type := {
  localeCompare : string -> string -> Z;
  Date_getTime : string -> option Z
}.

(** What ECMAScript requires of [localeCompare] all the same: to be a
    consistent comparator that totally orders the strings. *)
Class ConsistentCollation (host : Host) : Prop := {
  localeCompare_sgn : forall a b, Z.sgn (localeCompare b a) = - Z.sgn (localeCompare a b);
  localeCompare_trans :
    forall a b c, localeCompare a b <= 0 -> localeCompare b c <= 0 -> localeCompare a c <= 0
}.

(** A host to compute with: collation by code units, and dates of the
    form [YYYY-MM-DD] only, read as midnight UTC. *)
Module ReferenceHost.

Definition codeUnitCompare (a b : string) : Z :=
  match String.compare a b with
  | Lt => -1
  | Eq => 0
  | Gt => 1
  end.

Definition daysFromCivil (y m d : Z) : Z :=
  let y := if m <=? 2 then y - 1 else y in
  let era := y / 400 in
  let yoe := y - era * 400 in
  let doy := (153 * (if 2 <? m then m - 3 else m + 9) + 2) / 5 + d - 1 in
  let doe := yoe * 365 + yoe / 4 - yoe / 100 + doy in
  era * 146097 + doe - 719468.

Definition isoDateTime (s : string) : option Z :=
  match Js.split "-"%char s with
  | [y; m; d] =>
      match Js.parseDigits 10 y, Js.parseDigits 10 m, Js.parseDigits 10 d with
      | Some y', Some m', Some d' =>
          if Nat.eqb (String.length y) 4 && Nat.eqb (String.length m) 2 &&
             Nat.eqb (String.length d) 2 &&
             (1 <=? m') && (m' <=? 12) && (1 <=? d') && (d' <=? 31)
          then Some (daysFromCivil y' m' d' * 86400000)
          else None
      | _, _, _ => None
      end
  | _ => None
  end.

End ReferenceHost.

#[export] Instance referenceHost : Host := {|
  localeCompare := ReferenceHost.codeUnitCompare;
  Date_getTime := ReferenceHost.isoDateTime
|}.

(* ------------------------------------------------------------------ *)
(** ** [app/lib/data/data.ts]: the report store                         *)
(* ------------------------------------------------------------------ *)

Module Data.
Import Js.

(** [interface Report]. *)
Record Report : Type := {
  id : string;
  name : string;
  isActive : bool;
  data : list (list (string * string));
  tags : list string;
  date : string
}.

(** A report entry of [structure.json]. *)
Record Entry : Type := {
  entry_id : string;
  entry_name : string;
  entry_isActive : bool;
  entry_tags : list string;
  entry_date : string
}.

Record Folder : Type := {
  folder_id : string;
  folder_name : string;
  folder_reports : list Entry
}.

(** The file [structure.json]: its parsed content when it can be read
    and parsed, and whether it can be written. *)
Record Disk : Type := {
  structure : option (list Folder);
  writable : bool
}.

(** The world of the server action and of its caller: the disk, whether
    the call reaches the server, and the lines written by
    [console.error]. *)
Record World : Type := {
  disk : Disk;
  reachable : bool;
  console : list string
}.

(** Computations that read and write the world and may throw. *)
Definition M (A : Type) : Type := World -> outcome A * World.

Definition ret {A : Type} (a : A) : M A := fun w => (Return a, w).

Definition throw {A : Type} (e : string) : M A := fun w => (Throw e, w).

Definition bind {A B : Type} (m : M A) (k : A -> M B) : M B :=
  fun w =>
    match m w with
    | (Return a, w') => k a w'
    | (Throw e, w') => (Throw e, w')
    end.

(** [try { m } catch (error) { handler(error) }]. *)
Definition try_catch {A : Type} (m : M A) (handler : string -> M A) : M A :=
  fun w =>
    match m w with
    | (Return a, w') => (Return a, w')
    | (Throw e, w') => handler e w'
    end.

Declare Scope js_scope.
Delimit Scope js_scope with js.
Notation "x <- m ;; k" := (bind m (fun x => k))
  (at level 61, m at next level, right associativity) : js_scope.
Notation "m ;; k" := (bind m (fun _ => k))
  (at level 61, right associativity) : js_scope.

(** [await fs.readFile(filePath, 'utf8')] followed by [JSON.parse]. *)
Definition readStructure : M (list Folder) :=
  fun w =>
    match structure (disk w) with
    | Some folders => (Return folders, w)
    | None => (Throw "ENOENT: structure.json", w)
    end.

(** [await fs.writeFile(filePath, JSON.stringify(structure, null, 2))]. *)
Definition writeStructure (folders : list Folder) : M unit :=
  fun w =>
    if writable (disk w)
    then (Return tt,
          {| disk := {| structure := Some folders; writable := true |};
             reachable := reachable w; console := console w |})
    else (Throw "EACCES: structure.json", w).

(** [console.error(label, error)]. *)
Definition console_error (label error : string) : M unit :=
  fun w =>
    (Return tt,
     {| disk := disk w; reachable := reachable w;
        console := console w ++ [(label ++ " " ++ error)%string] |}).

Definition setEntryActive (status : bool) (e : Entry) : Entry :=
  {| entry_id := entry_id e; entry_name := entry_name e; entry_isActive := status;
     entry_tags := entry_tags e; entry_date := entry_date e |}.

(** [export async function toggleReportStatus(reportId, status)]. *)
Definition toggleReportStatus (reportId : string) (status : bool) : M bool :=
  try_catch
    (folders <- readStructure ;;
     let folders' :=
       map (fun folder =>
              {| folder_id := folder_id folder; folder_name := folder_name folder;
                 folder_reports :=
                   map (fun report =>
                          if String.eqb (entry_id report) reportId
                          then setEntryActive status report
                          else report)
                       (folder_reports folder) |})
           folders in
     writeStructure folders' ;;
     ret true)%js
    (fun error =>
       console_error "Error toggling report status:" error ;;
       ret false)%js.

(** The call of a server action from the component: it rejects when the
    server cannot be reached. *)
Definition serverAction {A : Type} (action : M A) : M A :=
  fun w => if reachable w then action w else (Throw "fetch failed", w).

End Data.

(* ------------------------------------------------------------------ *)
(** ** [app/ui/dashboard/report-grid.tsx]: the [ReportGrid] component   *)
(* ------------------------------------------------------------------ *)

Module ReportGrid.
Import Js Data.

Record CsvData : Type := {
  headers : list string;
  rows : list (list string)
}.

(** A string used as a condition: the empty string is falsy. *)
Definition truthy (s : string) : bool := negb (String.eqb s "").

(** [const parseCSV = (csv: string) => ...]. *)
Definition parseCSV (csv : string) : CsvData :=
  let lines := split "010"%char csv in
  let headers := map trim (split ","%char (hd "" lines)) in
  let rows :=
    filter (fun row => Nat.eqb (List.length row) (List.length headers) && existsb truthy row)
           (map (fun line => map trim (split ","%char line)) (tl lines)) in
  {| headers := headers; rows := rows |}.

(** [!tagFilter] for [tagFilter: string | null]. *)
Definition notTag (tagFilter : option string) : bool :=
  match tagFilter with
  | None => true
  | Some t => negb (truthy t)
  end.

(** The three conditions of the callback of [filterReports]:
    [matchesSearch], [matchesTag] and [matchesStatus]. *)
Definition matchesSearch (searchTerm : string) (report : Report) : bool :=
  String.eqb searchTerm "" ||
  includes (toLowerCase (name report)) (toLowerCase searchTerm).

Definition matchesTag (tagFilter : option string) (report : Report) : bool :=
  notTag tagFilter ||
  match tagFilter with
  | Some t => Array_includes (tags report) t
  | None => false
  end.

Definition matchesStatus (statusFilter : option bool) (report : Report) : bool :=
  match statusFilter with
  | None => true
  | Some b => Bool.eqb (isActive report) b
  end.

(** [const filterReports = (reports, searchTerm, tagFilter, statusFilter) => ...]. *)
Definition filterReports (reports : list Report) (searchTerm : string)
    (tagFilter : option string) (statusFilter : option bool) : list Report :=
  filter (fun report =>
            matchesSearch searchTerm report && matchesTag tagFilter report &&
            matchesStatus statusFilter report)
         reports.

(** [report.date.split('T')[0]]. *)
Definition dateKey (report : Report) : string := hd "" (split "T"%char (date report)).

(** One step of the [reduce] of [groupReportsByDate]: [!acc[date]] is
    false for an inherited property too, and then [acc[date].push] is not
    a function. *)
Definition groupStep (acc : outcome (object (list Report))) (report : Report)
  : outcome (object (list Report)) :=
  match acc with
  | Throw e => Throw e
  | Return acc =>
      let date := dateKey report in
      let acc :=
        match get acc date with
        | Undefined => set acc date []
        | _ => acc
        end in
      match get acc date with
      | Own group => Return (set acc date (group ++ [report]))
      | _ => Throw "TypeError: acc[date].push is not a function"
      end
  end.

Inductive PageSize : Type :=
| Size (n : Z)
| All.

Definition PAGE_SIZE_OPTIONS : list PageSize := [Size 5; Size 10; Size 50; Size 100; All].

(** [typeof pageSize === 'number' ? pageSize : d]. *)
Definition numberOr (pageSize : PageSize) (d : Z) : Z :=
  match pageSize with
  | Size n => n
  | All => d
  end.

Inductive SortDirection : Type := asc | desc.
Inductive SortField : Type := byName | byDate | byStatus.

Definition SortField_eqb (f g : SortField) : bool :=
  match f, g with
  | byName, byName | byDate, byDate | byStatus, byStatus => true
  | _, _ => false
  end.

(** [prev.field === field] for [SortField | null]. *)
Definition sameField (f g : option SortField) : bool :=
  match f, g with
  | None, None => true
  | Some a, Some b => SortField_eqb a b
  | _, _ => false
  end.

Record SortState : Type := {
  field : option SortField;
  direction : option SortDirection
}.

(** The three-state toggle written twice in the component:
    [d === 'asc' ? 'desc' : d === 'desc' ? null : 'asc']. *)
Definition nextDirection (d : option SortDirection) : option SortDirection :=
  match d with
  | Some asc => Some desc
  | Some desc => None
  | None => Some asc
  end.

(** [const handleSort = (field: SortField) => setSortState(prev => ...)]. *)
Definition handleSort (f : option SortField) (prev : SortState) : SortState :=
  {| field := f;
     direction := if sameField (field prev) f then nextDirection (direction prev)
                  else Some asc |}.

(** [getPaginatedData] and [getPaginatedReports]: the same body, on the
    rows of the CSV table and on the reports. *)
Definition getPaginated {A : Type} (pageSize : PageSize) (currentPage : Z) (xs : list A)
  : list A :=
  match pageSize with
  | All => xs
  | Size _ =>
      let startIndex := (currentPage - 1) * numberOr pageSize 0 in
      let endIndex := startIndex + numberOr pageSize 0 in
      slice xs startIndex endIndex
  end.

(** [Math.ceil(length / (typeof pageSize === 'number' ? pageSize : 1))],
    the page count of both pagination bars. *)
Definition pageCount (length : nat) (pageSize : PageSize) : Z :=
  Math_ceil (inject_Z (Z.of_nat length) / inject_Z (numberOr pageSize 1)).

(** The condition under which a pagination bar is rendered:
    [pageSize !== 'All' && length > (typeof pageSize === 'number' ? pageSize : 0)]. *)
Definition pagerShown (length : nat) (pageSize : PageSize) : bool :=
  match pageSize with
  | All => false
  | Size _ => numberOr pageSize 0 <? Z.of_nat length
  end.

Definition setActive (b : bool) (report : Report) : Report :=
  {| id := id report; name := name report; isActive := b; data := data report;
     tags := tags report; date := date report |}.

(** [const handleToggleActive = async (reportId, currentStatus) => ...],
    on the [reports] state. *)
Definition handleToggleActive (reportId : string) (currentStatus : bool)
    (reports : list Report) : M (list Report) :=
  try_catch
    (serverAction (toggleReportStatus reportId (negb currentStatus)) ;;
     ret (map (fun report =>
                 if String.eqb (id report) reportId
                 then setActive (negb (isActive report)) report
                 else report)
              reports))%js
    (fun error =>
       console_error "Error updating status:" error ;;
       ret reports)%js.

Section WithHost.
Context {host : Host}.

(** [const groupReportsByDate = (reports, searchTerm, tagFilter, statusFilter) => ...]. *)
Definition groupReportsByDate (reports : list Report) (searchTerm : string)
    (tagFilter : option string) (statusFilter : option bool)
  : outcome (list (string * list Report)) :=
  let filteredReports := filterReports reports searchTerm tagFilter statusFilter in
  match fold_left groupStep filteredReports (Return []) with
  | Throw e => Throw e
  | Return grouped =>
      Return (Array_sort (fun a b => ofZ (localeCompare (fst b) (fst a)))
                         (Object_entries grouped))
  end.

(** [new Date(s).getTime()]. *)
Definition getTime (s : string) : number := ofOptionZ (Date_getTime s).

(** The comparator of [sortReports]. *)
Definition compareReports (f : SortField) (d : SortDirection) (a b : Report) : number :=
  match f with
  | byName =>
      match d with
      | asc => ofZ (localeCompare (name a) (name b))
      | desc => ofZ (localeCompare (name b) (name a))
      end
  | byDate =>
      match d with
      | asc => sub (getTime (date a)) (getTime (date b))
      | desc => sub (getTime (date b)) (getTime (date a))
      end
  | byStatus =>
      match d with
      | asc => sub (Number_bool (isActive a)) (Number_bool (isActive b))
      | desc => sub (Number_bool (isActive b)) (Number_bool (isActive a))
      end
  end.

(** [const sortReports = (reports, { field, direction }) => ...]. *)
Definition sortReports (reports : list Report) (s : SortState) : list Report :=
  match field s, direction s with
  | Some f, Some d => Array_sort (compareReports f d) reports
  | _, _ => reports
  end.

(** The state of the report list: the [useState] cells that the list,
    its filters and its pagination bar read. *)
Record GridState : Type := {
  reports : list Report;
  groupByDate : bool;
  gridPageSize : PageSize;
  gridCurrentPage : Z;
  searchTerm : string;
  sortState : SortState;
  activeTagFilter : option string;
  activeStatusFilter : option bool
}.

(** The initial values of the cells, once [initialReports] is loaded. *)
Definition initialGrid (initialReports : list Report) : GridState :=
  {| reports := initialReports; groupByDate := true; gridPageSize := Size 10;
     gridCurrentPage := 1; searchTerm := "";
     sortState := {| field := None; direction := None |};
     activeTagFilter := None; activeStatusFilter := None |}.

Definition setGridCurrentPage (page : Z) (st : GridState) : GridState :=
  {| reports := reports st; groupByDate := groupByDate st; gridPageSize := gridPageSize st;
     gridCurrentPage := page; searchTerm := searchTerm st; sortState := sortState st;
     activeTagFilter := activeTagFilter st; activeStatusFilter := activeStatusFilter st |}.

Definition setGridPageSize (size : PageSize) (st : GridState) : GridState :=
  {| reports := reports st; groupByDate := groupByDate st; gridPageSize := size;
     gridCurrentPage := gridCurrentPage st; searchTerm := searchTerm st;
     sortState := sortState st;
     activeTagFilter := activeTagFilter st; activeStatusFilter := activeStatusFilter st |}.

Definition setSearchTerm (term : string) (st : GridState) : GridState :=
  {| reports := reports st; groupByDate := groupByDate st; gridPageSize := gridPageSize st;
     gridCurrentPage := gridCurrentPage st; searchTerm := term; sortState := sortState st;
     activeTagFilter := activeTagFilter st; activeStatusFilter := activeStatusFilter st |}.

Definition setSortState (s : SortState) (st : GridState) : GridState :=
  {| reports := reports st; groupByDate := groupByDate st; gridPageSize := gridPageSize st;
     gridCurrentPage := gridCurrentPage st; searchTerm := searchTerm st; sortState := s;
     activeTagFilter := activeTagFilter st; activeStatusFilter := activeStatusFilter st |}.

Definition setActiveTagFilter (t : option string) (st : GridState) : GridState :=
  {| reports := reports st; groupByDate := groupByDate st; gridPageSize := gridPageSize st;
     gridCurrentPage := gridCurrentPage st; searchTerm := searchTerm st;
     sortState := sortState st;
     activeTagFilter := t; activeStatusFilter := activeStatusFilter st |}.

Definition setActiveStatusFilter (b : option bool) (st : GridState) : GridState :=
  {| reports := reports st; groupByDate := groupByDate st; gridPageSize := gridPageSize st;
     gridCurrentPage := gridCurrentPage st; searchTerm := searchTerm st;
     sortState := sortState st;
     activeTagFilter := activeTagFilter st; activeStatusFilter := b |}.

Definition setGroupByDate (b : bool) (st : GridState) : GridState :=
  {| reports := reports st; groupByDate := b; gridPageSize := gridPageSize st;
     gridCurrentPage := gridCurrentPage st; searchTerm := searchTerm st;
     sortState := sortState st;
     activeTagFilter := activeTagFilter st; activeStatusFilter := activeStatusFilter st |}.

(** [const processedReports = useMemo(() => ...)]. *)
Definition processedReports (st : GridState) : list Report :=
  let result := reports st in
  let result :=
    filterReports result (searchTerm st) (activeTagFilter st) (activeStatusFilter st) in
  sortReports result (sortState st).

(** What the component renders for the list: the date groups, or the
    table body [getPaginatedReports(processedReports)]. *)
Inductive View : Type :=
| Groups (groups : outcome (list (string * list Report)))
| Table (body : list Report).

Definition render (st : GridState) : View :=
  if groupByDate st
  then Groups (groupReportsByDate (reports st) (searchTerm st) (activeTagFilter st)
                                  (activeStatusFilter st))
  else Table (getPaginated (gridPageSize st) (gridCurrentPage st) (processedReports st)).

(** The user's actions on the list.  A [select] delivers the [value] of
    the chosen option; the page-size select offers [PAGE_SIZE_OPTIONS]. *)
Inductive GridEvent : Type :=
| ClickFirst
| ClickPrevious
| ClickNext
| ClickLast
| SelectPageSize (size : PageSize)
| TypeSearch (value : string)
| SelectTag (value : string)
| SelectStatus (value : string)
| ClickSort (f : SortField)
| ClickGrouping.

(** The page count written in the pagination bar of the list. *)
Definition gridPageCount (st : GridState) : Z :=
  pageCount (List.length (reports st)) (gridPageSize st).

(** A button of the pagination bar: it exists in the table view when the
    bar is rendered, and a disabled button ignores the click. *)
Definition gridPagerButton (disabled : bool) (onClick : GridState -> GridState)
    (st : GridState) : GridState :=
  if negb (groupByDate st) && pagerShown (List.length (reports st)) (gridPageSize st) &&
     negb disabled
  then onClick st else st.

(** A control of the table view (page-size select, column headers). *)
Definition tableControl (onEvent : GridState -> GridState) (st : GridState) : GridState :=
  if groupByDate st then st else onEvent st.

Definition gridStep (st : GridState) (ev : GridEvent) : GridState :=
  match ev with
  | ClickFirst =>
      gridPagerButton (gridCurrentPage st =? 1) (setGridCurrentPage 1) st
  | ClickPrevious =>
      gridPagerButton (gridCurrentPage st =? 1)
        (fun st => setGridCurrentPage (Z.max (gridCurrentPage st - 1) 1) st) st
  | ClickNext =>
      gridPagerButton (gridCurrentPage st =? gridPageCount st)
        (fun st => setGridCurrentPage (gridCurrentPage st + 1) st) st
  | ClickLast =>
      gridPagerButton (gridCurrentPage st =? gridPageCount st)
        (setGridCurrentPage (gridPageCount st)) st
  | SelectPageSize newSize =>
      tableControl (fun st => setGridCurrentPage 1 (setGridPageSize newSize st)) st
  | TypeSearch value => setSearchTerm value st
  | SelectTag value =>
      setActiveTagFilter (if truthy value then Some value else None) st
  | SelectStatus value =>
      setActiveStatusFilter
        (if String.eqb value "" then None else Some (String.eqb value "true")) st
  | ClickSort f =>
      tableControl (fun st => setSortState (handleSort (Some f) (sortState st)) st) st
  | ClickGrouping => setGroupByDate (negb (groupByDate st)) st
  end.

Definition gridRun (st : GridState) (evs : list GridEvent) : GridState :=
  fold_left gridStep evs st.

(** *** The CSV detail view *)

Record CsvState : Type := {
  csvData : CsvData;
  currentPage : Z;
  pageSize : PageSize;
  csvSortField : option nat;
  csvSortDirection : option SortDirection;
  csvFilter : string
}.

(** [a[csvSortField]]: [None] is [undefined]. *)
Definition cellAt (row : list string) (column : nat) : option string := nth_error row column.

(** [Number(value)]; [Number(undefined)] is NaN. *)
Definition Number_cell (value : option string) : number :=
  match value with
  | Some s => Number s
  | None => NaN
  end.

(** [valueA.localeCompare(valueB)]: reading the method off [undefined]
    throws, and an [undefined] argument is compared as ["undefined"]. *)
Definition cell_localeCompare (valueA valueB : option string) : outcome number :=
  match valueA with
  | Some a =>
      Return (ofZ (localeCompare a (match valueB with Some b => b | None => "undefined" end)))
  | None => Throw "TypeError: Cannot read properties of undefined (reading 'localeCompare')"
  end.

(** The comparator of [getProcessedCsvData], on the two cells. *)
Definition compareCells (d : SortDirection) (valueA valueB : option string)
  : outcome number :=
  let numA := Number_cell valueA in
  let numB := Number_cell valueB in
  if negb (isNaN numA) && negb (isNaN numB)
  then Return (match d with asc => sub numA numB | desc => sub numB numA end)
  else match d with
       | asc => cell_localeCompare valueA valueB
       | desc => cell_localeCompare valueB valueA
       end.

Definition compareRows (column : nat) (d : SortDirection) (a b : list string)
  : outcome number :=
  compareCells d (cellAt a column) (cellAt b column).

Definition rowMatches (filterText : string) (row : list string) : bool :=
  existsb (fun cell => includes (toLowerCase cell) (toLowerCase filterText)) row.

(** [const getProcessedCsvData = (data) => ...]. *)
Definition getProcessedCsvData (st : CsvState) (data : CsvData) : outcome CsvData :=
  let processedRows := rows data in
  let processedRows :=
    if truthy (csvFilter st) then filter (rowMatches (csvFilter st)) processedRows
    else processedRows in
  let sorted :=
    match csvSortField st, csvSortDirection st with
    | Some column, Some d => Array_sort_throwing (compareRows column d) processedRows
    | _, _ => Return processedRows
    end in
  match sorted with
  | Return processedRows => Return {| headers := headers data; rows := processedRows |}
  | Throw e => Throw e
  end.


(** The [onClick] of a column header of the detail view. *)
Definition clickCsvHeader (index : nat) (st : CsvState) : CsvState :=
  let sameColumn :=
    match csvSortField st with
    | Some column => Nat.eqb column index
    | None => false
    end in
  if sameColumn then
    {| csvData := csvData st; currentPage := currentPage st; pageSize := pageSize st;
       csvSortField :=
         match csvSortDirection st with
         | Some desc => None
         | _ => csvSortField st
         end;
       csvSortDirection := nextDirection (csvSortDirection st);
       csvFilter := csvFilter st |}
  else
    {| csvData := csvData st; currentPage := currentPage st; pageSize := pageSize st;
       csvSortField := Some index; csvSortDirection := Some asc;
       csvFilter := csvFilter st |}.

End WithHost.

End ReportGrid.

(* ------------------------------------------------------------------ *)
(** ** The contracts of the specification, and sample data              *)
(* ------------------------------------------------------------------ *)

Section Contracts.
Import Js Data ReportGrid.
Context {host : Host}.

(** *** Filtering *)

(** The three predicates of the filter contract, in the words of the
    specification.  Containment is containment of the lower-cased search
    term in the lower-cased name; the tag filter is unset when it is
    [null] or, as [!tagFilter] reads it, the empty string. *)
Definition containsIgnoringCase (text term : string) : Prop :=
  exists pre post, Js.toLowerCase text = (pre ++ Js.toLowerCase term ++ post)%string.

Definition tagUnset (tagFilter : option string) : Prop :=
  tagFilter = None \/ tagFilter = Some "".

Definition retained (searchTerm : string) (tagFilter : option string)
    (statusFilter : option bool) (r : Report) : Prop :=
  (searchTerm = "" \/ containsIgnoringCase (name r) searchTerm) /\
  (tagUnset tagFilter \/ exists t, tagFilter = Some t /\ In t (tags r)) /\
  (statusFilter = None \/ statusFilter = Some (isActive r)).

(** *** The page number *)

(** The controls in their neutral position: no search term, no tag and
    no status filter, no sort, grouping off, page size [All], page 1. *)
Definition neutralControls (R : list Report) : GridState :=
  {| reports := R; groupByDate := false; gridPageSize := All; gridCurrentPage := 1;
     searchTerm := ""; sortState := {| field := None; direction := None |};
     activeTagFilter := None; activeStatusFilter := None |}.

(** The page count over the sequence that the table paginates, the
    filtered and sorted reports: one page for [All], otherwise the
    ceiling of the quotient, and one page at least. *)
Definition filteredPageCount (st : GridState) : Z :=
  match gridPageSize st with
  | All => 1
  | Size _ => Z.max 1 (pageCount (List.length (processedReports st)) (gridPageSize st))
  end.

(** The page count of the pagination contract, in the words of the
    specification: one page for the unbounded page size; otherwise the
    ceiling of [count / pageSize], and one page at least. *)
Definition totalPages (count : nat) (size : PageSize) : Z :=
  match size with
  | All => 1
  | Size p => Z.max 1 (Math_ceil (inject_Z (Z.of_nat count) / inject_Z p))
  end.

(** The contract on the page number. *)
Definition pageInFilteredRange (st : GridState) : Prop :=
  1 <= gridCurrentPage st <= filteredPageCount st.

(** What the pagination bar maintains instead: the range over all the
    reports of the folder, filtered or not. *)
Definition pageInUnfilteredRange (st : GridState) : Prop :=
  1 <= gridCurrentPage st <= Z.max 1 (gridPageCount st).

Definition positiveSize (size : PageSize) : Prop :=
  match size with
  | Size p => 0 < p
  | All => True
  end.

Definition offeredSize (ev : GridEvent) : Prop :=
  match ev with
  | SelectPageSize size => In size PAGE_SIZE_OPTIONS
  | _ => True
  end.

(** Six reports, and a store that cannot be written. *)
Definition sampleReport (n : string) : Report :=
  {| id := n; name := ("Report " ++ n)%string; isActive := true; data := [];
     tags := []; date := "2024-01-02" |}.

Definition sixReports : list Report :=
  map sampleReport ["1"; "2"; "3"; "4"; "5"; "6"].

(** The reports after the toggle of [reportId]. *)
Definition toggled (reportId : string) (reports : list Report) : list Report :=
  map (fun report =>
         if String.eqb (id report) reportId
         then setActive (negb (isActive report)) report
         else report)
      reports.

Definition storedEntry (n : string) (active : bool) : Entry :=
  {| entry_id := n; entry_name := n; entry_isActive := active; entry_tags := [];
     entry_date := "2024-01-02" |}.

Definition readOnlyWorld : World :=
  {| disk := {| structure :=
                  Some [{| folder_id := "f1"; folder_name := "Folder";
                           folder_reports := [storedEntry "1" true; storedEntry "2" true] |}];
                writable := false |};
     reachable := true;
     console := [] |}.

(** *** Sorting *)

(** No sort is applied: [!field || !direction] in [sortReports],
    and the negation of [csvSortField !== null && csvSortDirection] in
    [getProcessedCsvData]. *)
Definition neutral (s : SortState) : Prop := field s = None \/ direction s = None.




(** The order of the sort contract.  [keyLe f a b]: the key of [a] does
    not come after the key of [b]; names are compared by the collation
    of the host, dates by their time values, the status as 0 (inactive)
    and 1 (active). *)
Definition keyLe (f : SortField) (a b : Report) : Prop :=
  match f with
  | byName => localeCompare (name a) (name b) <= 0
  | byDate =>
      exists ta tb, Date_getTime (date a) = Some ta /\ Date_getTime (date b) = Some tb /\
                    ta <= tb
  | byStatus => Z.b2z (isActive a) <= Z.b2z (isActive b)
  end.

Definition inOrder (f : SortField) (d : SortDirection) (a b : Report) : Prop :=
  match d with
  | asc => keyLe f a b
  | desc => keyLe f b a
  end.

(** Two records have equal keys: names that the collation does not tell
    apart (the same name, or two names that compare as 0), the same time
    value, the same status. *)
Definition sameKey (f : SortField) (r x : Report) : bool :=
  match f with
  | byName => localeCompare (name r) (name x) =? 0
  | byDate =>
      match Date_getTime (date r), Date_getTime (date x) with
      | Some a, Some b => a =? b
      | None, None => true
      | _, _ => false
      end
  | byStatus => Bool.eqb (isActive r) (isActive x)
  end.

Definition validDate (r : Report) : Prop := Date_getTime (date r) <> None.

(** The records on which the comparator of field [f] is consistent. *)
Definition comparable (f : SortField) (r : Report) : Prop :=
  match f with
  | byDate => validDate r
  | _ => True
  end.

(** *** Grouping *)

Definition keyIs (k : string) (r : Report) : bool := String.eqb (dateKey r) k.

(** The dictionary built from a prefix of the records. *)
Record grouped (acc : object (list Report)) (prefix : list Report) : Prop := {
  grouped_get :
    forall k, getOwn acc k = match filter (keyIs k) prefix with
                             | [] => None
                             | g => Some g
                             end;
  grouped_keys : NoDup (map fst acc);
  grouped_all : Permutation (List.concat (map snd acc)) prefix
}.

(** The order in which [groupReportsByDate] leaves the groups. *)
Definition laterFirst (a b : string * list Report) : Prop :=
  localeCompare (fst b) (fst a) <= 0.

(** *** Numbers *)

(** The multiples of the least subnormal, [2^-1074]: every finite
    binary64 value is one, and so are the difference of two of them and
    every integer. *)
Definition onGrid (q : Q) : Prop :=
  exists k : Z, (q == inject_Z k * 2 ^ (-1074))%Q.

(** A number whose finite value lies on that grid. *)
Definition isDouble (x : number) : Prop :=
  match x with
  | Fin q => onGrid q
  | _ => True
  end.

(** The numeric order of two numbers, as -1, 0 or 1; an infinity equals
    itself, and NaN is not ordered (0). *)
Definition numberCompare (x y : number) : Z :=
  match x, y with
  | NaN, _ | _, NaN => 0
  | Fin p, Fin q =>
      match (p ?= q)%Q with
      | Lt => -1
      | Eq => 0
      | Gt => 1
      end
  | Inf s, Fin _ => if s then -1 else 1
  | Fin _, Inf s => if s then 1 else -1
  | Inf s, Inf t => if Bool.eqb s t then 0 else if s then -1 else 1
  end.

(** *** The CSV detail view *)

(** The contract of the filter of the detail view. *)
Definition someCellContains (filterText : string) (row : list string) : Prop :=
  exists cell, In cell row /\ containsIgnoringCase cell filterText.

(** The contract of the comparison of two cells: numeric when both parse
    as numbers, by collation otherwise. *)
Definition comparePair (d : SortDirection) (valueA valueB : string) : number :=
  match Number valueA, Number valueB with
  | NaN, _ | _, NaN =>
      match d with
      | asc => ofZ (localeCompare valueA valueB)
      | desc => ofZ (localeCompare valueB valueA)
      end
  | numA, numB =>
      match d with
      | asc => sub numA numB
      | desc => sub numB numA
      end
  end.





Definition hasColumn (column : nat) (row : list string) : Prop :=
  (column < List.length row)%nat.

(** The rows that pass the filter, in their order in the table. *)
Definition keptRows (st : CsvState) (dt : CsvData) : list (list string) :=
  if truthy (csvFilter st) then filter (rowMatches (csvFilter st)) (rows dt) else rows dt.

(** The comparator of two rows that both have the sort column. *)
Definition rowCompare (column : nat) (d : SortDirection) (a b : list string) : number :=
  comparePair d (nth column a "") (nth column b "").

(** *** Sample data *)

Definition record (n d : string) (active : bool) : Report :=
  {| id := n; name := n; isActive := active; data := []; tags := []; date := d |}.

(** The records of the example of the specification. *)
Definition recordB : Report := record "B" "2024-01-02" true.
Definition recordA : Report := record "A" "2024-01-02" false.
Definition recordC : Report := record "C" "2024-01-01" true.

Definition byNameAscending : SortState := {| field := Some byName; direction := Some asc |}.

Definition sampleTable : CsvData :=
  {| headers := ["name"; "n"]; rows := [["abc"; "1"]; ["xyz"; "2"]; ["cab"; "3"]] |}.

Definition sampleCsvState (f : string) (c : option nat) (d : option SortDirection) : CsvState :=
  {| csvData := sampleTable; currentPage := 1; pageSize := Size 10;
     csvSortField := c; csvSortDirection := d; csvFilter := f |}.

End Contracts.

(* ------------------------------------------------------------------ *)
(** ** More of the run time: joins, sets, the default sort              *)
(* ------------------------------------------------------------------ *)

Module JsMore.
Import Js.

(** [xs.join(sep)] on an array of strings. *)
Definition join (sep : string) (xs : list string) : string := String.concat sep xs.

(** A [Set<string>]: its elements in the order of their insertion, each
    once. *)
Definition Set_has (s : list string) (x : string) : bool := Array_includes s x.

Definition Set_add (s : list string) (x : string) : list string :=
  if Set_has s x then s else s ++ [x].

Definition Set_delete (s : list string) (x : string) : list string :=
  filter (fun y => negb (String.eqb y x)) s.

(** [new Set(xs)]. *)
Definition Set_from (xs : list string) : list string := fold_left Set_add xs [].

(** [xs.sort()] without a comparator, on strings: the stable sort by
    code units. *)
Definition Array_sort_default (xs : list string) : list string := sortBy String.leb xs.

End JsMore.

(* ------------------------------------------------------------------ *)
(** ** More of [app/lib/data/data.ts]: the reads of the store           *)
(* ------------------------------------------------------------------ *)

Module DataReads.
Import Js Data.

Section Files.

(** The content of [reports/<id>.csv] for a report id, [None] when the
    file cannot be read; and [parse(content, { columns: true })] of the
    csv-parse package, which is not part of the repository. *)
Variable reportFile : string -> option string.
Variable parse : string -> outcome (list (list (string * string))).

(** [await fs.readFile(csvPath, 'utf8')]. *)
Definition readReportFile (reportId : string) : M string :=
  fun w =>
    match reportFile reportId with
    | Some content => (Return content, w)
    | None => (Throw "ENOENT: report csv", w)
    end.

Definition lift {A : Type} (o : outcome A) : M A := fun w => (o, w).

(** [export async function getReportFolders()]: no [try]. *)
Definition getReportFolders : M (list Folder) := readStructure.

(** [await Promise.all(xs.map(f))] for reads that leave the world as it
    is: the results in the order of [xs], or a rejection.  When several
    reads fail, which rejection is reported depends on their timing; the
    first in the order of [xs] stands for it. *)
Fixpoint Promise_all {A B : Type} (f : A -> M B) (xs : list A) : M (list B) :=
  match xs with
  | [] => ret []
  | x :: r => (y <- f x ;; ys <- Promise_all f r ;; ret (y :: ys))%js
  end.

(** The callback of [folder.reports.map] in [getReportsByFolder]. *)
Definition loadReport (report : Entry) : M Report :=
  (csvContent <- readReportFile (entry_id report) ;;
   data <- lift (parse csvContent) ;;
   ret {| id := entry_id report;
          name := ("Report " ++ entry_name report)%string;
          isActive := entry_isActive report;
          data := data;
          tags := entry_tags report;
          date := entry_date report |})%js.

(** [export async function getReportsByFolder(folderId)]. *)
Definition getReportsByFolder (folderId : string) : M (list Report) :=
  try_catch
    (folders <- readStructure ;;
     match find (fun f => String.eqb (folder_id f) folderId) folders with
     | None => ret []
     | Some folder => Promise_all loadReport (folder_reports folder)
     end)%js
    (fun error =>
       console_error "Error fetching reports:" error ;;
       ret [])%js.

(** [export async function getReportCSV(reportId)]. *)
Definition getReportCSV (reportId : string) : M string :=
  try_catch
    (readReportFile reportId)
    (fun error =>
       console_error "Error fetching report CSV:" error ;;
       throw error)%js.

(** [export default async function Page()] of the dashboard: the
    folders, the default folder [folders[0]?.id] and the initial
    reports. *)
Definition Page : M (list Folder * option string * list Report) :=
  (folders <- getReportFolders ;;
   let defaultFolder := option_map folder_id (hd_error folders) in
   initialReports <-
     match defaultFolder with
     | Some folderId =>
         if negb (String.eqb folderId "") then getReportsByFolder folderId else ret []
     | None => ret []
     end ;;
   ret (folders, defaultFolder, initialReports))%js.

End Files.

End DataReads.

(* ------------------------------------------------------------------ *)
(** ** More of [report-grid.tsx]: tags, groups, the viewer, the export  *)
(* ------------------------------------------------------------------ *)

Module Handlers.
Import Js JsMore Data DataReads ReportGrid.

Definition setReports (rs : list Report) (st : GridState) : GridState :=
  {| reports := rs; groupByDate := groupByDate st; gridPageSize := gridPageSize st;
     gridCurrentPage := gridCurrentPage st; searchTerm := searchTerm st;
     sortState := sortState st;
     activeTagFilter := activeTagFilter st; activeStatusFilter := activeStatusFilter st |}.

Definition setTags (ts : list string) (report : Report) : Report :=
  {| id := id report; name := name report; isActive := isActive report;
     data := data report; tags := ts; date := date report |}.

(** [const getAllTags = (reports: Report[]) => ...]. *)
Definition getAllTags (reports : list Report) : list string :=
  let tagSet :=
    fold_left (fun tagSet report => fold_left Set_add (tags report) tagSet) reports [] in
  Array_sort_default tagSet.

(** The cells that the tag input reads and writes, next to the list. *)
Record TagEditor : Type := {
  editorGrid : GridState;
  newTag : string;
  tagReportId : option string
}.

(** [const handleAddTag = (reportId, e) => ...], [key] being [e.key]. *)
Definition handleAddTag (reportId key : string) (st : TagEditor) : TagEditor :=
  if String.eqb key "Enter" && truthy (trim (newTag st)) then
    let tagToAdd := trim (newTag st) in
    {| editorGrid :=
         setReports
           (map (fun report =>
                   if String.eqb (id report) reportId &&
                      negb (Array_includes (tags report) tagToAdd)
                   then setTags (tags report ++ [tagToAdd]) report
                   else report)
                (reports (editorGrid st)))
           (editorGrid st);
       newTag := "";
       tagReportId := None |}
  else st.

(** [const handleRemoveTag = (reportId, tagToRemove) => ...]. *)
Definition handleRemoveTag (reportId tagToRemove : string) (st : GridState) : GridState :=
  let st' :=
    setReports
      (map (fun report =>
              if String.eqb (id report) reportId
              then setTags (filter (fun tag => negb (String.eqb tag tagToRemove))
                                   (tags report))
                           report
              else report)
           (reports st))
      st in
  match activeTagFilter st with
  | Some t => if String.eqb t tagToRemove then setActiveTagFilter None st' else st'
  | None => st'
  end.

(** [const toggleGroup = (date: string) => ...], on [expandedGroups]. *)
Definition toggleGroup (date : string) (prev : list string) : list string :=
  let newSet := Set_from prev in
  if Set_has newSet date then Set_delete newSet date else Set_add newSet date.

(** [const expandAll = () => ...]: [groupedReports] is [null] when
    grouping is off. *)
Definition expandAll (groupedReports : option (list (string * list Report)))
  : list string :=
  let allDates :=
    match groupedReports with
    | Some groups => map fst groups
    | None => []
    end in
  Set_from allDates.

(** [const collapseAll = () => ...]. *)
Definition collapseAll : list string := Set_from [].

(** The cells of the viewer, and the messages shown by [alert]. *)
Record Viewer : Type := {
  selectedReport : option string;
  csvData : option CsvData;
  alerts : list string
}.

(** [selectedReport && csvData]: the condition of the modal. *)
Definition modalOpen (v : Viewer) : bool :=
  match selectedReport v, csvData v with
  | Some reportId, Some _ => truthy reportId
  | _, _ => false
  end.

Section Viewing.
Variable reportFile : string -> option string.

(** [const handleViewReport = async (report: Report) => ...]. *)
Definition handleViewReport (report : Report) (v : Viewer) : M Viewer :=
  if negb (isActive report) then
    ret {| selectedReport := selectedReport v; csvData := csvData v;
           alerts := alerts v ++ ["This report is inactive and cannot be viewed"] |}
  else
    try_catch
      (data <- serverAction (getReportCSV reportFile (id report)) ;;
       ret {| selectedReport := Some (id report); csvData := Some (parseCSV data);
              alerts := alerts v |})%js
      (fun error =>
         console_error "Error fetching CSV:" error ;;
         ret v)%js.

End Viewing.

(** The text of the download:
    [[csvData.headers, ...csvData.rows].map(row => row.join(',')).join('\n')]. *)
Definition downloadText (csvData : CsvData) : string :=
  join (String "010" "") (map (join ",") (headers csvData :: rows csvData)).

(** *** The pagination bar of the detail view *)

Definition setCurrentPage (page : Z) (st : CsvState) : CsvState :=
  {| ReportGrid.csvData := ReportGrid.csvData st; currentPage := page;
     pageSize := pageSize st; csvSortField := csvSortField st;
     csvSortDirection := csvSortDirection st; csvFilter := csvFilter st |}.

Definition setPageSize (size : PageSize) (st : CsvState) : CsvState :=
  {| ReportGrid.csvData := ReportGrid.csvData st; currentPage := currentPage st;
     pageSize := size; csvSortField := csvSortField st;
     csvSortDirection := csvSortDirection st; csvFilter := csvFilter st |}.

Definition setCsvFilter (text : string) (st : CsvState) : CsvState :=
  {| ReportGrid.csvData := ReportGrid.csvData st; currentPage := currentPage st;
     pageSize := pageSize st; csvSortField := csvSortField st;
     csvSortDirection := csvSortDirection st; csvFilter := text |}.

Inductive CsvEvent : Type :=
| CsvFirst
| CsvPrevious
| CsvNext
| CsvLast
| CsvSelectPageSize (size : PageSize)
| CsvTypeFilter (value : string)
| CsvClickHeader (index : nat).

(** The page count written in the pagination bar of the detail view. *)
Definition csvPageCount (st : CsvState) : Z :=
  pageCount (List.length (rows (ReportGrid.csvData st))) (pageSize st).

Definition csvPagerButton (disabled : bool) (onClick : CsvState -> CsvState)
    (st : CsvState) : CsvState :=
  if pagerShown (List.length (rows (ReportGrid.csvData st))) (pageSize st) && negb disabled
  then onClick st else st.

Definition csvStep (st : CsvState) (ev : CsvEvent) : CsvState :=
  match ev with
  | CsvFirst => csvPagerButton (currentPage st =? 1) (setCurrentPage 1) st
  | CsvPrevious =>
      csvPagerButton (currentPage st =? 1)
        (fun st => setCurrentPage (Z.max (currentPage st - 1) 1) st) st
  | CsvNext =>
      csvPagerButton (currentPage st =? csvPageCount st)
        (fun st => setCurrentPage (currentPage st + 1) st) st
  | CsvLast =>
      csvPagerButton (currentPage st =? csvPageCount st)
        (setCurrentPage (csvPageCount st)) st
  | CsvSelectPageSize newSize => setCurrentPage 1 (setPageSize newSize st)
  | CsvTypeFilter value => setCsvFilter value st
  | CsvClickHeader index => clickCsvHeader index st
  end.

Definition csvRun (st : CsvState) (evs : list CsvEvent) : CsvState :=
  fold_left csvStep evs st.

End Handlers.

(* ------------------------------------------------------------------ *)
(** ** Further contracts and sample data                                *)
(* ------------------------------------------------------------------ *)

Section MoreContracts.
Import Js JsMore Data DataReads ReportGrid Handlers.

(** A string that does not start with white space. *)
Definition headOk (s : string) : Prop :=
  match s with
  | EmptyString => True
  | String c _ => isWhiteSpace c = false
  end.

(** A cell as [parseCSV] leaves it: trimmed, without a comma and without
    a line feed. *)
Definition cleanCell (cell : string) : Prop :=
  trim cell = cell /\
  ~ In ","%char (list_ascii_of_string cell) /\
  ~ In "010"%char (list_ascii_of_string cell).

(** A table as [parseCSV] leaves it: a header of one clean cell at
    least, and rows of clean cells, as many as the header has, not all of
    them empty. *)
Definition wellFormedTable (t : CsvData) : Prop :=
  headers t <> [] /\
  Forall cleanCell (headers t) /\
  Forall (fun row => List.length row = List.length (headers t) /\
                     existsb truthy row = true /\ Forall cleanCell row)
         (rows t).

(** The range that the pagination bar of the detail view maintains. *)
Definition csvPageInRange (st : CsvState) : Prop :=
  1 <= currentPage st <= Z.max 1 (csvPageCount st).


(** The tag input open on report A, with a typed text. *)
Definition sampleEditor (typed : string) : TagEditor :=
  {| editorGrid := neutralControls [recordB; recordA]; newTag := typed;
     tagReportId := Some "A" |}.

(** The world after one more line of [console.error]. *)
Definition logged (w : World) (line : string) : World :=
  {| disk := disk w; reachable := reachable w; console := console w ++ [line] |}.

Section Loading.
Variable reportFile : string -> option string.
Variable parse : string -> outcome (list (list (string * string))).

(** The report that [getReportsByFolder] makes of an entry whose file
    can be read and parsed. *)
Definition loadedFrom (e : Entry) (r : Report) : Prop :=
  id r = entry_id e /\ name r = ("Report " ++ entry_name e)%string /\
  isActive r = entry_isActive e /\ tags r = entry_tags e /\ date r = entry_date e /\
  exists content, reportFile (entry_id e) = Some content /\ parse content = Return (data r).

(** The file of the entry can be read and parsed. *)
Definition entryLoads (e : Entry) : Prop :=
  exists content rows, reportFile (entry_id e) = Some content /\ parse content = Return rows.

(** What the loading of the entries of a folder comes to. *)
Definition loadedReport (e : Entry) : outcome Report :=
  match reportFile (entry_id e) with
  | None => Throw "ENOENT: report csv"
  | Some content =>
      match parse content with
      | Return rows =>
          Return {| id := entry_id e; name := ("Report " ++ entry_name e)%string;
                    isActive := entry_isActive e; data := rows;
                    tags := entry_tags e; date := entry_date e |}
      | Throw error => Throw error
      end
  end.

Fixpoint loadedAll (es : list Entry) : outcome (list Report) :=
  match es with
  | [] => Return []
  | e :: rest =>
      match loadedReport e with
      | Throw error => Throw error
      | Return r =>
          match loadedAll rest with
          | Return rs => Return (r :: rs)
          | Throw error => Throw error
          end
      end
  end.

End Loading.

(** The entries and the folders that [toggleReportStatus] writes. *)
Definition entryWithStatus (reportId : string) (status : bool) (e : Entry) : Entry :=
  if String.eqb (entry_id e) reportId then setEntryActive status e else e.

Definition foldersWithStatus (reportId : string) (status : bool) (folders : list Folder)
  : list Folder :=
  map (fun folder =>
         {| folder_id := folder_id folder; folder_name := folder_name folder;
            folder_reports := map (entryWithStatus reportId status) (folder_reports folder) |})
      folders.

(** The same change on a loaded report. *)
Definition reportWithStatus (reportId : string) (status : bool) (r : Report) : Report :=
  if String.eqb (id r) reportId then setActive status r else r.

(** A store of one folder with two reports that can be written. *)
Definition writableWorld : World :=
  {| disk := {| structure :=
                  Some [{| folder_id := "f1"; folder_name := "Folder";
                           folder_reports := [storedEntry "1" true; storedEntry "2" true] |}];
                writable := true |};
     reachable := true;
     console := [] |}.

(** Report 1 has a file, report 2 has none; the parser keeps no row. *)
Definition sampleFiles (reportId : string) : option string :=
  if String.eqb reportId "1" then Some "name,n" else None.

Definition allFiles (reportId : string) : option string := Some "name,n".

Definition sampleParse (content : string) : outcome (list (list (string * string))) :=
  Return [].

(** The cell of a row in a column parses as a finite number, and [q] is
    its binary64 value. *)
Definition numericAt (column : nat) (row : list string) (q : Q) : Prop :=
  exists cell, cellAt row column = Some cell /\ Number cell = Fin q.

(** A table with a numeric column, an empty cell included. *)
Definition numbersTable : CsvData :=
  {| headers := ["name"; "n"];
     rows := [["a"; "10"]; ["b"; "9"]; ["c"; "-2.5"]; ["d"; ""]] |}.

(** Three integers around [2^53], two of which are one binary64 value,
    and a column with cells that overflow. *)
Definition largeNumbersTable : CsvData :=
  {| headers := ["name"; "n"];
     rows := [["a"; "9007199254740993"]; ["b"; "9007199254740992"];
              ["c"; "9007199254740991"]] |}.

Definition overflowTable : CsvData :=
  {| headers := ["name"; "n"];
     rows := [["a"; "1e400"]; ["b"; "5"]; ["c"; "1e400"]; ["d"; "-1e400"]] |}.

Definition sortedByColumn (column : nat) (d : SortDirection) (dt : CsvData) : CsvState :=
  {| ReportGrid.csvData := dt; currentPage := 1; pageSize := Size 10;
     csvSortField := Some column; csvSortDirection := Some d; csvFilter := "" |}.

End MoreContracts.

(* ------------------------------------------------------------------ *)
(** ** Facts about the run time                                         *)
(* ------------------------------------------------------------------ *)

Section SortFacts.
Context {A : Type} (le : A -> A -> bool).

Lemma insertBy_perm (x : A) (l : list A) : Permutation (Js.insertBy le x l) (x :: l).
Proof.
  induction l as [|y r IH]; simpl.
  - apply Permutation_refl.
  - destruct (le x y).
    + apply Permutation_refl.
    + eapply Permutation_trans; [apply perm_skip, IH | apply perm_swap].
Qed.

Lemma sortBy_perm (l : list A) : Permutation (Js.sortBy le l) l.
Proof.
  induction l as [|x l IH]; simpl.
  - constructor.
  - eapply Permutation_trans; [apply insertBy_perm | apply perm_skip, IH].
Qed.

Lemma sortBy_In (l : list A) (x : A) : In x (Js.sortBy le l) <-> In x l.
Proof.
  split; apply Permutation_in;
    [apply sortBy_perm | apply Permutation_sym, sortBy_perm].
Qed.

(** Stability: elements that need not move past one another stay in
    their order. *)
Lemma insertBy_filter (p : A -> bool) (x : A) (l : list A) :
  (p x = true -> forall y, In y l -> p y = true -> le x y = true) ->
  filter p (Js.insertBy le x l) = filter p (x :: l).
Proof.
  induction l as [|y r IH]; intros Hx; simpl.
  - reflexivity.
  - destruct (le x y) eqn:Hle; simpl.
    + reflexivity.
    + assert (Hr : filter p (Js.insertBy le x r) = filter p (x :: r)).
      { apply IH. intros px z Hz pz. apply Hx; simpl; auto. }
      simpl in Hr. rewrite Hr.
      destruct (p x) eqn:px; destruct (p y) eqn:py; try reflexivity.
      rewrite (Hx eq_refl y (or_introl eq_refl) py) in Hle. discriminate.
Qed.

Lemma sortBy_stable (p : A -> bool) (l : list A) :
  (forall a b, p a = true -> p b = true -> le a b = true) ->
  filter p (Js.sortBy le l) = filter p l.
Proof.
  intros Hp. induction l as [|x l IH]; simpl.
  - reflexivity.
  - rewrite insertBy_filter.
    + simpl. rewrite IH. reflexivity.
    + intros px y _ py. apply Hp; assumption.
Qed.

(** Order: on elements that the comparison totally preorders, the result
    is sorted. *)
Section Sorted.
Variable Dom : A -> Prop.
Hypothesis le_total : forall a b, Dom a -> Dom b -> le a b = true \/ le b a = true.
Hypothesis le_trans :
  forall a b c, Dom a -> Dom b -> Dom c -> le a b = true -> le b c = true -> le a c = true.

Lemma insertBy_sorted (x : A) (l : list A) :
  Dom x -> Forall Dom l ->
  StronglySorted (fun a b => le a b = true) l ->
  StronglySorted (fun a b => le a b = true) (Js.insertBy le x l).
Proof.
  intros Dx Dl Hs. induction Hs as [|y r Hs IH Hy]; simpl.
  - constructor; constructor.
  - inversion Dl as [|? ? Dy Dr]; subst.
    destruct (le x y) eqn:Hxy.
    + constructor.
      * constructor; assumption.
      * constructor; [assumption|].
        rewrite Forall_forall in *. intros z Hz.
        apply (le_trans x y z); auto.
    + constructor.
      * apply IH; assumption.
      * rewrite Forall_forall. intros z Hz.
        apply (Permutation_in _ (insertBy_perm x r)) in Hz.
        destruct Hz as [<-|Hz].
        -- destruct (le_total x y Dx Dy) as [E|E]; [congruence | exact E].
        -- rewrite Forall_forall in Hy. auto.
Qed.

Lemma sortBy_sorted (l : list A) :
  Forall Dom l -> StronglySorted (fun a b => le a b = true) (Js.sortBy le l).
Proof.
  induction l as [|x l IH]; intros Dl; simpl.
  - constructor.
  - inversion Dl as [|? ? Dx Dl']; subst. apply insertBy_sorted.
    + exact Dx.
    + rewrite Forall_forall. intros z Hz. apply (proj1 (sortBy_In l z)) in Hz.
      rewrite Forall_forall in Dl'. apply Dl'. exact Hz.
    + apply IH. exact Dl'.
Qed.

End Sorted.

End SortFacts.

Lemma StronglySorted_impl {A : Type} (R S : A -> A -> Prop) (l : list A) :
  (forall a b, In a l -> In b l -> R a b -> S a b) ->
  StronglySorted R l -> StronglySorted S l.
Proof.
  intros HRS Hs. induction Hs as [|x l Hs IH Hx].
  - constructor.
  - constructor.
    + apply IH. intros a b Ha Hb. apply HRS; simpl; auto.
    + rewrite Forall_forall in *. intros y Hy. apply HRS; simpl; auto.
Qed.

(** A comparator that never throws on the elements of the array sorts as
    its value does. *)
Lemma insertThrowing_pure {A : Type} (cmpT : A -> A -> Js.outcome Js.number)
    (cmp : A -> A -> Js.number) (x : A) (l : list A) :
  (forall y, In y l -> cmpT x y = Js.Return (cmp x y)) ->
  Js.insertThrowing cmpT x l = Js.Return (Js.insertBy (Js.precedes cmp) x l).
Proof.
  induction l as [|y r IH]; intros Hc; simpl.
  - reflexivity.
  - rewrite (Hc y (or_introl eq_refl)). unfold Js.precedes at 1.
    destruct (Js.notAfter (cmp x y)); [reflexivity|].
    rewrite IH; [reflexivity|]. intros z Hz. apply Hc. simpl; auto.
Qed.

Lemma Array_sort_throwing_pure {A : Type} (cmpT : A -> A -> Js.outcome Js.number)
    (cmp : A -> A -> Js.number) (l : list A) :
  (forall x y, In x l -> In y l -> cmpT x y = Js.Return (cmp x y)) ->
  Js.Array_sort_throwing cmpT l = Js.Return (Js.Array_sort cmp l).
Proof.
  unfold Js.Array_sort, Js.Array_sort_throwing.
  induction l as [|x l IH]; intros Hc; simpl.
  - reflexivity.
  - rewrite IH.
    + apply insertThrowing_pure. intros y Hy.
      apply (proj1 (sortBy_In _ l y)) in Hy. apply Hc; simpl; auto.
    + intros a b Ha Hb. apply Hc; simpl; auto.
Qed.

(** *** Strings *)

Lemma startsWith_spec (s p : string) :
  Js.startsWith s p = true <-> exists post, s = (p ++ post)%string.
Proof.
  revert s. induction p as [|a p IH]; intros s; simpl.
  - split; [intros _; exists s; reflexivity | reflexivity].
  - destruct s as [|b s].
    + split; [discriminate | intros [post E]; discriminate].
    + rewrite andb_true_iff, Ascii.eqb_eq, IH. split.
      * intros [-> [post ->]]. exists post. reflexivity.
      * intros [post E]. injection E as -> ->. split; [reflexivity | eexists; reflexivity].
Qed.

(** [includes] is containment as a substring. *)
Lemma includes_spec (s sub : string) :
  Js.includes s sub = true <-> exists pre post, s = (pre ++ sub ++ post)%string.
Proof.
  induction s as [|c s IH].
  - simpl. rewrite orb_false_r, startsWith_spec. split.
    + intros [post E]. exists EmptyString, post. exact E.
    + intros [pre [post E]]. destruct pre; [exists post; exact E | discriminate].
  - cbn [Js.includes]. rewrite orb_true_iff, startsWith_spec, IH. split.
    + intros [[post E]|[pre [post E]]].
      * exists EmptyString, post. exact E.
      * exists (String c pre), post. simpl. rewrite E. reflexivity.
    + intros [pre [post E]]. destruct pre as [|c' pre].
      * left. exists post. exact E.
      * right. simpl in E. injection E as _ E. exists pre, post. exact E.
Qed.

Lemma Array_includes_In (xs : list string) (x : string) :
  Js.Array_includes xs x = true <-> In x xs.
Proof.
  unfold Js.Array_includes. rewrite existsb_exists. split.
  - intros [y [Hy E]]. apply String.eqb_eq in E. subst. exact Hy.
  - intros Hx. exists x. split; [exact Hx | apply String.eqb_refl].
Qed.

(** *** The reference host *)

Lemma codeUnitCompare_le (a b : string) :
  ReferenceHost.codeUnitCompare a b <= 0 <-> a = b \/ String_as_OT.lt a b.
Proof.
  unfold ReferenceHost.codeUnitCompare.
  destruct (String.compare a b) eqn:E; split; intros H; try lia.
  - left. apply String_as_OT.cmp_eq. exact E.
  - right. apply String_as_OT.cmp_lt. exact E.
  - exfalso. destruct H as [H|H].
    + apply String_as_OT.cmp_eq in H. unfold String_as_OT.cmp in H. congruence.
    + apply String_as_OT.cmp_lt in H. unfold String_as_OT.cmp in H. congruence.
Qed.

Lemma codeUnitCompare_sgn (a b : string) :
  Z.sgn (ReferenceHost.codeUnitCompare b a) = - Z.sgn (ReferenceHost.codeUnitCompare a b).
Proof.
  unfold ReferenceHost.codeUnitCompare. rewrite (String.compare_antisym a b).
  destruct (String.compare b a); reflexivity.
Qed.

Lemma codeUnitCompare_trans (a b c : string) :
  ReferenceHost.codeUnitCompare a b <= 0 -> ReferenceHost.codeUnitCompare b c <= 0 ->
  ReferenceHost.codeUnitCompare a c <= 0.
Proof.
  rewrite !codeUnitCompare_le. intros [->|Hab] [->|Hbc]; auto.
  right. eapply String_as_OT.lt_trans; eassumption.
Qed.

#[export] Instance referenceHost_consistent : ConsistentCollation referenceHost := {|
  localeCompare_sgn := fun a b => codeUnitCompare_sgn a b;
  localeCompare_trans := codeUnitCompare_trans
|}.

Lemma localeCompare_refl {host : Host} {consistent : ConsistentCollation host} (a : string) : localeCompare a a = 0.
Proof.
  pose proof (localeCompare_sgn a a) as E.
  destruct (localeCompare a a); simpl in E; try reflexivity; discriminate.
Qed.

Lemma localeCompare_total {host : Host} {consistent : ConsistentCollation host}
    (a b : string) :
  localeCompare a b <= 0 \/ localeCompare b a <= 0.
Proof.
  pose proof (localeCompare_sgn a b) as E.
  destruct (localeCompare a b); destruct (localeCompare b a); simpl in E;
    try discriminate; lia.
Qed.

Example runtime_examples :
  Js.Number "" = Js.ofZ 0 /\ Js.sign (Js.sub (Js.Number "12.50") (Js.Number "1.25e1")) = 0 /\
  Js.Number "abc" = Js.NaN /\ Js.Number "0x1F" = Js.ofZ 31 /\ Js.Number "2e+2" = Js.ofZ 200 /\
  Js.Number "1a" = Js.NaN /\ Js.Number "-Infinity" = Js.Inf true /\ Js.Number "." = Js.NaN /\
  Js.sign (Js.sub (Js.Number ".5") (Js.Number "5.")) = -1 /\
  Js.split "T" "2024-01-02T10:00" = ["2024-01-02"; "10:00"] /\ Js.split "T" "" = [""] /\
  Js.toLowerCase "AbC z" = "abc z" /\ Js.includes "hello" "ell" = true /\
  Js.includes "hello" "" = true /\ Js.includes "" "a" = false /\ Js.trim "  a b " = "a b" /\
  ReferenceHost.isoDateTime "1970-01-02" = Some 86400000 /\
  ReferenceHost.isoDateTime "2024-01-02" = Some 1704153600000 /\
  ReferenceHost.isoDateTime "soon" = None /\
  Js.Object_entries [("b", 1); ("10", 2); ("a", 3); ("2", 4); ("02", 5)]
    = [("2", 4); ("10", 2); ("b", 1); ("a", 3); ("02", 5)].
Proof. vm_compute. repeat split; reflexivity. Qed.

(* ------------------------------------------------------------------ *)
(** ** The filter stage                                                 *)
(* ------------------------------------------------------------------ *)

Section FilterStage.
Import Data ReportGrid.

Lemma matchesSearch_spec (searchTerm : string) (r : Report) :
  matchesSearch searchTerm r = true <->
  searchTerm = "" \/ containsIgnoringCase (name r) searchTerm.
Proof.
  unfold matchesSearch, containsIgnoringCase.
  rewrite orb_true_iff, String.eqb_eq, includes_spec. reflexivity.
Qed.

Lemma matchesTag_spec (tagFilter : option string) (r : Report) :
  matchesTag tagFilter r = true <->
  tagUnset tagFilter \/ exists t, tagFilter = Some t /\ In t (tags r).
Proof.
  unfold matchesTag, notTag, tagUnset, truthy. destruct tagFilter as [t|]; simpl.
  - rewrite orb_true_iff, negb_involutive, String.eqb_eq, Array_includes_In. split.
    + intros [->|Ht]; [left; right; reflexivity | right; exists t; auto].
    + intros [[E|E]|[t' [E Ht]]]; try discriminate.
      * injection E as ->. left. reflexivity.
      * injection E as ->. right. exact Ht.
  - split; [intros _; left; left; reflexivity | reflexivity].
Qed.

Lemma matchesStatus_spec (statusFilter : option bool) (r : Report) :
  matchesStatus statusFilter r = true <->
  statusFilter = None \/ statusFilter = Some (isActive r).
Proof.
  unfold matchesStatus. destruct statusFilter as [b|].
  - rewrite Bool.eqb_true_iff. split.
    + intros ->. right. reflexivity.
    + intros [E|E]; [discriminate | injection E as ->; reflexivity].
  - split; [intros _; left; reflexivity | reflexivity].
Qed.

Lemma filter_ext_In_iff {A : Type} (p q : A -> bool) (l : list A) :
  (forall x, In x l -> (p x = true <-> q x = true)) -> filter p l = filter q l.
Proof.
  intros H. apply filter_ext_in. intros x Hx. specialize (H x Hx).
  destruct (p x), (q x); try reflexivity; intuition congruence.
Qed.

(** C5.  [filterReports] keeps exactly the records that satisfy the three
    predicates of the contract, in the order of the input: its result is
    the input filtered by any decision procedure [keep] for [retained],
    and a record is in the result iff it is in the input and is
    [retained].  The input is left as it is: [Array.prototype.filter]
    builds a new array, and the embedding is a function of its input. *)
Theorem C5_filterReports_retains_matching
    (reports : list Report) (searchTerm : string)
    (tagFilter : option string) (statusFilter : option bool) :
  (forall keep : Report -> bool,
      (forall r, keep r = true <-> retained searchTerm tagFilter statusFilter r) ->
      filterReports reports searchTerm tagFilter statusFilter = filter keep reports) /\
  (forall r,
      In r (filterReports reports searchTerm tagFilter statusFilter) <->
      In r reports /\ retained searchTerm tagFilter statusFilter r).
Proof.
  assert (Hspec : forall r,
    matchesSearch searchTerm r && matchesTag tagFilter r && matchesStatus statusFilter r
      = true <-> retained searchTerm tagFilter statusFilter r).
  { intros r. unfold retained.
    rewrite !andb_true_iff, matchesSearch_spec, matchesTag_spec, matchesStatus_spec.
    tauto. }
  split.
  - intros keep Hkeep. unfold filterReports. apply filter_ext_In_iff.
    intros r _. rewrite Hspec, Hkeep. reflexivity.
  - intros r. unfold filterReports. rewrite filter_In, Hspec. reflexivity.
Qed.

End FilterStage.

Example C5_spec_example :
  let r n t a :=
    {| Data.id := n; Data.name := n; Data.isActive := a; Data.data := [];
       Data.tags := t; Data.date := "2024-01-02" |} in
  ReportGrid.filterReports
    [r "Sales Q1" ["fin"] true; r "Audit" ["fin"; "ops"] false; r "resale" [] true;
     r "SALES Q2" ["ops"] true]
    "sale" (Some "ops") (Some true)
  = [r "SALES Q2" ["ops"] true] /\
  ReportGrid.filterReports
    [r "Sales Q1" ["fin"] true; r "Audit" ["fin"; "ops"] false; r "resale" [] true]
    "SALE" None None
  = [r "Sales Q1" ["fin"] true; r "resale" [] true].
Proof. vm_compute. split; reflexivity. Qed.

(* ------------------------------------------------------------------ *)
(** ** The whole pipeline under neutral controls                        *)
(* ------------------------------------------------------------------ *)

Section NeutralControls.
Import Data ReportGrid.
Context {host : Host}.

Lemma filterReports_neutral (reports : list Report) :
  filterReports reports "" None None = reports.
Proof.
  unfold filterReports. induction reports as [|r rs IH]; simpl in *.
  - reflexivity.
  - f_equal. exact IH.
Qed.

(** C3.  Under neutral controls the component renders the table whose
    body is exactly the record set it was given, every record in its
    original place. *)
Theorem C3_neutral_controls_render_input (R : list Report) :
  render (neutralControls R) = Table R.
Proof.
  unfold render, neutralControls, processedReports, sortReports, getPaginated; simpl.
  rewrite filterReports_neutral. reflexivity.
Qed.

End NeutralControls.

(* ------------------------------------------------------------------ *)
(** ** The pagination stage                                             *)
(* ------------------------------------------------------------------ *)

Section Pagination.
Import ReportGrid.

(** [Math.ceil(n / p)] is the ceiling of the quotient: the least [k]
    with [n <= k * p]. *)
Lemma Math_ceil_quotient (n p : Z) :
  0 < p ->
  let k := Js.Math_ceil (inject_Z n / inject_Z p) in
  (k - 1) * p < n <= k * p.
Proof.
  intros Hp. destruct p as [|p'|p']; try lia.
  unfold Js.Math_ceil, Qceiling, Qfloor, Qdiv, Qmult, Qinv, Qopp, inject_Z; simpl.
  rewrite Z.mul_1_r.
  pose proof (Z.mul_div_le (- n) (Z.pos p') eq_refl) as Hlo.
  pose proof (Z.mul_succ_div_gt (- n) (Z.pos p') eq_refl) as Hhi.
  lia.
Qed.

Lemma pageCount_bounds (len : nat) (p : Z) :
  0 < p ->
  (pageCount len (Size p) - 1) * p < Z.of_nat len <= pageCount len (Size p) * p.
Proof. intros Hp. apply (Math_ceil_quotient (Z.of_nat len) p Hp). Qed.

Lemma pageCount_nonneg (len : nat) (p : Z) : 0 < p -> 0 <= pageCount len (Size p).
Proof. intros Hp. pose proof (pageCount_bounds len p Hp). nia. Qed.

Lemma pageCount_shown (len : nat) (p : Z) :
  0 < p -> pagerShown len (Size p) = true -> 2 <= pageCount len (Size p).
Proof.
  intros Hp Hs. simpl in Hs. apply Z.ltb_lt in Hs.
  pose proof (pageCount_bounds len p Hp). nia.
Qed.

Lemma firstn_min_length {A : Type} (n : nat) (l : list A) :
  firstn (Nat.min n (List.length l)) l = firstn n l.
Proof.
  destruct (Nat.le_gt_cases n (List.length l)) as [H|H].
  - rewrite Nat.min_l by exact H. reflexivity.
  - rewrite Nat.min_r by lia. rewrite !firstn_all2 by lia. reflexivity.
Qed.

(** [slice] between two indices that are not negative. *)
Lemma slice_nonneg {A : Type} (xs : list A) (start count : Z) :
  0 <= start -> 0 <= count ->
  Js.slice xs start (start + count) = firstn (Z.to_nat count) (skipn (Z.to_nat start) xs).
Proof.
  intros Hs Hc. unfold Js.slice.
  destruct (start <? 0) eqn:E1; [apply Z.ltb_lt in E1; lia|].
  destruct (start + count <? 0) eqn:E2; [apply Z.ltb_lt in E2; lia|].
  set (len := Z.of_nat (List.length xs)).
  destruct (Z.le_gt_cases start len) as [H|H].
  - rewrite (Z.min_l start len) by exact H.
    rewrite <- (firstn_min_length (Z.to_nat count)).
    f_equal. rewrite length_skipn. unfold len in *. lia.
  - rewrite (Z.min_r start len) by lia. rewrite (Z.min_r (start + count) len) by lia.
    rewrite Z.sub_diag. simpl.
    rewrite (skipn_all2 xs) by (unfold len in *; lia).
    rewrite firstn_nil. reflexivity.
Qed.

Lemma getPaginated_numeric {A : Type} (xs : list A) (p page : Z) :
  0 < p -> 1 <= page ->
  getPaginated (Size p) page xs
  = firstn (Z.to_nat p) (skipn (Z.to_nat ((page - 1) * p)) xs).
Proof.
  intros Hp Hpage. unfold getPaginated, numberOr. apply slice_nonneg; nia.
Qed.

Lemma totalPages_numeric (len : nat) (p : Z) :
  totalPages len (Size p) = Z.max 1 (pageCount len (Size p)).
Proof. reflexivity. Qed.

(** C2.  For a numeric page size [p > 0] and a page number from 1 on,
    the visible slice is the [p] elements from offset [(page - 1) * p],
    clipped to the bounds of the sequence.  The page count of the
    contract, the ceiling of [count / p] and 1 at least, is the count
    that the pagination bar shows, [Math.ceil(count / p)], wherever the
    bar is rendered, which is where [count > p]; where it is not
    rendered the contract's count is 1 and page 1 holds the whole
    sequence, the empty one included, so that no state with zero pages
    arises.  For the page size [All] the whole sequence is returned,
    whatever the page number, no bar is rendered, and the contract's
    count is 1. *)
Theorem C2_paginate_slice_and_page_count {A : Type} (xs : list A) (p page : Z) :
  0 < p -> 1 <= page ->
  getPaginated (Size p) page xs
    = firstn (Z.to_nat p) (skipn (Z.to_nat ((page - 1) * p)) xs) /\
  (pagerShown (List.length xs) (Size p) = true <-> p < Z.of_nat (List.length xs)) /\
  (pagerShown (List.length xs) (Size p) = true ->
     pageCount (List.length xs) (Size p) = totalPages (List.length xs) (Size p) /\
     ((pageCount (List.length xs) (Size p) - 1) * p < Z.of_nat (List.length xs)
        <= pageCount (List.length xs) (Size p) * p)) /\
  (pagerShown (List.length xs) (Size p) = false ->
     totalPages (List.length xs) (Size p) = 1 /\
     getPaginated (Size p) 1 xs = xs) /\
  1 <= totalPages (List.length xs) (Size p) /\
  getPaginated All page xs = xs /\
  pagerShown (List.length xs) All = false /\
  totalPages (List.length xs) All = 1.
Proof.
  intros Hp Hpage.
  pose proof (pageCount_bounds (List.length xs) p Hp) as Hbounds.
  split; [apply getPaginated_numeric; assumption|].
  split; [simpl; apply Z.ltb_lt|].
  split.
  { intros Hshown. pose proof (pageCount_shown _ _ Hp Hshown) as H2.
    split; [|exact Hbounds].
    rewrite totalPages_numeric. lia. }
  split.
  { intros Hhidden. simpl in Hhidden. apply Z.ltb_ge in Hhidden.
    split.
    - rewrite totalPages_numeric. nia.
    - rewrite getPaginated_numeric by lia. simpl.
      apply firstn_all2. lia. }
  split; [rewrite totalPages_numeric; lia|].
  repeat split.
Qed.

(** The example of the specification: page size 2 over 5 rows. *)
Lemma C2_witness :
  (0 < 2 /\ 1 <= 3) /\
  getPaginated (Size 2) 3 [10; 11; 12; 13; 14]%nat = [14]%nat /\
  pageCount 5 (Size 2) = 3 /\ totalPages 5 (Size 2) = 3.
Proof.
  split; [lia|].
  pose proof (C2_paginate_slice_and_page_count [10; 11; 12; 13; 14]%nat 2 3
                ltac:(lia) ltac:(lia)) as [Hslice [_ [Hshown _]]].
  split; [rewrite Hslice; reflexivity|].
  destruct (Hshown eq_refl) as [Hcount _]. simpl List.length in Hcount.
  rewrite <- Hcount. split; reflexivity.
Defined.

Example pagination_examples :
  getPaginated (Size 2) 1 [0; 1; 2; 3; 4]%nat = [0; 1]%nat /\
  getPaginated (Size 2) 2 [0; 1; 2; 3; 4]%nat = [2; 3]%nat /\
  getPaginated (Size 2) 4 [0; 1; 2; 3; 4]%nat = [] /\
  getPaginated (Size 2) 0 [0; 1; 2; 3; 4]%nat = [] /\
  getPaginated (Size 2) (-1) [0; 1; 2; 3; 4]%nat = [1; 2]%nat /\
  pageCount 6 (Size 5) = 2 /\ pageCount 10 (Size 5) = 2 /\ pageCount 3 All = 3.
Proof. vm_compute. repeat split; reflexivity. Qed.

End Pagination.

(* ------------------------------------------------------------------ *)
(** ** The page number of the report list                               *)
(* ------------------------------------------------------------------ *)

Section GridPageNumber.
Import Data ReportGrid.
Context {host : Host}.

Lemma offered_positive (size : PageSize) : In size PAGE_SIZE_OPTIONS -> positiveSize size.
Proof.
  unfold PAGE_SIZE_OPTIONS. simpl.
  intros [<-|[<-|[<-|[<-|[<-|[]]]]]]; simpl; lia.
Qed.

Lemma gridPagerButton_cases (disabled : bool) (onClick : GridState -> GridState)
    (st : GridState) :
  (gridPagerButton disabled onClick st = onClick st /\
   groupByDate st = false /\
   pagerShown (List.length (reports st)) (gridPageSize st) = true /\ disabled = false) \/
  gridPagerButton disabled onClick st = st.
Proof.
  unfold gridPagerButton.
  destruct (groupByDate st); simpl; auto.
  destruct (pagerShown _ _); simpl; auto.
  destruct disabled; simpl; auto.
Qed.

Lemma gridStep_unfiltered_range (st : GridState) (ev : GridEvent) :
  offeredSize ev ->
  positiveSize (gridPageSize st) /\ pageInUnfilteredRange st ->
  positiveSize (gridPageSize (gridStep st ev)) /\ pageInUnfilteredRange (gridStep st ev).
Proof.
  intros Hev [Hsize Hin]. unfold pageInUnfilteredRange, gridPageCount in *.
  assert (Hshown : pagerShown (List.length (reports st)) (gridPageSize st) = true ->
                   2 <= pageCount (List.length (reports st)) (gridPageSize st)).
  { destruct (gridPageSize st) as [p|] eqn:E; [|discriminate].
    apply pageCount_shown. exact Hsize. }
  destruct ev; simpl; auto.
  - destruct (gridPagerButton_cases (gridCurrentPage st =? 1) (setGridCurrentPage 1) st)
      as [[-> [_ [Hs _]]]| ->]; simpl; auto.
    specialize (Hshown Hs). split; [assumption|lia].
  - destruct (gridPagerButton_cases (gridCurrentPage st =? 1)
                (fun st => setGridCurrentPage (Z.max (gridCurrentPage st - 1) 1) st) st)
      as [[-> [_ [Hs _]]]| ->]; simpl; auto.
    split; [assumption|lia].
  - destruct (gridPagerButton_cases (gridCurrentPage st =? gridPageCount st)
                (fun st => setGridCurrentPage (gridCurrentPage st + 1) st) st)
      as [[-> [_ [Hs Hd]]]| ->]; simpl; auto.
    specialize (Hshown Hs). apply Z.eqb_neq in Hd. unfold gridPageCount in Hd.
    split; [assumption|lia].
  - destruct (gridPagerButton_cases (gridCurrentPage st =? gridPageCount st)
                (setGridCurrentPage (gridPageCount st)) st)
      as [[-> [_ [Hs Hd]]]| ->]; simpl; auto.
    specialize (Hshown Hs). unfold gridPageCount.
    split; [assumption|lia].
  - unfold tableControl. destruct (groupByDate st); simpl; auto.
    split; [apply offered_positive; exact Hev | lia].
  - unfold tableControl. destruct (groupByDate st); simpl; auto.
Qed.

(** Over the unfiltered reports the page number stays in range, whatever
    the user does. *)
Lemma gridRun_unfiltered_range (evs : list GridEvent) (st : GridState) :
  Forall offeredSize evs ->
  positiveSize (gridPageSize st) /\ pageInUnfilteredRange st ->
  pageInUnfilteredRange (gridRun st evs).
Proof.
  unfold gridRun. revert st. induction evs as [|ev evs IH]; intros st Hevs Hst; simpl.
  - apply Hst.
  - inversion Hevs; subst. apply IH; [assumption|].
    apply gridStep_unfiltered_range; assumption.
Qed.

(** C1, evaluated.  Six reports in the table view with five rows per
    page: [Next] leads to page 2 of 2; typing a search term that one
    report matches leaves the page number at 2, although the filtered
    result has a single page, and the table body is empty.  The same
    state is reached when the term is typed first: the bar still counts
    the pages of the unfiltered reports and [Next] is enabled. *)
Theorem C1_page_number_leaves_filtered_range :
  let start := gridRun (initialGrid sixReports) [ClickGrouping; SelectPageSize (Size 5)] in
  let st := gridRun start [ClickNext; TypeSearch "6"] in
  let st' := gridRun start [TypeSearch "6"; ClickNext] in
  pageInFilteredRange start /\
  gridCurrentPage st = 2 /\
  processedReports st = [sampleReport "6"] /\
  filteredPageCount st = 1 /\
  ~ pageInFilteredRange st /\
  render st = Table [] /\
  st' = st.
Proof.
  cbv zeta.
  assert (E1 : gridCurrentPage
                 (gridRun (gridRun (initialGrid sixReports)
                                   [ClickGrouping; SelectPageSize (Size 5)])
                          [ClickNext; TypeSearch "6"]) = 2) by reflexivity.
  assert (E2 : filteredPageCount
                 (gridRun (gridRun (initialGrid sixReports)
                                   [ClickGrouping; SelectPageSize (Size 5)])
                          [ClickNext; TypeSearch "6"]) = 1) by reflexivity.
  assert (E3 : gridCurrentPage
                 (gridRun (initialGrid sixReports)
                          [ClickGrouping; SelectPageSize (Size 5)]) = 1) by reflexivity.
  assert (E4 : filteredPageCount
                 (gridRun (initialGrid sixReports)
                          [ClickGrouping; SelectPageSize (Size 5)]) = 2) by reflexivity.
  unfold pageInFilteredRange. rewrite E1, E2, E3, E4.
  repeat split; try reflexivity; lia.
Qed.

End GridPageNumber.

(* ------------------------------------------------------------------ *)
(** ** Toggling a report when the store cannot be written               *)
(* ------------------------------------------------------------------ *)

Section ToggleActive.
Import Js Data ReportGrid.

(** [toggleReportStatus] never throws: a failed read or write is caught
    inside it, logged, and turned into the result [false]. *)
Lemma toggleReportStatus_returns (reportId : string) (status : bool) (w : World) :
  exists b w', toggleReportStatus reportId status w = (Return b, w').
Proof.
  unfold toggleReportStatus, try_catch, bind, readStructure, writeStructure,
    console_error, ret.
  destruct (structure (disk w)); [destruct (writable (disk w))|]; eauto.
Qed.

Lemma toggleReportStatus_write_fails (reportId : string) (status : bool) (w : World)
    (folders : list Folder) :
  structure (disk w) = Some folders -> writable (disk w) = false ->
  toggleReportStatus reportId status w
  = (Return false,
     {| disk := disk w; reachable := reachable w;
        console := console w ++ ["Error toggling report status: EACCES: structure.json"] |}).
Proof.
  intros Hs Hw.
  unfold toggleReportStatus, try_catch, bind, readStructure, writeStructure,
    console_error, ret.
  rewrite Hs, Hw. reflexivity.
Qed.

(** Whenever the call reaches the server, the handler applies the toggle
    to the reports in memory, whether the write succeeded or not: the
    result of [toggleReportStatus] is not looked at. *)
Lemma handleToggleActive_reached (reportId : string) (currentStatus : bool)
    (reports : list Report) (w : World) :
  reachable w = true ->
  fst (handleToggleActive reportId currentStatus reports w)
  = Return (toggled reportId reports).
Proof.
  intros Hr. unfold handleToggleActive, try_catch, bind, serverAction, ret. rewrite Hr.
  destruct (toggleReportStatus_returns reportId (negb currentStatus) w) as [b [w' ->]].
  reflexivity.
Qed.

(** The only failure that leaves the reports as they were is the one the
    handler itself catches: the call not reaching the server. *)
Lemma handleToggleActive_unreachable (reportId : string) (currentStatus : bool)
    (reports : list Report) (w : World) :
  reachable w = false ->
  handleToggleActive reportId currentStatus reports w
  = (Return reports,
     {| disk := disk w; reachable := reachable w;
        console := console w ++ ["Error updating status: fetch failed"] |}).
Proof.
  intros Hr. destruct w as [d r c]. simpl in Hr. subst r. reflexivity.
Qed.

(** C4, evaluated.  The file cannot be written.  Toggling report 1 leaves
    the file as it was and logs the failure inside [toggleReportStatus],
    and the handler nevertheless turns the report inactive in memory; its
    own [catch] does not run. *)
Theorem C4_failed_write_still_toggles_in_memory :
  let reports := [sampleReport "1"; sampleReport "2"] in
  handleToggleActive "1" true reports readOnlyWorld
  = (Return [setActive false (sampleReport "1"); sampleReport "2"],
     {| disk := disk readOnlyWorld; reachable := true;
        console := ["Error toggling report status: EACCES: structure.json"] |}) /\
  isActive (sampleReport "1") = true /\
  fst (handleToggleActive "1" true reports readOnlyWorld) <> Return reports.
Proof.
  cbv zeta. split; [reflexivity | split; [reflexivity|]].
  vm_compute. intros E. discriminate E.
Qed.

End ToggleActive.

(* ------------------------------------------------------------------ *)
(** ** The sort toggles                                                 *)
(* ------------------------------------------------------------------ *)

Section SortToggle.
Import Js Data ReportGrid.
Context {host : Host}.


Lemma sortReports_neutral (rs : list Report) (s : SortState) :
  neutral s -> sortReports rs s = rs.
Proof.
  unfold neutral, sortReports. intros [->| ->]; [reflexivity|].
  destruct (field s); reflexivity.
Qed.







End SortToggle.

(* ------------------------------------------------------------------ *)
(** ** Rounding to binary64                                             *)
(* ------------------------------------------------------------------ *)

Section Rounding.
Import Js.

Lemma sgn_Qnum_Qeq (p q : Q) : (p == q)%Q -> Z.sgn (Qnum p) = Z.sgn (Qnum q).
Proof.
  unfold Qeq. destruct p as [a b], q as [c d]. cbn [Qnum Qden]. intros H.
  destruct a, c; simpl; try reflexivity; lia.
Qed.

Lemma sgn_Qnum_pos (q : Q) : (0 < q)%Q <-> Z.sgn (Qnum q) = 1.
Proof.
  unfold Qlt. destruct q as [a b]. cbn [Qnum Qden]. destruct a; simpl; split; intros; lia.
Qed.

Lemma pow2_pos (u : Z) : (0 < 2 ^ u)%Q.
Proof. apply Qpower_0_lt. reflexivity. Qed.

Lemma pow2_mono (a b : Z) : a <= b -> (2 ^ a <= 2 ^ b)%Q.
Proof. intros H. apply Qpower_le_compat_l; [exact H | discriminate]. Qed.

Lemma pow2_Z (k : Z) : 0 <= k -> (2 ^ k == inject_Z (2 ^ k))%Q.
Proof. intros H. symmetry. apply (Zpower_Qpower 2 k H). Qed.

(** [exponent q] is not above the binary exponent of [q]. *)
Lemma exponent_le (q : Q) : (0 < q)%Q -> (2 ^ exponent q <= q)%Q.
Proof.
  intros Hq. unfold exponent.
  destruct (Qle_bool (2 ^ (Z.log2 (Qnum q) - Z.log2 (QDen q))) q) eqn:E.
  - apply Qle_bool_iff. exact E.
  - clear E. destruct q as [n d]. unfold Qlt in Hq. cbn [Qnum Qden] in *.
    rewrite Z.mul_1_r in Hq. simpl in Hq.
    set (a := Z.log2 n). set (b := Z.log2 (Z.pos d)).
    assert (Ha : 2 ^ a <= n) by (apply Z.log2_spec; exact Hq).
    assert (Hb : Z.pos d < 2 ^ (b + 1)).
    { replace (b + 1) with (Z.succ b) by lia. apply Z.log2_spec. reflexivity. }
    assert (Ha0 : 0 <= a) by apply Z.log2_nonneg.
    assert (Hb0 : 0 <= b) by apply Z.log2_nonneg.
    replace (a - b - 1) with (a + - (b + 1)) by lia.
    rewrite Qpower_plus by discriminate. rewrite Qpower_opp.
    rewrite (pow2_Z a Ha0), (pow2_Z (b + 1)) by lia.
    assert (Hp : 0 < 2 ^ (b + 1)) by (apply Z.pow_pos_nonneg; lia).
    apply Qle_shift_div_r.
    + unfold Qlt. simpl. lia.
    + unfold Qle, Qmult, inject_Z. cbn [Qnum Qden]. rewrite !Z.mul_1_r.
      rewrite Pos.mul_1_r.
      apply Z.le_trans with (n * Z.pos d); [|nia].
      apply Z.mul_le_mono_nonneg; lia.
Qed.

Lemma roundHalfEven_floor (q : Q) : Qfloor q <= roundHalfEven q.
Proof.
  unfold roundHalfEven.
  destruct (q - inject_Z (Qfloor q) ?= 1 # 2)%Q; [destruct (Z.even (Qfloor q))| |]; lia.
Qed.

Lemma roundHalfEven_pos (q : Q) : (1 <= q)%Q -> 1 <= roundHalfEven q.
Proof.
  intros H. apply Z.le_trans with (Qfloor q); [|apply roundHalfEven_floor].
  change 1 with (Qfloor 1). apply Qfloor_resp_le. exact H.
Qed.

(** A positive value that is not below the least subnormal does not
    round to 0. *)
Lemma sign_roundPositive (q : Q) :
  (0 < q)%Q -> (2 ^ (-1074) <= q)%Q -> sign (roundPositive q) = 1.
Proof.
  intros Hq Hmin. unfold roundPositive.
  set (u := Z.max (exponent q - 52) (-1074)).
  set (m := roundHalfEven (q / 2 ^ u)).
  assert (Hu : (2 ^ u <= q)%Q).
  { unfold u. destruct (Z.max_spec (exponent q - 52) (-1074)) as [[_ ->]|[_ ->]].
    - exact Hmin.
    - apply Qle_trans with (2 ^ exponent q)%Q; [apply pow2_mono; lia|].
      apply exponent_le. exact Hq. }
  assert (Hm : 1 <= m).
  { apply roundHalfEven_pos. apply Qle_shift_div_l; [apply pow2_pos|].
    rewrite Qmult_1_l. exact Hu. }
  destruct (Qle_bool _ _); [reflexivity|].
  cbn [sign]. rewrite (sgn_Qnum_Qeq _ _ (Qred_correct _)).
  apply sgn_Qnum_pos. apply Qmult_lt_0_compat; [|apply pow2_pos].
  unfold Qlt. simpl. lia.
Qed.

Lemma sign_negate (x : number) : sign (negate x) = - sign x.
Proof.
  destruct x as [|[]|[n d]]; try reflexivity. simpl. destruct n; reflexivity.
Qed.

Lemma onGrid_min (q : Q) : onGrid q -> (0 < q)%Q -> (2 ^ (-1074) <= q)%Q.
Proof.
  intros [k Hk] Hq. rewrite Hk in *.
  assert (Hk1 : 1 <= k).
  { destruct (Z.le_gt_cases k 0) as [H|H]; [|lia]. exfalso.
    apply (Qlt_not_le _ _ Hq).
    setoid_replace 0%Q with (0 * 2 ^ (-1074))%Q by ring.
    apply Qmult_le_compat_r; [|apply Qlt_le_weak, pow2_pos].
    unfold Qle. simpl. lia. }
  setoid_replace (2 ^ (-1074))%Q with (1 * 2 ^ (-1074))%Q at 1 by ring.
  apply Qmult_le_compat_r; [|apply Qlt_le_weak, pow2_pos].
  unfold Qle. simpl. lia.
Qed.

Lemma onGrid_opp (q : Q) : onGrid q -> onGrid (- q).
Proof. intros [k Hk]. exists (- k). rewrite Hk, inject_Z_opp. ring. Qed.

Lemma onGrid_minus (x y : Q) : onGrid x -> onGrid y -> onGrid (x - y).
Proof.
  intros [k Hk] [j Hj]. exists (k - j). rewrite Hk, Hj.
  unfold Z.sub. rewrite inject_Z_plus, inject_Z_opp. ring.
Qed.

Lemma onGrid_scaled (m u : Z) : -1074 <= u -> onGrid (inject_Z m * 2 ^ u).
Proof.
  intros Hu. exists (m * 2 ^ (u + 1074)).
  rewrite inject_Z_mult, <- pow2_Z by lia.
  rewrite <- Qmult_assoc, <- Qpower_plus by discriminate.
  replace (u + 1074 + -1074) with u by lia. reflexivity.
Qed.

Lemma onGrid_Z (z : Z) : onGrid (inject_Z z).
Proof.
  destruct (onGrid_scaled z 0 ltac:(lia)) as [k Hk]. exists k. rewrite <- Hk.
  change (2 ^ 0)%Q with 1%Q. ring.
Qed.

Lemma onGrid_Qeq (p q : Q) : (p == q)%Q -> onGrid p -> onGrid q.
Proof. intros E [k Hk]. exists k. rewrite <- E. exact Hk. Qed.

(** On the grid, where the differences of two binary64 values and of two
    integers lie, rounding keeps the sign. *)
Lemma sign_round64 (q : Q) : onGrid q -> sign (round64 q) = Z.sgn (Qnum q).
Proof.
  intros Hg. unfold round64. destruct (Qnum q) as [|n|n] eqn:E.
  - reflexivity.
  - assert (Hq : (0 < q)%Q) by (apply sgn_Qnum_pos; rewrite E; reflexivity).
    apply sign_roundPositive; [exact Hq | apply onGrid_min; assumption].
  - assert (Hq : (0 < - q)%Q).
    { apply sgn_Qnum_pos. destruct q as [a b]. simpl in *. subst a. reflexivity. }
    rewrite sign_negate, sign_roundPositive; [reflexivity | exact Hq |].
    apply onGrid_min; [apply onGrid_opp; exact Hg | exact Hq].
Qed.

(** What rounding returns lies on the grid. *)
Lemma roundPositive_onGrid (q r : Q) : roundPositive q = Fin r -> onGrid r.
Proof.
  unfold roundPositive.
  set (v := (inject_Z _ * _)%Q). destruct (Qle_bool _ v); [discriminate|].
  intros [= <-]. apply (onGrid_Qeq v (Qred v)); [symmetry; apply Qred_correct|].
  apply onGrid_scaled. lia.
Qed.

Lemma round64_isDouble (q : Q) : isDouble (round64 q).
Proof.
  unfold round64. destruct (Qnum q).
  - apply (onGrid_Z 0).
  - destruct (roundPositive q) as [| |r] eqn:E; try exact I.
    apply (roundPositive_onGrid _ _ E).
  - destruct (roundPositive (- q)) as [| |r] eqn:E; try exact I.
    apply onGrid_opp, (roundPositive_onGrid _ _ E).
Qed.

Lemma negate_isDouble (x : number) : isDouble x -> isDouble (negate x).
Proof. destruct x; simpl; auto using onGrid_opp. Qed.

Lemma parseDecimal_isDouble (s : string) : isDouble (parseDecimal s).
Proof.
  unfold parseDecimal. destruct (String.eqb s "Infinity"); [exact I|].
  destruct (parseUnsignedDecimal s); [apply round64_isDouble | exact I].
Qed.

Lemma parseInteger_isDouble (base : Z) (s : string) : isDouble (parseInteger base s).
Proof.
  unfold parseInteger. destruct (parseDigits base s); [apply round64_isDouble | exact I].
Qed.

(** [Number(s)] lies on the grid, whatever the string. *)
Lemma Number_isDouble (s : string) : isDouble (Number s).
Proof.
  unfold Number. destruct (trim s) as [|c r]; [apply (onGrid_Z 0)|].
  repeat match goal with
         | |- isDouble (match ?x with _ => _ end) => destruct x
         end;
    auto using parseDecimal_isDouble, parseInteger_isDouble, negate_isDouble.
Qed.

Lemma sgn_compare (a b : Z) :
  Z.sgn (a + - b) = match a ?= b with Lt => -1 | Eq => 0 | Gt => 1 end.
Proof. destruct (Z.compare_spec a b); lia. Qed.

(** The sign of a difference is the numeric order of its operands. *)
Lemma sign_sub (x y : number) :
  isDouble x -> isDouble y -> sign (sub x y) = numberCompare x y.
Proof.
  destruct x as [|s|p], y as [|t|q]; try reflexivity.
  - destruct s, t; reflexivity.
  - destruct t; reflexivity.
  - intros Hp Hq. cbn [sub numberCompare isDouble] in *.
    rewrite sign_round64 by (apply onGrid_minus; assumption).
    unfold Qminus, Qplus, Qopp, Qcompare. cbn [Qnum Qden].
    rewrite Z.mul_opp_l. apply sgn_compare.
Qed.

Lemma sign_ofZ (z : Z) : sign (ofZ z) = Z.sgn z.
Proof. reflexivity. Qed.

Lemma notAfter_ofZ (z : Z) : notAfter (ofZ z) = true <-> z <= 0.
Proof.
  unfold notAfter. rewrite sign_ofZ, Z.leb_le. destruct z; simpl; lia.
Qed.

Lemma notAfter_sub_ofZ (a b : Z) :
  notAfter (sub (ofZ a) (ofZ b)) = true <-> a <= b.
Proof.
  unfold notAfter. rewrite sign_sub by apply onGrid_Z.
  unfold ofZ, numberCompare, Qcompare, inject_Z. cbn [Qnum Qden].
  rewrite Z.leb_le, !Z.mul_1_r. destruct (Z.compare_spec a b); lia.
Qed.

Lemma exponent_gt (q : Q) : (0 < q)%Q -> (q < 2 ^ (exponent q + 1))%Q.
Proof.
  intros Hq. unfold exponent.
  destruct (Qle_bool (2 ^ (Z.log2 (Qnum q) - Z.log2 (QDen q))) q) eqn:E.
  - clear E. destruct q as [n d]. unfold Qlt in Hq. cbn [Qnum Qden] in *.
    rewrite Z.mul_1_r in Hq. simpl in Hq.
    set (a := Z.log2 n). set (b := Z.log2 (Z.pos d)).
    assert (Ha : n < 2 ^ (a + 1)).
    { replace (a + 1) with (Z.succ a) by lia. apply Z.log2_spec. exact Hq. }
    assert (Hb : 2 ^ b <= Z.pos d) by (apply Z.log2_spec; reflexivity).
    assert (Ha0 : 0 <= a) by apply Z.log2_nonneg.
    assert (Hb0 : 0 <= b) by apply Z.log2_nonneg.
    replace (a - b + 1) with ((a + 1) + - b) by lia.
    rewrite Qpower_plus by discriminate. rewrite Qpower_opp.
    rewrite (pow2_Z (a + 1)), (pow2_Z b) by lia.
    assert (Hp : 0 < 2 ^ b) by (apply Z.pow_pos_nonneg; lia).
    apply Qlt_shift_div_l.
    + unfold Qlt. simpl. lia.
    + unfold Qlt, Qmult, inject_Z. cbn [Qnum Qden]. rewrite !Z.mul_1_r, Pos.mul_1_r.
      apply Z.le_lt_trans with (n * Z.pos d); [apply Z.mul_le_mono_nonneg_l; lia|].
      apply Z.mul_lt_mono_pos_r; lia.
  - replace (Z.log2 (Qnum q) - Z.log2 (QDen q) - 1 + 1)
      with (Z.log2 (Qnum q) - Z.log2 (QDen q)) by lia.
    apply Qnot_le_lt. intros H. apply Qle_bool_iff in H. congruence.
Qed.

Lemma exponent_ge (q : Q) (k : Z) : (0 < q)%Q -> (2 ^ k <= q)%Q -> k <= exponent q.
Proof.
  intros Hq Hk. pose proof (exponent_gt q Hq) as H.
  assert (L : (2 ^ k < 2 ^ (exponent q + 1))%Q) by (eapply Qle_lt_trans; eassumption).
  apply Qpower_lt_compat_l_inv in L; [lia | reflexivity].
Qed.

Lemma exponent_lt (q : Q) (k : Z) : (0 < q)%Q -> (q < 2 ^ k)%Q -> exponent q < k.
Proof.
  intros Hq Hk. pose proof (exponent_le q Hq) as H.
  assert (L : (2 ^ exponent q < 2 ^ k)%Q) by (eapply Qle_lt_trans; eassumption).
  apply Qpower_lt_compat_l_inv in L; [lia | reflexivity].
Qed.

Lemma roundHalfEven_error (x : Q) :
  (- (1 # 2) <= inject_Z (roundHalfEven x) - x <= 1 # 2)%Q.
Proof.
  pose proof (Qfloor_le x) as Hlo. pose proof (Qlt_floor x) as Hhi.
  rewrite inject_Z_plus in Hhi. change (inject_Z 1) with 1%Q in Hhi.
  unfold roundHalfEven.
  destruct (x - inject_Z (Qfloor x) ?= 1 # 2)%Q eqn:E.
  - apply Qeq_alt in E. destruct (Z.even (Qfloor x)).
    + split; lra.
    + rewrite inject_Z_plus. change (inject_Z 1) with 1%Q. split; lra.
  - apply Qlt_alt in E. split; lra.
  - apply Qgt_alt in E. rewrite inject_Z_plus. change (inject_Z 1) with 1%Q. split; lra.
Qed.

Lemma roundHalfEven_Z (z : Z) (x : Q) : (x == inject_Z z)%Q -> roundHalfEven x = z.
Proof.
  intros E. pose proof (roundHalfEven_error x) as [H1 H2].
  set (m := roundHalfEven x) in *.
  assert (B : (- (1 # 2) <= inject_Z (m - z) <= 1 # 2)%Q).
  { unfold Z.sub. rewrite inject_Z_plus, inject_Z_opp. split; lra. }
  destruct B as [B1 B2]. unfold Qle in B1, B2. simpl in B1, B2. lia.
Qed.

(** A value in the range of the normal numbers is rounded with a
    relative error of at most [2^-53], and does not overflow. *)
Lemma roundPositive_error (q : Q) :
  (2 ^ (-1022) <= q)%Q -> (q < 2 ^ 1023)%Q ->
  exists v, roundPositive q = Fin v /\
            (- (q * 2 ^ (-53)) <= v - q <= q * 2 ^ (-53))%Q.
Proof.
  intros Hlo Hhi.
  assert (Hq : (0 < q)%Q) by (eapply Qlt_le_trans; [apply (pow2_pos (-1022)) | exact Hlo]).
  pose proof (exponent_ge q (-1022) Hq Hlo) as He.
  pose proof (exponent_le q Hq) as Hle.
  unfold roundPositive.
  replace (Z.max (exponent q - 52) (-1074)) with (exponent q - 52) by lia.
  set (u := exponent q - 52).
  set (m := roundHalfEven (q / 2 ^ u)).
  pose proof (roundHalfEven_error (q / 2 ^ u)) as Herr. fold m in Herr.
  pose proof (pow2_pos u) as Hu.
  assert (Ehalf : (2 ^ u * (1 # 2) == 2 ^ exponent q * 2 ^ (-53))%Q).
  { rewrite <- Qpower_plus by discriminate.
    replace (exponent q + -53) with (u + -1) by (unfold u; lia).
    rewrite Qpower_plus by discriminate. reflexivity. }
  assert (Hv : (- (q * 2 ^ (-53)) <= inject_Z m * 2 ^ u - q <= q * 2 ^ (-53))%Q).
  { assert (Eq : (inject_Z m * 2 ^ u - q == (inject_Z m - q / 2 ^ u) * 2 ^ u)%Q).
    { field. apply Qnot_eq_sym, Qlt_not_eq, Hu. }
    assert (Hb : (2 ^ u * (1 # 2) <= q * 2 ^ (-53))%Q).
    { rewrite Ehalf. apply Qmult_le_compat_r; [exact Hle|].
      apply Qlt_le_weak, pow2_pos. }
    rewrite Eq. destruct Herr as [H1 H2].
    split.
    - apply Qle_trans with (- (1 # 2) * 2 ^ u)%Q; [lra|].
      apply Qmult_le_compat_r; [exact H1 | lra].
    - apply Qle_trans with ((1 # 2) * 2 ^ u)%Q; [|lra].
      apply Qmult_le_compat_r; [exact H2 | lra]. }
  assert (Hno : Qle_bool (2 ^ 1024) (inject_Z m * 2 ^ u) = false).
  { apply not_true_is_false. intros H. apply Qle_bool_iff in H.
    assert (H53 : (2 ^ (-53) <= 1)%Q) by (apply (pow2_mono (-53) 0); lia).
    assert (E1024 : (2 ^ 1024 == 2 * 2 ^ 1023)%Q).
    { change 1024 with (1 + 1023). rewrite Qpower_plus by discriminate. reflexivity. }
    rewrite E1024 in H.
    assert (q * 2 ^ (-53) <= q)%Q.
    { setoid_replace q with (q * 1)%Q at 2 by ring.
      rewrite !(Qmult_comm q). apply Qmult_le_compat_r; lra. }
    lra. }
  rewrite Hno. exists (Qred (inject_Z m * 2 ^ u)). split; [reflexivity|].
  rewrite (Qred_correct (inject_Z m * 2 ^ u)). exact Hv.
Qed.


Lemma Qceiling_unique (v : Q) (k : Z) :
  (inject_Z (k - 1) < v)%Q -> (v <= inject_Z k)%Q -> Qceiling v = k.
Proof.
  intros Hlo Hhi.
  assert (H1 : Qceiling v <= k).
  { rewrite <- (Qceiling_Z k). apply Qceiling_resp_le. exact Hhi. }
  assert (H2 : k - 1 < Qceiling v).
  { rewrite Zlt_Qlt. eapply Qlt_le_trans; [exact Hlo | apply Qle_ceiling]. }
  lia.
Qed.

(** An integer below [2^53] is a binary64 value. *)
Lemma roundPositive_Z (q : Q) (k : Z) :
  0 < k < 2 ^ 53 -> (q == inject_Z k)%Q ->
  exists v, roundPositive q = Fin v /\ (v == inject_Z k)%Q.
Proof.
  intros Hk E.
  assert (H1 : (1 <= q)%Q).
  { rewrite E. change 1%Q with (inject_Z 1). rewrite <- Zle_Qle. lia. }
  assert (H53 : (q < 2 ^ 53)%Q).
  { rewrite E, (pow2_Z 53) by lia. rewrite <- Zlt_Qlt. lia. }
  assert (Hq : (0 < q)%Q) by lra.
  destruct (roundPositive_error q) as [v [Ev _]].
  { apply Qle_trans with 1%Q; [apply (pow2_mono (-1022) 0); lia | exact H1]. }
  { eapply Qlt_le_trans; [exact H53 | apply pow2_mono; lia]. }
  exists v. split; [exact Ev|].
  pose proof (exponent_ge q 0 Hq H1) as He0.
  pose proof (exponent_lt q 53 Hq H53) as He53.
  unfold roundPositive in Ev.
  replace (Z.max (exponent q - 52) (-1074)) with (exponent q - 52) in Ev by lia.
  set (u := exponent q - 52) in *.
  assert (Epow : (2 ^ u == / inject_Z (2 ^ (- u)))%Q).
  { replace u with (- - u) at 1 by lia. rewrite Qpower_opp, pow2_Z by lia. reflexivity. }
  assert (Hp : 0 < 2 ^ (- u)) by (apply Z.pow_pos_nonneg; lia).
  assert (Hnz : ~ (inject_Z (2 ^ (- u)) == 0)%Q).
  { apply Qnot_eq_sym, Qlt_not_eq. rewrite (Zlt_Qlt 0) in Hp. exact Hp. }
  assert (Em : roundHalfEven (q / 2 ^ u) = k * 2 ^ (- u)).
  { apply roundHalfEven_Z. rewrite inject_Z_mult, E, Epow. field. exact Hnz. }
  rewrite Em in Ev. set (w := (inject_Z (k * 2 ^ (- u)) * 2 ^ u)%Q) in Ev.
  destruct (Qle_bool _ w); [discriminate|].
  assert (Hv : v = Qred w) by congruence. rewrite Hv.
  apply Qeq_trans with w; [apply Qred_correct|].
  unfold w. rewrite inject_Z_mult, Epow. field. exact Hnz.
Qed.

(** [Math.ceil(n / p)]: the ceiling of the binary64 quotient is the
    ceiling of the exact quotient, for a length and a page size below
    [2^53]. *)
Lemma ceiling_of_rounded_quotient (n p : Z) :
  0 <= n < 2 ^ 53 -> 0 < p < 2 ^ 53 ->
  exists v, round64 (inject_Z n / inject_Z p) = Fin v /\
            Qceiling v = Qceiling (inject_Z n / inject_Z p).
Proof.
  intros Hn Hp. destruct p as [|p|p]; try lia. destruct n as [|n|n]; try lia.
  - exists 0%Q. split; reflexivity.
  - set (q := (inject_Z (Z.pos n) / inject_Z (Z.pos p))%Q).
    assert (Er : round64 q = roundPositive q) by reflexivity. rewrite Er.
    set (k := Qceiling q).
    pose proof (Qle_ceiling q) as Hk1. pose proof (Qceiling_lt q) as Hk2. fold k in Hk1, Hk2.
    assert (HP : (0 < inject_Z (Z.pos p))%Q) by reflexivity.
    assert (EP : (q * inject_Z (Z.pos p) == inject_Z (Z.pos n))%Q).
    { unfold q. field. discriminate. }
    assert (Hnk : Z.pos n <= k * Z.pos p).
    { rewrite Zle_Qle, inject_Z_mult, <- EP. apply Qmult_le_compat_r; [exact Hk1 | lra]. }
    assert (Hkn : (k - 1) * Z.pos p < Z.pos n).
    { rewrite Zlt_Qlt, inject_Z_mult, <- EP. apply Qmult_lt_compat_r; [exact HP | exact Hk2]. }
    assert (Hkpos : 0 < k) by nia.
    destruct (Z.eq_dec (Z.pos n) (k * Z.pos p)) as [Eexact|Hinexact].
    + assert (Eq : (q == inject_Z k)%Q).
      { apply (Qmult_inj_r _ _ (inject_Z (Z.pos p))); [discriminate|].
        rewrite EP, Eexact, inject_Z_mult. reflexivity. }
      destruct (roundPositive_Z q k) as [v [Ev Evk]]; [nia | exact Eq |].
      exists v. split; [exact Ev|]. rewrite Evk, Qceiling_Z. reflexivity.
    + destruct (roundPositive_error q) as [v [Ev [Hlo Hhi]]].
      { apply Qle_trans with (2 ^ (-53))%Q; [apply pow2_mono; lia|].
        apply (Qmult_le_r _ _ (inject_Z (Z.pos p))); [exact HP|]. rewrite EP.
        apply Qle_trans with 1%Q.
        - apply Qle_trans with (2 ^ (-53) * 2 ^ 53)%Q; [|vm_compute; discriminate].
          apply Qmult_le_compat_nonneg.
          + split; [apply Qlt_le_weak, pow2_pos | apply Qle_refl].
          + split; [lra|]. rewrite pow2_Z by lia. rewrite <- Zle_Qle. lia.
        - change 1%Q with (inject_Z 1). rewrite <- Zle_Qle. lia. }
      { apply Qle_lt_trans with (inject_Z (Z.pos n)).
        - rewrite <- EP. setoid_replace q with (q * 1)%Q at 1 by ring.
          apply Qmult_le_compat_nonneg; [split; [|apply Qle_refl] | split; [lra|]].
          + apply Qlt_le_weak. unfold q. reflexivity.
          + change 1%Q with (inject_Z 1). rewrite <- Zle_Qle. lia.
        - rewrite pow2_Z by lia. rewrite <- Zlt_Qlt.
          apply Z.lt_le_trans with (2 ^ 53); [lia|]. apply Z.pow_le_mono_r; lia. }
      exists v. split; [exact Ev|].
      set (P := inject_Z (Z.pos p)) in *. set (N := inject_Z (Z.pos n)) in *.
      set (c := (2 ^ (-53))%Q) in *.
      assert (Hc : (N * c < 1)%Q).
      { apply Qlt_le_trans with (inject_Z (2 ^ 53) * c)%Q; [|vm_compute; discriminate].
        apply Qmult_lt_compat_r; [apply pow2_pos|]. unfold N. rewrite <- Zlt_Qlt. lia. }
      assert (Elo : ((q - q * c) * P == N - N * c)%Q).
      { rewrite <- EP. ring. }
      assert (Ehi : ((q + q * c) * P == N + N * c)%Q).
      { rewrite <- EP. ring. }
      assert (Hvlo : ((q - q * c) * P <= v * P)%Q).
      { apply Qmult_le_compat_r; lra. }
      assert (Hvhi : (v * P <= (q + q * c) * P)%Q).
      { apply Qmult_le_compat_r; lra. }
      assert (Dlo : (inject_Z (k - 1) * P + 1 <= N)%Q).
      { unfold P, N. change 1%Q with (inject_Z 1).
        rewrite <- inject_Z_mult, <- inject_Z_plus, <- Zle_Qle. lia. }
      assert (Dhi : (N + 1 <= inject_Z k * P)%Q).
      { unfold P, N. change 1%Q with (inject_Z 1).
        rewrite <- inject_Z_mult, <- inject_Z_plus, <- Zle_Qle. lia. }
      apply Qceiling_unique.
      * apply (Qmult_lt_r _ _ P); [exact HP|]. lra.
      * apply Qlt_le_weak. apply (Qmult_lt_r _ _ P); [exact HP|]. lra.
Qed.

(** The page count, which [pageCount] takes on the exact quotient, is
    what [Math.ceil] returns on the binary64 quotient. *)
Lemma pageCount_rounded (len : nat) (p : Z) :
  Z.of_nat len < 2 ^ 53 -> 0 < p < 2 ^ 53 ->
  exists v, round64 (inject_Z (Z.of_nat len) / inject_Z p) = Fin v /\
            Math_ceil v = ReportGrid.pageCount len (ReportGrid.Size p).
Proof.
  intros Hlen Hp. apply ceiling_of_rounded_quotient; lia.
Qed.

(** Decimal literals that binary64 rounds, that overflow and that
    underflow, and two cells that are one value. *)
Example rounding_examples :
  Number "9007199254740993" = ofZ 9007199254740992 /\
  Number "9007199254740992" = ofZ 9007199254740992 /\
  Number "9007199254740995" = ofZ 9007199254740996 /\
  Number "0x20000000000001" = ofZ 9007199254740992 /\
  Number "0.1" = Fin (3602879701896397 # 36028797018963968) /\
  Number "1e400" = Inf false /\ Number "-1e400" = Inf true /\
  Number "1e-400" = ofZ 0 /\
  Number "5e-324" = Fin (1 # 2 ^ 1074) /\ Number "2e-324" = ofZ 0 /\
  Number "1.7976931348623157e308" = ofZ ((2 ^ 53 - 1) * 2 ^ 971) /\
  Number "1.7976931348623159e308" = Inf false /\
  sign (sub (Number "9007199254740993") (Number "9007199254740992")) = 0 /\
  sign (sub (Number "9007199254740991") (Number "9007199254740993")) = -1 /\
  sub (Number "1e400") (Number "1e400") = NaN /\
  sub (Number "1.7976931348623157e308") (Number "-1.7976931348623157e308") = Inf false /\
  Number "0.2" = Fin (3602879701896397 # 18014398509481984) /\
  sub (Number "0.3") (Number "0.1") = Fin (7205759403792793 # 36028797018963968).
Proof. vm_compute. repeat split; reflexivity. Qed.

End Rounding.

(* ------------------------------------------------------------------ *)
(** ** The sort stage                                                   *)
(* ------------------------------------------------------------------ *)

(** A sort on a key with two values, [c] telling the second from the
    first: the elements of the first class, then those of the second,
    each class in its input order. *)
Lemma insertBy_two_classes {A : Type} (c : A -> bool) (le : A -> A -> bool)
    (x : A) (F T : list A) :
  (forall a b, le a b = implb (c a) (c b)) ->
  Forall (fun a => c a = false) F -> Forall (fun a => c a = true) T ->
  Js.insertBy le x (F ++ T) = if c x then F ++ x :: T else x :: F ++ T.
Proof.
  intros Hle HF HT. induction HF as [|y F Hy HF IH]; simpl.
  - destruct T as [|y T]; simpl.
    + destruct (c x); reflexivity.
    + inversion HT; subst. rewrite Hle.
      destruct (c x); simpl; [|reflexivity].
      replace (c y) with true by (symmetry; assumption). reflexivity.
  - rewrite Hle, Hy. destruct (c x) eqn:Hx; simpl.
    + rewrite IH. reflexivity.
    + reflexivity.
Qed.

Lemma sortBy_two_classes {A : Type} (c : A -> bool) (le : A -> A -> bool) (l : list A) :
  (forall a b, le a b = implb (c a) (c b)) ->
  Js.sortBy le l = filter (fun a => negb (c a)) l ++ filter c l.
Proof.
  intros Hle. induction l as [|x l IH]; simpl.
  - reflexivity.
  - rewrite IH. rewrite (insertBy_two_classes c le x _ _ Hle).
    + destruct (c x); reflexivity.
    + apply Forall_forall. intros a Ha. apply filter_In in Ha.
      destruct Ha as [_ Ha]. destruct (c a); [discriminate | reflexivity].
    + apply Forall_forall. intros a Ha. apply filter_In in Ha. apply Ha.
Qed.

Section SortStage.
Import Js Data ReportGrid.
Context {host : Host} {consistent : ConsistentCollation host}.

Lemma precedes_inOrder (f : SortField) (d : SortDirection) (a b : Report) :
  comparable f a -> comparable f b ->
  precedes (compareReports f d) a b = true <-> inOrder f d a b.
Proof.
  unfold precedes, compareReports, inOrder, keyLe, comparable, validDate, getTime.
  intros Ha Hb. destruct f.
  - destruct d; apply notAfter_ofZ.
  - destruct (Date_getTime (date a)) as [ta|]; [|contradiction].
    destruct (Date_getTime (date b)) as [tb|]; [|contradiction].
    destruct d; cbn [ofOptionZ]; rewrite notAfter_sub_ofZ; split.
    + intros H. exists ta, tb. auto.
    + intros [x [y [E1 [E2 H]]]]. congruence.
    + intros H. exists tb, ta. auto.
    + intros [x [y [E1 [E2 H]]]]. congruence.
  - destruct d; destruct (isActive a), (isActive b);
      cbn [Number_bool Z.b2z]; rewrite notAfter_sub_ofZ; reflexivity.
Qed.

Lemma inOrder_total (f : SortField) (d : SortDirection) (a b : Report) :
  comparable f a -> comparable f b -> inOrder f d a b \/ inOrder f d b a.
Proof.
  unfold inOrder, keyLe, comparable, validDate. intros Ha Hb. destruct f.
  - destruct d; [apply localeCompare_total|].
    destruct (localeCompare_total (name a) (name b)); auto.
  - destruct (Date_getTime (date a)) as [ta|]; [|contradiction].
    destruct (Date_getTime (date b)) as [tb|]; [|contradiction].
    destruct (Z.le_ge_cases ta tb); destruct d; eauto 7.
  - destruct d; lia.
Qed.

Lemma inOrder_trans (f : SortField) (d : SortDirection) (a b c : Report) :
  inOrder f d a b -> inOrder f d b c -> inOrder f d a c.
Proof.
  unfold inOrder, keyLe. destruct f, d.
  - apply localeCompare_trans.
  - intros Hab Hbc. eapply localeCompare_trans; eassumption.
  - intros [x [y [E1 [E2 H1]]]] [y' [z [E3 [E4 H2]]]].
    exists x, z. repeat split; try assumption. rewrite E2 in E3. injection E3 as <-. lia.
  - intros [y [x [E1 [E2 H1]]]] [z [y' [E3 [E4 H2]]]].
    exists z, x. repeat split; try assumption. rewrite E1 in E4. injection E4 as <-. lia.
  - lia.
  - lia.
Qed.

Lemma sameKey_precedes (f : SortField) (d : SortDirection) (r a b : Report) :
  sameKey f r a = true -> sameKey f r b = true ->
  precedes (compareReports f d) a b = true.
Proof.
  unfold sameKey, precedes, compareReports, getTime. destruct f.
  - intros Ea Eb. apply Z.eqb_eq in Ea, Eb.
    pose proof (localeCompare_sgn (name r) (name a)) as Sa.
    pose proof (localeCompare_sgn (name r) (name b)) as Sb.
    rewrite Ea in Sa. rewrite Eb in Sb. simpl in Sa, Sb.
    destruct d; apply notAfter_ofZ.
    + apply localeCompare_trans with (b := name r); lia.
    + apply localeCompare_trans with (b := name r); lia.
  - destruct (Date_getTime (date r)) as [t|];
      destruct (Date_getTime (date a)) as [ta|]; try discriminate;
      destruct (Date_getTime (date b)) as [tb|]; try discriminate.
    + intros Ea Eb. apply Z.eqb_eq in Ea, Eb. subst.
      destruct d; cbn [ofOptionZ]; apply notAfter_sub_ofZ; lia.
    + intros _ _. destruct d; reflexivity.
  - intros Ea Eb. apply Bool.eqb_prop in Ea, Eb. rewrite <- Ea, <- Eb.
    destruct d, (isActive r); reflexivity.
Qed.

Lemma sortReports_sorted (f : SortField) (d : SortDirection) (rs : list Report) :
  Forall (comparable f) rs ->
  StronglySorted (inOrder f d) (Array_sort (compareReports f d) rs).
Proof.
  intros Hdom. unfold Array_sort.
  apply StronglySorted_impl
    with (R := fun a b => precedes (compareReports f d) a b = true).
  - intros a b Ha Hb. rewrite Forall_forall in Hdom.
    apply precedes_inOrder; apply Hdom; eapply sortBy_In; eassumption.
  - apply sortBy_sorted with (Dom := comparable f); [| |exact Hdom].
    + intros a b Ha Hb. rewrite !precedes_inOrder by assumption.
      apply inOrder_total; assumption.
    + intros a b c Ha Hb Hc. rewrite !precedes_inOrder by assumption.
      apply inOrder_trans.
Qed.

Lemma sortReports_status (d : SortDirection) (rs : list Report) :
  Array_sort (compareReports byStatus d) rs
  = match d with
    | asc => filter (fun r => negb (isActive r)) rs ++ filter isActive rs
    | desc => filter isActive rs ++ filter (fun r => negb (isActive r)) rs
    end.
Proof.
  unfold Array_sort. destruct d.
  - apply sortBy_two_classes. intros a b.
    unfold precedes. simpl. destruct (isActive a), (isActive b); reflexivity.
  - rewrite (sortBy_two_classes (fun r => negb (isActive r))).
    + f_equal. apply filter_ext. intros r. apply negb_involutive.
    + intros a b. unfold precedes. simpl.
      destruct (isActive a), (isActive b); reflexivity.
Qed.

(** C6.  In the neutral state [sortReports] returns its input.  With a
    field and a direction it returns a rearrangement of the input which,
    for the name and the status and for dates that are all valid, is in
    the order of the keys, ascending or descending, and stable: the
    records whose key equals that of any given record keep their
    relative order, where two names are equal keys when the host's
    collation compares them as 0, whether or not they are the same
    string.  Names are ordered by the host's collation, dates by their
    time values, and by status the inactive records come first when
    ascending and last when descending. *)
Theorem C6_sortReports_stable_by_key (rs : list Report) (s : SortState) :
  (neutral s -> sortReports rs s = rs) /\
  (forall f d, field s = Some f -> direction s = Some d ->
     Permutation (sortReports rs s) rs /\
     ((f = byDate -> Forall validDate rs) ->
        StronglySorted (inOrder f d) (sortReports rs s) /\
        forall r, filter (sameKey f r) (sortReports rs s) = filter (sameKey f r) rs) /\
     (f = byStatus ->
        sortReports rs s
        = match d with
          | asc => filter (fun r => negb (isActive r)) rs ++ filter isActive rs
          | desc => filter isActive rs ++ filter (fun r => negb (isActive r)) rs
          end)).
Proof.
  split; [apply sortReports_neutral|].
  intros f d Hf Hd. unfold sortReports. rewrite Hf, Hd.
  split; [apply sortBy_perm|].
  split.
  { intros Hvalid. split.
    - apply sortReports_sorted.
      destruct f; simpl; try (apply Forall_forall; intros; exact I).
      apply Hvalid. reflexivity.
    - intros r. apply sortBy_stable. intros a b. apply sameKey_precedes. }
  intros ->. apply sortReports_status.
Qed.

End SortStage.

(* ------------------------------------------------------------------ *)
(** ** The group-by-date stage                                          *)
(* ------------------------------------------------------------------ *)

Section ObjectFacts.
Context {V : Type}.

Lemma getOwn_set (o : Js.object V) (k k' : string) (v : V) :
  Js.getOwn (Js.set o k v) k' = if String.eqb k k' then Some v else Js.getOwn o k'.
Proof.
  induction o as [|[j w] o IH]; simpl.
  - reflexivity.
  - destruct (String.eqb j k) eqn:Ejk; simpl.
    + apply String.eqb_eq in Ejk. rewrite Ejk. destruct (String.eqb k k'); reflexivity.
    + rewrite IH. destruct (String.eqb j k') eqn:Ejk'; [|reflexivity].
      apply String.eqb_eq in Ejk'. rewrite <- Ejk', String.eqb_sym, Ejk. reflexivity.
Qed.

Lemma getOwn_None (o : Js.object V) (k : string) :
  Js.getOwn o k = None <-> ~ In k (map fst o).
Proof.
  induction o as [|[j w] o IH]; simpl.
  - tauto.
  - destruct (String.eqb j k) eqn:E.
    + apply String.eqb_eq in E. split; [discriminate | intros H; exfalso; auto].
    + apply String.eqb_neq in E. rewrite IH. tauto.
Qed.

Lemma getOwn_In (o : Js.object V) (k : string) (v : V) :
  Js.getOwn o k = Some v -> In (k, v) o.
Proof.
  induction o as [|[j w] o IH]; simpl; [discriminate|].
  destruct (String.eqb j k) eqn:E.
  - apply String.eqb_eq in E. intros [= ->]. left. congruence.
  - auto.
Qed.

Lemma In_getOwn (o : Js.object V) (k : string) (v : V) :
  NoDup (map fst o) -> In (k, v) o -> Js.getOwn o k = Some v.
Proof.
  induction o as [|[j w] o IH]; simpl; [tauto|].
  intros Hnd [E|Hin]; inversion Hnd as [|? ? Hj Hnd']; subst.
  - injection E as -> ->. rewrite String.eqb_refl. reflexivity.
  - destruct (String.eqb j k) eqn:E; [|auto].
    apply String.eqb_eq in E. subst j. exfalso. apply Hj.
    apply (in_map fst) in Hin. exact Hin.
Qed.

Lemma set_absent (o : Js.object V) (k : string) (v : V) :
  Js.getOwn o k = None -> Js.set o k v = o ++ [(k, v)].
Proof.
  induction o as [|[j w] o IH]; simpl; [reflexivity|].
  destruct (String.eqb j k); [discriminate|]. intros H. rewrite IH by exact H. reflexivity.
Qed.

Lemma set_set (o : Js.object V) (k : string) (v v' : V) :
  Js.set (Js.set o k v) k v' = Js.set o k v'.
Proof.
  induction o as [|[j w] o IH]; simpl.
  - rewrite String.eqb_refl. reflexivity.
  - destruct (String.eqb j k) eqn:E; simpl; rewrite E; [reflexivity|].
    rewrite IH. reflexivity.
Qed.

Lemma keys_set_present (o : Js.object V) (k : string) (v w : V) :
  Js.getOwn o k = Some w -> map fst (Js.set o k v) = map fst o.
Proof.
  induction o as [|[j u] o IH]; simpl; [discriminate|].
  destruct (String.eqb j k); simpl; [reflexivity|].
  intros H. rewrite IH by exact H. reflexivity.
Qed.

Lemma filter_split_perm {A : Type} (p : A -> bool) (l : list A) :
  Permutation (filter p l ++ filter (fun x => negb (p x)) l) l.
Proof.
  induction l as [|x l IH]; simpl.
  - constructor.
  - destruct (p x); simpl.
    + apply perm_skip. exact IH.
    + apply Permutation_sym, Permutation_cons_app, Permutation_sym. exact IH.
Qed.

Lemma Object_entries_perm (o : Js.object V) : Permutation (Js.Object_entries o) o.
Proof.
  unfold Js.Object_entries.
  eapply Permutation_trans; [|apply (filter_split_perm (fun e => Js.isArrayIndex (fst e)))].
  apply Permutation_app_tail. apply sortBy_perm.
Qed.

End ObjectFacts.

Lemma NoDup_snoc {A : Type} (l : list A) (x : A) :
  NoDup l -> ~ In x l -> NoDup (l ++ [x]).
Proof.
  intros Hl Hx. apply (Permutation_NoDup (Permutation_cons_append l x)).
  constructor; assumption.
Qed.

Lemma concat_perm {A : Type} (l l' : list (list A)) :
  Permutation l l' -> Permutation (List.concat l) (List.concat l').
Proof.
  induction 1 as [|x l l' _ IH|x y l|l l' l'' _ IH1 _ IH2]; simpl.
  - constructor.
  - apply Permutation_app_head. exact IH.
  - rewrite !app_assoc. apply Permutation_app_tail, Permutation_app_comm.
  - eapply Permutation_trans; eassumption.
Qed.

Lemma concat_set_push {A : Type} (o : Js.object (list A)) (k : string) (g : list A) (x : A) :
  Js.getOwn o k = Some g ->
  Permutation (List.concat (map snd (Js.set o k (g ++ [x])))) (x :: List.concat (map snd o)).
Proof.
  induction o as [|[j w] o IH]; simpl; [discriminate|].
  destruct (String.eqb j k); simpl.
  - intros [= ->]. rewrite <- app_assoc. simpl.
    apply Permutation_sym, Permutation_middle.
  - intros H. eapply Permutation_trans; [apply Permutation_app_head, IH, H|].
    apply Permutation_sym, Permutation_middle.
Qed.

(** The first piece of [s.split(sep)] is [s] up to its first [sep]. *)
Lemma split_hd (sep : ascii) (s : string) :
  exists rest,
    s = (hd "" (Js.split sep s) ++ rest)%string /\
    (rest = "" \/ exists t, rest = String sep t) /\
    ~ In sep (list_ascii_of_string (hd "" (Js.split sep s))).
Proof.
  induction s as [|c r IH]; simpl.
  - exists "". simpl. auto.
  - destruct (Ascii.eqb c sep) eqn:E; simpl.
    + apply Ascii.eqb_eq in E. subst c. exists (String sep r). simpl.
      split; [reflexivity|]. split; [right; exists r; reflexivity | tauto].
    + apply Ascii.eqb_neq in E. destruct IH as [rest [Hr [Hrest Hsep]]].
      destruct (Js.split sep r) as [|piece pieces]; simpl in *.
      * exists rest. rewrite Hr at 1. simpl. split; [reflexivity|]. split; [exact Hrest|].
        intros [H|[]]. congruence.
      * exists rest. rewrite Hr at 1. split; [reflexivity|]. split; [exact Hrest|].
        intros [H|H]; [congruence | contradiction].
Qed.

Section GroupStage.
Import Js Data ReportGrid.
Context {host : Host} {consistent : ConsistentCollation host}.

Lemma grouped_nil : grouped [] [].
Proof. split; simpl; [reflexivity | constructor | constructor]. Qed.

Lemma groupStep_grouped (acc : object (list Report)) (prefix : list Report) (r : Report) :
  grouped acc prefix ->
  ~ In (dateKey r) objectPrototypeKeys ->
  exists acc', groupStep (Return acc) r = Return acc' /\ grouped acc' (prefix ++ [r]).
Proof.
  intros [Hget Hkeys Hall] Hproto.
  assert (Hfilter : forall k, filter (keyIs k) (prefix ++ [r])
                              = filter (keyIs k) prefix ++ if keyIs k r then [r] else []).
  { intros k. rewrite filter_app. simpl. destruct (keyIs k r); reflexivity. }
  assert (Hother : forall k, String.eqb (dateKey r) k = false ->
                             filter (keyIs k) (prefix ++ [r]) = filter (keyIs k) prefix).
  { intros k E. rewrite Hfilter. unfold keyIs at 2. rewrite E. apply app_nil_r. }
  assert (Hself : filter (keyIs (dateKey r)) (prefix ++ [r])
                  = filter (keyIs (dateKey r)) prefix ++ [r]).
  { rewrite Hfilter. unfold keyIs at 2. rewrite String.eqb_refl. reflexivity. }
  unfold groupStep, get.
  destruct (getOwn acc (dateKey r)) as [g|] eqn:Eg.
  - rewrite Eg. eexists. split; [reflexivity|]. split.
    + intros k. rewrite getOwn_set.
      destruct (String.eqb (dateKey r) k) eqn:E.
      * apply String.eqb_eq in E. subst k. rewrite Hself.
        rewrite Hget in Eg. destruct (filter (keyIs (dateKey r)) prefix); [discriminate|].
        injection Eg as <-. reflexivity.
      * rewrite (Hother k E). apply Hget.
    + rewrite (keys_set_present _ _ _ g Eg). exact Hkeys.
    + eapply Permutation_trans; [apply concat_set_push, Eg|].
      eapply Permutation_trans; [apply perm_skip, Hall|].
      apply Permutation_cons_append.
  - replace (Array_includes objectPrototypeKeys (dateKey r)) with false.
    2:{ symmetry. apply not_true_is_false. rewrite Array_includes_In. exact Hproto. }
    rewrite getOwn_set, String.eqb_refl, set_set, (set_absent _ _ _ Eg).
    eexists. split; [reflexivity|]. split.
    + intros k. rewrite <- (set_absent _ _ _ Eg), getOwn_set.
      destruct (String.eqb (dateKey r) k) eqn:E.
      * apply String.eqb_eq in E. subst k. rewrite Hself.
        rewrite Hget in Eg. destruct (filter (keyIs (dateKey r)) prefix); [|discriminate].
        reflexivity.
      * rewrite (Hother k E). apply Hget.
    + rewrite map_app. simpl. apply NoDup_snoc; [exact Hkeys|].
      apply getOwn_None. exact Eg.
    + rewrite map_app, concat_app. simpl.
      apply Permutation_app_tail. exact Hall.
Qed.

Lemma fold_groupStep_grouped (rest prefix : list Report) (acc : object (list Report)) :
  grouped acc prefix ->
  (forall r, In r rest -> ~ In (dateKey r) objectPrototypeKeys) ->
  exists acc', fold_left groupStep rest (Return acc) = Return acc' /\
               grouped acc' (prefix ++ rest).
Proof.
  revert prefix acc.
  induction rest as [|r rest IH]; intros prefix acc Hacc Hproto; cbn [fold_left].
  - exists acc. rewrite app_nil_r. auto.
  - destruct (groupStep_grouped acc prefix r Hacc) as [acc1 [E1 H1]].
    { apply Hproto. left. reflexivity. }
    rewrite E1.
    destruct (IH (prefix ++ [r]) acc1 H1) as [acc' [E' H']].
    { intros x Hx. apply Hproto. right. exact Hx. }
    exists acc'. rewrite <- app_assoc in H'. auto.
Qed.

Lemma entries_sorted (entries : list (string * list Report)) :
  StronglySorted laterFirst
    (Array_sort (fun a b => ofZ (localeCompare (fst b) (fst a))) entries).
Proof.
  unfold Array_sort.
  apply StronglySorted_impl
    with (R := fun a b =>
                 precedes (fun a b => ofZ (localeCompare (fst b) (fst a))) a b = true).
  - intros a b _ _. unfold precedes, laterFirst. apply notAfter_ofZ.
  - apply sortBy_sorted with (Dom := fun _ => True).
    + intros a b _ _. unfold precedes. rewrite !notAfter_ofZ. apply localeCompare_total.
    + intros a b c _ _ _. unfold precedes. rewrite !notAfter_ofZ.
      intros Hab Hbc. eapply localeCompare_trans; eassumption.
    + apply Forall_forall. intros; exact I.
Qed.

(** C7.  The date key of a record is its date up to the first 'T'.
    For records whose date keys are not names of properties of
    [Object.prototype] (an ISO date is not), [groupReportsByDate] returns
    groups that partition the filtered records by date key: the keys are
    distinct, each group is not empty and holds exactly the records of its
    key in their order in the input, every record has its group, and all
    the groups together are a rearrangement of the records.  The groups
    come latest key first in the collation of the host, which is the
    lexicographic order wherever the two agree on the keys at hand, as
    they do on ISO dates. *)
Theorem C7_groupReportsByDate_partitions
    (reports : list Report) (searchTerm : string)
    (tagFilter : option string) (statusFilter : option bool) :
  let records := filterReports reports searchTerm tagFilter statusFilter in
  (forall r, In r records -> ~ In (dateKey r) objectPrototypeKeys) ->
  (forall r : Report,
      exists rest, date r = (dateKey r ++ rest)%string /\
                   (rest = "" \/ exists t, rest = String "T" t) /\
                   ~ In "T"%char (list_ascii_of_string (dateKey r))) /\
  exists groups,
    groupReportsByDate reports searchTerm tagFilter statusFilter = Return groups /\
    NoDup (map fst groups) /\
    (forall k g, In (k, g) groups -> g <> [] /\ g = filter (keyIs k) records) /\
    (forall r, In r records -> exists g, In (dateKey r, g) groups /\ In r g) /\
    Permutation (List.concat (map snd groups)) records /\
    StronglySorted laterFirst groups /\
    ((forall j k, In j (map dateKey records) -> In k (map dateKey records) ->
                  (localeCompare j k <= 0 <-> String.leb j k = true)) ->
     StronglySorted (fun a b => String.leb (fst b) (fst a) = true) groups).
Proof.
  intros records Hproto.
  split; [intros r; apply split_hd|].
  destruct (fold_groupStep_grouped records [] [] grouped_nil Hproto)
    as [acc [Efold [Hget Hkeys Hall]]].
  simpl in Hget, Hall.
  set (groups := Array_sort (fun a b => ofZ (localeCompare (fst b) (fst a)))
                            (Object_entries acc)).
  assert (Hperm : Permutation groups acc).
  { unfold groups, Array_sort.
    eapply Permutation_trans; [apply sortBy_perm | apply Object_entries_perm]. }
  assert (Hgroup : forall k g, In (k, g) groups ->
                               g <> [] /\ g = filter (keyIs k) records).
  { intros k g Hin. apply (Permutation_in _ Hperm) in Hin.
    apply (In_getOwn _ _ _ Hkeys) in Hin. rewrite Hget in Hin.
    destruct (filter (keyIs k) records) as [|x xs]; [discriminate|].
    injection Hin as <-. split; [discriminate | reflexivity]. }
  assert (Hsorted : StronglySorted laterFirst groups) by apply entries_sorted.
  exists groups. split.
  { unfold groupReportsByDate. cbv zeta.
    match goal with
    | |- match ?folded with _ => _ end = _ =>
        replace folded with (Return acc) by (symmetry; exact Efold)
    end.
    reflexivity. }
  split.
  { apply (Permutation_NoDup (Permutation_sym (Permutation_map fst Hperm))). exact Hkeys. }
  split; [exact Hgroup|].
  split.
  { intros r Hr.
    assert (Hin : In r (filter (keyIs (dateKey r)) records)).
    { apply filter_In. split; [exact Hr | apply String.eqb_refl]. }
    specialize (Hget (dateKey r)).
    destruct (filter (keyIs (dateKey r)) records) as [|x xs] eqn:E; [destruct Hin|].
    exists (x :: xs). split; [|exact Hin].
    apply (Permutation_in _ (Permutation_sym Hperm)). apply getOwn_In. exact Hget. }
  split.
  { eapply Permutation_trans; [|exact Hall].
    apply concat_perm, Permutation_map. exact Hperm. }
  split; [exact Hsorted|].
  intros Hlex. apply StronglySorted_impl with (R := laterFirst); [|exact Hsorted].
  assert (Hkey : forall e, In e groups -> In (fst e) (map dateKey records)).
  { intros [k g] Hin. destruct (Hgroup k g Hin) as [Hne Hg]. simpl.
    destruct g as [|x xs]; [contradiction|].
    assert (Hx : In x (filter (keyIs k) records)) by (rewrite <- Hg; left; reflexivity).
    apply filter_In in Hx. destruct Hx as [Hx Hk]. apply String.eqb_eq in Hk.
    rewrite <- Hk. apply in_map. exact Hx. }
  intros a b Ha Hb. unfold laterFirst. apply Hlex; apply Hkey; assumption.
Qed.

End GroupStage.

(* ------------------------------------------------------------------ *)
(** ** The CSV detail view                                              *)
(* ------------------------------------------------------------------ *)

Section CsvStage.
Import Js Data ReportGrid.
Context {host : Host}.

Lemma rowMatches_spec (filterText : string) (row : list string) :
  rowMatches filterText row = true <-> someCellContains filterText row.
Proof.
  unfold rowMatches, someCellContains, containsIgnoringCase. rewrite existsb_exists.
  split; intros [cell [Hin H]]; exists cell; (split; [exact Hin|]);
    apply includes_spec; exact H.
Qed.

Lemma keptRows_In (st : CsvState) (dt : CsvData) (row : list string) :
  In row (keptRows st dt) <->
  In row (rows dt) /\ (csvFilter st = "" \/ someCellContains (csvFilter st) row).
Proof.
  unfold keptRows, truthy. destruct (String.eqb (csvFilter st) "") eqn:E; simpl.
  - apply String.eqb_eq in E. tauto.
  - apply String.eqb_neq in E. rewrite filter_In, rowMatches_spec. tauto.
Qed.

Lemma compareCells_pair (d : SortDirection) (valueA valueB : string) :
  compareCells d (Some valueA) (Some valueB) = Return (comparePair d valueA valueB).
Proof.
  unfold compareCells, comparePair, Number_cell, cell_localeCompare.
  destruct (Number valueA), (Number valueB), d; reflexivity.
Qed.

Lemma compareRows_pair (column : nat) (d : SortDirection) (a b : list string)
    (valueA valueB : string) :
  cellAt a column = Some valueA -> cellAt b column = Some valueB ->
  compareRows column d a b = Return (comparePair d valueA valueB).
Proof. unfold compareRows. intros -> ->. apply compareCells_pair. Qed.

Lemma cellAt_hasColumn (column : nat) (row : list string) :
  hasColumn column row -> cellAt row column = Some (nth column row "").
Proof. intros H. unfold cellAt. apply nth_error_nth'. exact H. Qed.






(** C10.  [Number('')] is 0, so an empty cell set against a cell that
    parses as a number is compared numerically, as 0, in either position
    and either direction, and the comparison by collation is not
    reached. *)
Theorem C10_empty_cell_compares_as_zero :
  Number "" = ofZ 0 /\
  (forall d s, isNaN (Number s) = false ->
     compareCells d (Some "") (Some s)
       = Return (match d with
                 | asc => sub (ofZ 0) (Number s)
                 | desc => sub (Number s) (ofZ 0)
                 end) /\
     compareCells d (Some s) (Some "")
       = Return (match d with
                 | asc => sub (Number s) (ofZ 0)
                 | desc => sub (ofZ 0) (Number s)
                 end)) /\
  (forall column d a b s, isNaN (Number s) = false ->
     cellAt a column = Some "" -> cellAt b column = Some s ->
     compareRows column d a b
       = Return (match d with
                 | asc => sub (ofZ 0) (Number s)
                 | desc => sub (Number s) (ofZ 0)
                 end) /\
     compareRows column d b a
       = Return (match d with
                 | asc => sub (Number s) (ofZ 0)
                 | desc => sub (ofZ 0) (Number s)
                 end)).
Proof.
  assert (H0 : Number "" = ofZ 0) by reflexivity.
  assert (Hcells : forall d s, isNaN (Number s) = false ->
     compareCells d (Some "") (Some s)
       = Return (match d with
                 | asc => sub (ofZ 0) (Number s)
                 | desc => sub (Number s) (ofZ 0)
                 end) /\
     compareCells d (Some s) (Some "")
       = Return (match d with
                 | asc => sub (Number s) (ofZ 0)
                 | desc => sub (ofZ 0) (Number s)
                 end)).
  { intros d s Hs. unfold compareCells, Number_cell. rewrite H0, Hs. simpl.
    split; reflexivity. }
  split; [exact H0|]. split; [exact Hcells|].
  intros column d a b s Hs Ha Hb. unfold compareRows. rewrite Ha, Hb.
  apply Hcells. exact Hs.
Qed.

End CsvStage.

(** Every table from [parseCSV] has all the columns of its header in
    every row. *)
Lemma parseCSV_rows_have_columns (csv : string) (column : nat) :
  (column < List.length (ReportGrid.headers (ReportGrid.parseCSV csv)))%nat ->
  Forall (hasColumn column) (ReportGrid.rows (ReportGrid.parseCSV csv)).
Proof.
  intros Hc. apply Forall_forall. intros row Hrow. unfold ReportGrid.parseCSV in *.
  simpl in *. apply filter_In in Hrow. destruct Hrow as [_ Hrow].
  apply andb_true_iff in Hrow. destruct Hrow as [Hlen _].
  apply Nat.eqb_eq in Hlen. unfold hasColumn. rewrite Hlen. exact Hc.
Qed.

(* ------------------------------------------------------------------ *)
(** ** The properties at work on the reference host                     *)
(* ------------------------------------------------------------------ *)

Section Samples.
Import Js Data ReportGrid.

Lemma C5_witness :
  In recordA (filterReports [recordB; recordA; recordC] "a" None (Some false)) /\
  filterReports [recordB; recordA; recordC] "a" None (Some false) = [recordA].
Proof.
  split; [|reflexivity].
  apply (proj2 (C5_filterReports_retains_matching
                  [recordB; recordA; recordC] "a" None (Some false))).
  split; [simpl; auto|].
  split; [right; exists "", ""; reflexivity|].
  split; [left; left; reflexivity | right; reflexivity].
Defined.

Lemma C6_witness :
  sortReports (host := referenceHost) [recordB; recordA; recordC] byNameAscending
    = [recordA; recordB; recordC] /\
  Permutation
    (sortReports (host := referenceHost) [recordB; recordA; recordC] byNameAscending)
    [recordB; recordA; recordC] /\
  StronglySorted (inOrder (host := referenceHost) byName asc)
    (sortReports (host := referenceHost) [recordB; recordA; recordC] byNameAscending) /\
  filter (sameKey (host := referenceHost) byName recordB)
    (sortReports (host := referenceHost) [recordB; recordA; recordC] byNameAscending)
    = [recordB].
Proof.
  destruct (C6_sortReports_stable_by_key (host := referenceHost)
              [recordB; recordA; recordC] byNameAscending) as [_ H].
  destruct (H byName asc eq_refl eq_refl) as [Hperm [Hsorted _]].
  destruct Hsorted as [Hsorted Hstable]; [intros E; discriminate E|].
  split; [reflexivity|]. split; [exact Hperm|]. split; [exact Hsorted|].
  rewrite Hstable. reflexivity.
Defined.

Lemma sample_keys_not_inherited (r : Report) :
  In r (filterReports [recordB; recordA; recordC] "" None None) ->
  ~ In (dateKey r) objectPrototypeKeys.
Proof.
  simpl. intros [<-|[<-|[<-|[]]]]; vm_compute; intuition discriminate.
Qed.

Lemma C7_witness :
  exists groups,
    groupReportsByDate (host := referenceHost) [recordB; recordA; recordC] "" None None
      = Return groups /\
    groups = [("2024-01-02", [recordB; recordA]); ("2024-01-01", [recordC])] /\
    StronglySorted (fun a b => String.leb (fst b) (fst a) = true) groups.
Proof.
  destruct (C7_groupReportsByDate_partitions (host := referenceHost)
              [recordB; recordA; recordC] "" None None sample_keys_not_inherited)
    as [_ [groups [E [_ [_ [_ [_ [_ Hlex]]]]]]]].
  exists groups. split; [exact E|]. split.
  - vm_compute in E. injection E as <-. reflexivity.
  - apply Hlex. intros j k _ _. simpl. unfold ReferenceHost.codeUnitCompare, String.leb.
    destruct (String.compare j k); split; intros H; try reflexivity; try lia; discriminate.
Defined.



Lemma C10_witness :
  compareCells (host := referenceHost) asc (Some "") (Some "-5")
    = Return (sub (ofZ 0) (Number "-5")) /\
  sign (sub (ofZ 0) (Number "-5")) = 1 /\
  localeCompare (Host := referenceHost) "" "-5" = -1.
Proof.
  destruct (C10_empty_cell_compares_as_zero (host := referenceHost)) as [_ [H _]].
  destruct (H asc "-5" eq_refl) as [E _].
  split; [exact E|]. split; reflexivity.
Defined.

(** One column, two kinds of comparison: "9" and "10" are compared as
    numbers, "10" and "1a", "1a" and "9" by collation, and the three
    comparisons form a cycle. *)
Example comparison_is_per_pair :
  sign (comparePair (host := referenceHost) asc "9" "10") = -1 /\
  sign (comparePair (host := referenceHost) asc "10" "1a") = -1 /\
  sign (comparePair (host := referenceHost) asc "1a" "9") = -1.
Proof. vm_compute. repeat split; reflexivity. Qed.

(** A date key that names a property of [Object.prototype] ends the
    grouping with a TypeError. *)
Example grouping_inherited_key :
  groupReportsByDate (host := referenceHost) [record "X" "constructor" true] "" None None
  = Throw "TypeError: acc[date].push is not a function".
Proof. reflexivity. Qed.

Example sort_examples :
  sortReports (host := referenceHost) [recordB; recordA; recordC]
              {| field := Some byStatus; direction := Some asc |}
    = [recordA; recordB; recordC] /\
  sortReports (host := referenceHost) [recordB; recordA; recordC]
              {| field := Some byStatus; direction := Some desc |}
    = [recordB; recordC; recordA] /\
  sortReports (host := referenceHost) [recordB; recordA; recordC]
              {| field := Some byDate; direction := Some asc |}
    = [recordC; recordB; recordA] /\
  sortReports (host := referenceHost) [recordB; recordA; recordC]
              {| field := Some byDate; direction := Some desc |}
    = [recordB; recordA; recordC] /\
  parseCSV "name, n
abc,1
,
x,y,z
cab, 3" = {| headers := ["name"; "n"]; rows := [["abc"; "1"]; ["cab"; "3"]] |}.
Proof. vm_compute. repeat split; reflexivity. Qed.

End Samples.

(* ------------------------------------------------------------------ *)
(** ** The CSV text: parsing and the download                           *)
(* ------------------------------------------------------------------ *)

Section CsvText.
Import Js JsMore ReportGrid Handlers.

Local Abbreviation chars := list_ascii_of_string.

Lemma split_not_nil (sep : ascii) (s : string) : split sep s <> [].
Proof.
  destruct s as [|c r]; simpl; [discriminate|].
  destruct (Ascii.eqb c sep); [discriminate|].
  destruct (split sep r); discriminate.
Qed.

Lemma split_pieces (sep : ascii) (s : string) :
  Forall (fun piece => ~ In sep (chars piece) /\ incl (chars piece) (chars s)) (split sep s).
Proof.
  induction s as [|c r IH]; simpl.
  - constructor; [|constructor]. split; [tauto | apply incl_refl].
  - assert (Htl : forall ps,
              Forall (fun piece => ~ In sep (chars piece) /\ incl (chars piece) (chars r)) ps ->
              Forall (fun piece => ~ In sep (chars piece) /\
                                   incl (chars piece) (c :: chars r)) ps).
    { intros ps. apply Forall_impl. intros piece [H1 H2]. split; [exact H1|].
      apply incl_tl. exact H2. }
    destruct (Ascii.eqb c sep) eqn:E.
    + constructor; [|apply Htl, IH]. split; [tauto | intros x []].
    + apply Ascii.eqb_neq in E. destruct (split sep r) as [|piece pieces].
      * constructor; [|constructor]. simpl. split; [intros [H|[]]; congruence|].
        intros x [<-|[]]. left. reflexivity.
      * inversion IH as [|? ? [Hsep Hincl] Hrest]; subst.
        constructor; [|apply Htl, Hrest]. simpl. split.
        -- intros [H|H]; [congruence | contradiction].
        -- intros x [<-|Hx]; [left; reflexivity | right; apply Hincl, Hx].
Qed.

Lemma split_without_sep (sep : ascii) (s : string) :
  ~ In sep (chars s) -> split sep s = [s].
Proof.
  induction s as [|c r IH]; simpl; intros Hno; [reflexivity|].
  destruct (Ascii.eqb c sep) eqn:E.
  - apply Ascii.eqb_eq in E. exfalso. apply Hno. left. exact E.
  - rewrite IH by tauto. reflexivity.
Qed.

Lemma split_append (sep : ascii) (x rest : string) :
  ~ In sep (chars x) ->
  split sep (x ++ String sep rest) = x :: split sep rest.
Proof.
  induction x as [|c r IH]; simpl; intros Hno.
  - rewrite Ascii.eqb_refl. reflexivity.
  - destruct (Ascii.eqb c sep) eqn:E.
    + apply Ascii.eqb_eq in E. exfalso. apply Hno. left. exact E.
    + rewrite IH by tauto. reflexivity.
Qed.

(** Splitting a join gives the joined strings back, when none of them
    holds the separator and there is one at least. *)
Lemma split_join (sep : ascii) (xs : list string) :
  xs <> [] -> Forall (fun x => ~ In sep (chars x)) xs ->
  split sep (join (String sep "") xs) = xs.
Proof.
  unfold join. induction xs as [|x [|y r] IH]; intros Hne Hno; [contradiction| |].
  - simpl. inversion Hno; subst. apply split_without_sep. assumption.
  - inversion Hno as [|? ? Hx Hrest]; subst.
    change (String.concat (String sep "") (x :: y :: r))
      with (x ++ String sep (String.concat (String sep "") (y :: r)))%string.
    rewrite split_append by exact Hx. rewrite IH; [reflexivity | discriminate | exact Hrest].
Qed.

Lemma chars_append (a b : string) : chars (a ++ b) = chars a ++ chars b.
Proof. induction a as [|c a IH]; simpl; [reflexivity | rewrite IH; reflexivity]. Qed.

Lemma join_chars (sep : ascii) (xs : list string) (c : ascii) :
  In c (chars (join (String sep "") xs)) -> c = sep \/ exists x, In x xs /\ In c (chars x).
Proof.
  unfold join. induction xs as [|x [|y r] IH]; simpl; intros Hc; [contradiction| |].
  - right. exists x. auto.
  - rewrite chars_append in Hc. apply in_app_or in Hc. destruct Hc as [Hc|Hc].
    + right. exists x. auto.
    + simpl in Hc. destruct Hc as [<-|Hc]; [left; reflexivity|].
      destruct (IH Hc) as [->|[z [Hz Hcz]]]; [left; reflexivity|].
      right. exists z. simpl in *. tauto.
Qed.

(** *** [trim] *)

Lemma trimStart_headOk (s : string) : headOk (trimStart s).
Proof.
  induction s as [|c r IH]; simpl; [exact I|].
  destruct (isWhiteSpace c) eqn:E; [exact IH | exact E].
Qed.

Lemma trimStart_id (s : string) : headOk s -> trimStart s = s.
Proof. destruct s as [|c r]; simpl; [reflexivity|]. intros ->. reflexivity. Qed.

Lemma trimEnd_headOk (s : string) : headOk s -> headOk (trimEnd s).
Proof.
  destruct s as [|c r]; simpl; [auto|]. intros Hc.
  destruct (trimEnd r); [rewrite Hc|]; exact Hc.
Qed.

Lemma trimEnd_idem (s : string) : trimEnd (trimEnd s) = trimEnd s.
Proof.
  induction s as [|c r IH]; simpl; [reflexivity|].
  destruct (trimEnd r) as [|d t] eqn:E.
  - destruct (isWhiteSpace c) eqn:Ec; simpl; [reflexivity|]. rewrite Ec. reflexivity.
  - assert (H : forall u, trimEnd (String c u)
                          = match trimEnd u with
                            | EmptyString =>
                                if isWhiteSpace c then EmptyString else String c EmptyString
                            | String e u' => String c (String e u')
                            end) by reflexivity.
    rewrite H, IH. reflexivity.
Qed.

Lemma trim_idem (s : string) : trim (trim s) = trim s.
Proof.
  unfold trim.
  rewrite (trimStart_id (trimEnd (trimStart s)))
    by (apply trimEnd_headOk, trimStart_headOk).
  apply trimEnd_idem.
Qed.

Lemma trimStart_chars (s : string) : incl (chars (trimStart s)) (chars s).
Proof.
  induction s as [|c r IH]; simpl; [apply incl_refl|].
  destruct (isWhiteSpace c); [apply incl_tl, IH | apply incl_refl].
Qed.

Lemma trimEnd_chars (s : string) : incl (chars (trimEnd s)) (chars s).
Proof.
  induction s as [|c r IH]; simpl; [apply incl_refl|].
  destruct (trimEnd r) as [|d t].
  - destruct (isWhiteSpace c); simpl; [intros x [] | intros x [<-|[]]; left; reflexivity].
  - simpl in *. intros x [<-|Hx]; [left; reflexivity | right; apply IH, Hx].
Qed.

Lemma trim_chars (s : string) : incl (chars (trim s)) (chars s).
Proof.
  unfold trim. eapply incl_tran; [apply trimEnd_chars | apply trimStart_chars].
Qed.

End CsvText.

Section CsvTables.
Import Js JsMore ReportGrid Handlers.

Local Abbreviation chars := list_ascii_of_string.

Lemma line_cells_clean (line : string) :
  ~ In "010"%char (chars line) -> Forall cleanCell (map trim (split ","%char line)).
Proof.
  intros Hline. apply Forall_map.
  eapply Forall_impl; [|apply (split_pieces ","%char line)].
  intros piece [Hsep Hincl]. unfold cleanCell. split; [apply trim_idem|].
  split; intros H; apply trim_chars in H; auto.
Qed.

Lemma parseCSV_wellFormed (csv : string) : wellFormedTable (parseCSV csv).
Proof.
  pose proof (split_pieces "010"%char csv) as Hlines.
  pose proof (split_not_nil "010"%char csv) as Hne.
  unfold wellFormedTable, parseCSV. cbn [headers rows].
  destruct (split "010"%char csv) as [|line lines]; [contradiction|].
  inversion Hlines as [|? ? [Hline _] Hrest]; subst. cbn [hd tl].
  split.
  { intros E. apply map_eq_nil in E. exact (split_not_nil _ _ E). }
  split; [apply line_cells_clean; exact Hline|].
  apply Forall_forall. intros row Hrow. apply filter_In in Hrow.
  destruct Hrow as [Hin Hkeep]. apply andb_true_iff in Hkeep.
  destruct Hkeep as [Hlen Hsome]. apply Nat.eqb_eq in Hlen.
  split; [exact Hlen|]. split; [exact Hsome|].
  apply in_map_iff in Hin. destruct Hin as [l [<- Hl]].
  apply line_cells_clean. rewrite Forall_forall in Hrest. apply (Hrest l Hl).
Qed.

Lemma map_trim_clean (cells : list string) :
  Forall cleanCell cells -> map trim cells = cells.
Proof.
  induction 1 as [|cell cells [Ht _] _ IH]; simpl; [reflexivity|].
  rewrite Ht, IH. reflexivity.
Qed.

Lemma cells_of_joined (cells : list string) :
  cells <> [] -> Forall cleanCell cells ->
  map trim (split ","%char (join "," cells)) = cells.
Proof.
  intros Hne Hclean. rewrite split_join.
  - apply map_trim_clean. exact Hclean.
  - exact Hne.
  - eapply Forall_impl; [|exact Hclean]. intros cell [_ [H _]]. exact H.
Qed.

Lemma joined_without_line_feed (cells : list string) :
  Forall cleanCell cells -> ~ In "010"%char (chars (join "," cells)).
Proof.
  intros Hclean Hin. apply join_chars in Hin. destruct Hin as [E|[cell [Hcell Hc]]].
  - discriminate E.
  - rewrite Forall_forall in Hclean. destruct (Hclean cell Hcell) as [_ [_ H]]. auto.
Qed.

Lemma filter_all {A : Type} (p : A -> bool) (l : list A) :
  Forall (fun x => p x = true) l -> filter p l = l.
Proof.
  induction 1 as [|x l Hx _ IH]; simpl; [reflexivity|]. rewrite Hx, IH. reflexivity.
Qed.

Lemma parse_download (t : CsvData) : wellFormedTable t -> parseCSV (downloadText t) = t.
Proof.
  intros [Hne [Hhead Hrows]]. destruct t as [hs rs]. cbn [headers rows] in *.
  unfold parseCSV, downloadText. cbn [headers rows].
  assert (Hrow : forall row, In row rs ->
            row <> [] /\ Forall cleanCell row /\
            Nat.eqb (List.length row) (List.length hs) && existsb truthy row = true).
  { intros row Hin. rewrite Forall_forall in Hrows.
    destruct (Hrows row Hin) as [Hlen [Hsome Hclean]].
    split; [|split; [exact Hclean|]].
    - intros ->. destruct hs; [contradiction | discriminate].
    - rewrite Hlen, Nat.eqb_refl, Hsome. reflexivity. }
  rewrite split_join.
  - cbn [map hd tl]. rewrite (cells_of_joined hs Hne Hhead). f_equal.
    rewrite map_map, filter_all.
    + rewrite <- (map_id rs) at 2. apply map_ext_in. intros row Hin.
      destruct (Hrow row Hin) as [H1 [H2 _]]. apply cells_of_joined; assumption.
    + apply Forall_forall. intros row Hin. apply in_map_iff in Hin.
      destruct Hin as [row' [<- Hin]]. destruct (Hrow row' Hin) as [H1 [H2 H3]].
      rewrite (cells_of_joined row' H1 H2). exact H3.
  - discriminate.
  - constructor; [apply joined_without_line_feed; exact Hhead|].
    apply Forall_map, Forall_forall. intros row Hin.
    apply joined_without_line_feed. apply (Hrow row Hin).
Qed.

End CsvTables.

Section CsvTableProperties.
Import Js JsMore ReportGrid Handlers.

(** X1.  Whatever the text, [parseCSV] returns a table with a header of
    at least one cell in which every row has as many cells as the header
    and a cell that is not empty, and every cell, of the header and of
    the rows, is trimmed and holds no comma and no line feed. *)
Theorem parseCSV_table_is_well_formed (csv : string) :
  headers (parseCSV csv) <> [] /\
  (forall h, In h (headers (parseCSV csv)) -> cleanCell h) /\
  (forall row, In row (rows (parseCSV csv)) ->
     List.length row = List.length (headers (parseCSV csv)) /\
     (exists cell, In cell row /\ cell <> "") /\
     (forall cell, In cell row -> cleanCell cell)).
Proof.
  destruct (parseCSV_wellFormed csv) as [Hne [Hhead Hrows]].
  split; [exact Hne|]. split; [apply Forall_forall; exact Hhead|].
  intros row Hrow. rewrite Forall_forall in Hrows.
  destruct (Hrows row Hrow) as [Hlen [Hsome Hclean]].
  split; [exact Hlen|]. split; [|apply Forall_forall; exact Hclean].
  apply existsb_exists in Hsome. destruct Hsome as [cell [Hin Ht]].
  exists cell. split; [exact Hin|]. intros ->. discriminate Ht.
Qed.

(** X2.  The download of a well-formed table parses back to the same
    table; in particular, parsing the download of a parsed table gives
    that table again. *)
Theorem download_then_parse_is_identity :
  (forall t, wellFormedTable t -> parseCSV (downloadText t) = t) /\
  (forall csv, parseCSV (downloadText (parseCSV csv)) = parseCSV csv).
Proof.
  split; [exact parse_download|].
  intros csv. apply parse_download, parseCSV_wellFormed.
Qed.

Lemma download_then_parse_witness :
  wellFormedTable sampleTable /\ parseCSV (downloadText sampleTable) = sampleTable.
Proof.
  assert (H : wellFormedTable sampleTable).
  { unfold wellFormedTable, cleanCell, sampleTable; simpl.
    split; [discriminate|].
    repeat (first [ constructor | split | reflexivity
                  | (intros H; simpl in H; intuition discriminate) ]). }
  split; [exact H | exact (proj1 download_then_parse_is_identity sampleTable H)].
Defined.

End CsvTableProperties.

(* ------------------------------------------------------------------ *)
(** ** The pages of a sequence                                          *)
(* ------------------------------------------------------------------ *)

Section Pages.
Import Js ReportGrid Handlers.

Lemma firstn_plus {A : Type} (a b : nat) (l : list A) :
  firstn (a + b) l = firstn a l ++ firstn b (skipn a l).
Proof.
  revert l. induction a as [|a IH]; intros l; simpl; [reflexivity|].
  destruct l as [|x l]; simpl.
  - rewrite firstn_nil. reflexivity.
  - rewrite IH. reflexivity.
Qed.

Lemma pages_concat {A : Type} (p m : nat) (xs : list A) :
  List.concat (map (fun k => firstn p (skipn (k * p) xs)) (seq 0 m)) = firstn (m * p) xs.
Proof.
  induction m as [|m IH].
  - reflexivity.
  - rewrite seq_S, map_app, concat_app, IH. simpl. rewrite app_nil_r.
    rewrite (Nat.add_comm p (m * p)). symmetry. apply firstn_plus.
Qed.

Lemma page_of_successor {A : Type} (p : Z) (k : nat) (xs : list A) :
  0 < p ->
  getPaginated (Size p) (Z.of_nat (S k)) xs
  = firstn (Z.to_nat p) (skipn (k * Z.to_nat p) xs).
Proof.
  intros Hp. rewrite getPaginated_numeric by lia. do 2 f_equal. nia.
Qed.

Lemma page_length {A : Type} (p page : Z) (xs : list A) :
  0 < p -> 1 <= page ->
  Z.of_nat (List.length (getPaginated (Size p) page xs))
  = Z.min p (Z.max 0 (Z.of_nat (List.length xs) - (page - 1) * p)).
Proof.
  intros Hp Hpage. rewrite getPaginated_numeric by assumption.
  rewrite length_firstn, length_skipn. nia.
Qed.

(** X3.  For a numeric page size, the pages 1, 2, ... up to the page
    count, one after the other, are the whole sequence: every element is
    on exactly one page, in order. *)
Theorem pages_cover_the_sequence {A : Type} (p : Z) (xs : list A) :
  0 < p ->
  List.concat
    (map (fun k => getPaginated (Size p) (Z.of_nat k) xs)
         (seq 1 (Z.to_nat (pageCount (List.length xs) (Size p)))))
  = xs.
Proof.
  intros Hp. set (n := Z.to_nat (pageCount (List.length xs) (Size p))).
  rewrite <- seq_shift, map_map.
  rewrite (map_ext _ (fun k => firstn (Z.to_nat p) (skipn (k * Z.to_nat p) xs)))
    by (intros k; apply page_of_successor; exact Hp).
  rewrite pages_concat. apply firstn_all2.
  pose proof (pageCount_bounds (List.length xs) p Hp) as [_ Hhi].
  pose proof (pageCount_nonneg (List.length xs) p Hp). unfold n. nia.
Qed.

Lemma pages_cover_the_sequence_witness :
  0 < 2 /\
  List.concat (map (fun k => getPaginated (Size 2) (Z.of_nat k) [0; 1; 2; 3; 4]%nat)
                   (seq 1 3))
  = [0; 1; 2; 3; 4]%nat.
Proof.
  split; [lia|]. exact (pages_cover_the_sequence 2 [0; 1; 2; 3; 4]%nat ltac:(lia)).
Defined.

(** X4.  For a numeric page size [p], every page before the last holds
    [p] elements, the last page of a sequence that is not empty holds
    between 1 and [p], and every page after the last is empty. *)
Theorem page_sizes {A : Type} (p page : Z) (xs : list A) :
  0 < p -> 1 <= page ->
  let count := pageCount (List.length xs) (Size p) in
  let size := Z.of_nat (List.length (getPaginated (Size p) page xs)) in
  (page < count -> size = p) /\
  (page = count -> 1 <= size <= p) /\
  (count < page -> getPaginated (Size p) page xs = []).
Proof.
  intros Hp Hpage count size.
  pose proof (pageCount_bounds (List.length xs) p Hp) as [Hlo Hhi].
  fold count in Hlo, Hhi.
  assert (Hsize : size = Z.min p (Z.max 0 (Z.of_nat (List.length xs) - (page - 1) * p)))
    by (apply page_length; assumption).
  split; [intros H; nia|]. split; [intros H; subst page; nia|].
  intros H. apply length_zero_iff_nil. nia.
Qed.

Lemma page_sizes_witness :
  (0 < 2 /\ 1 <= 3) /\ getPaginated (Size 2) 3 [0; 1; 2; 3; 4]%nat = [4]%nat /\
  getPaginated (Size 2) 4 [0; 1; 2; 3; 4]%nat = [].
Proof.
  split; [lia|]. split; [reflexivity|].
  apply (page_sizes 2 4 [0; 1; 2; 3; 4]%nat ltac:(lia) ltac:(lia)). reflexivity.
Defined.

End Pages.

(* ------------------------------------------------------------------ *)
(** ** The page numbers of the two pagination bars                      *)
(* ------------------------------------------------------------------ *)

Section PageNumbers.
Import Js Data ReportGrid Handlers.

(** X5.  From the initial state of the list, whatever the user does
    with the pagination bar, the page-size select, the filters, the sort
    headers and the grouping button, the page number stays between 1 and
    the page count of all the reports of the folder (filtered or not),
    counted as one page at least. *)
Theorem grid_page_stays_in_unfiltered_range
    (initialReports : list Report) (evs : list GridEvent) :
  Forall offeredSize evs ->
  let st := gridRun (initialGrid initialReports) evs in
  1 <= gridCurrentPage st <=
  Z.max 1 (pageCount (List.length initialReports) (gridPageSize st)) /\
  reports st = initialReports.
Proof.
  intros Hevs st.
  assert (Hreports : forall evs' st', reports (gridRun st' evs') = reports st').
  { induction evs' as [|ev evs' IH]; intros st'; [reflexivity|].
    unfold gridRun in *. simpl. rewrite IH.
    destruct ev; simpl; try reflexivity;
      unfold gridPagerButton, tableControl;
      repeat match goal with |- context [if ?b then _ else _] => destruct b end;
      reflexivity. }
  assert (Hrange : pageInUnfilteredRange st).
  { apply gridRun_unfiltered_range; [exact Hevs|].
    unfold pageInUnfilteredRange, initialGrid; simpl. lia. }
  unfold pageInUnfilteredRange, gridPageCount in Hrange.
  unfold st in *. rewrite Hreports in Hrange. rewrite Hreports.
  split; [exact Hrange | reflexivity].
Qed.

Lemma grid_page_stays_in_unfiltered_range_witness :
  Forall offeredSize [ClickGrouping; SelectPageSize (Size 5); ClickNext; ClickNext] /\
  gridCurrentPage
    (gridRun (initialGrid sixReports)
             [ClickGrouping; SelectPageSize (Size 5); ClickNext; ClickNext]) = 2.
Proof.
  assert (H : Forall offeredSize
                [ClickGrouping; SelectPageSize (Size 5); ClickNext; ClickNext]).
  { repeat constructor; simpl; auto. }
  split; [exact H|].
  pose proof (grid_page_stays_in_unfiltered_range sixReports _ H) as [_ _].
  reflexivity.
Defined.

Lemma csvPagerButton_cases (disabled : bool) (onClick : CsvState -> CsvState)
    (st : CsvState) :
  (csvPagerButton disabled onClick st = onClick st /\
   pagerShown (List.length (rows (ReportGrid.csvData st))) (pageSize st) = true /\
   disabled = false) \/
  csvPagerButton disabled onClick st = st.
Proof.
  unfold csvPagerButton.
  destruct (pagerShown _ _); simpl; auto.
  destruct disabled; simpl; auto.
Qed.

Lemma clickCsvHeader_keeps_page (index : nat) (st : CsvState) :
  ReportGrid.csvData (clickCsvHeader index st) = ReportGrid.csvData st /\
  currentPage (clickCsvHeader index st) = currentPage st /\
  pageSize (clickCsvHeader index st) = pageSize st.
Proof.
  unfold clickCsvHeader.
  destruct (match csvSortField st with Some c => Nat.eqb c index | None => false end);
    simpl; auto.
Qed.

Lemma csvStep_range (st : CsvState) (ev : CsvEvent) :
  match ev with CsvSelectPageSize size => In size PAGE_SIZE_OPTIONS | _ => True end ->
  positiveSize (pageSize st) /\ csvPageInRange st ->
  ReportGrid.csvData (csvStep st ev) = ReportGrid.csvData st /\
  positiveSize (pageSize (csvStep st ev)) /\ csvPageInRange (csvStep st ev).
Proof.
  intros Hev [Hsize Hin]. unfold csvPageInRange, csvPageCount in *.
  assert (Hshown : pagerShown (List.length (rows (ReportGrid.csvData st))) (pageSize st)
                   = true ->
                   2 <= pageCount (List.length (rows (ReportGrid.csvData st))) (pageSize st)).
  { destruct (pageSize st) as [p|] eqn:E; [|discriminate].
    apply pageCount_shown. exact Hsize. }
  destruct ev; simpl.
  - destruct (csvPagerButton_cases (currentPage st =? 1) (setCurrentPage 1) st)
      as [[-> [Hs _]]| ->]; simpl; auto.
    specialize (Hshown Hs). repeat split; try assumption; lia.
  - destruct (csvPagerButton_cases (currentPage st =? 1)
                (fun st => setCurrentPage (Z.max (currentPage st - 1) 1) st) st)
      as [[-> [Hs _]]| ->]; simpl; auto.
    repeat split; try assumption; lia.
  - destruct (csvPagerButton_cases (currentPage st =? csvPageCount st)
                (fun st => setCurrentPage (currentPage st + 1) st) st)
      as [[-> [Hs Hd]]| ->]; simpl; auto.
    specialize (Hshown Hs). apply Z.eqb_neq in Hd. unfold csvPageCount in Hd.
    repeat split; try assumption; lia.
  - destruct (csvPagerButton_cases (currentPage st =? csvPageCount st)
                (setCurrentPage (csvPageCount st)) st)
      as [[-> [Hs Hd]]| ->]; simpl; auto.
    specialize (Hshown Hs). unfold csvPageCount.
    repeat split; try assumption; lia.
  - split; [reflexivity|]. split; [apply offered_positive; exact Hev | lia].
  - auto.
  - destruct (clickCsvHeader_keeps_page index st) as [-> [-> ->]]. auto.
Qed.

(** X6.  In the detail view, whatever the user does with its pagination
    bar, its page-size select, its filter box and its column headers,
    the table stays the one that was opened and the page number stays
    between 1 and the page count of all its rows (filtered or not),
    counted as one page at least. *)
Theorem csv_page_stays_in_unfiltered_range (st : CsvState) (evs : list CsvEvent) :
  Forall (fun ev => match ev with
                    | CsvSelectPageSize size => In size PAGE_SIZE_OPTIONS
                    | _ => True
                    end) evs ->
  positiveSize (pageSize st) -> csvPageInRange st ->
  ReportGrid.csvData (csvRun st evs) = ReportGrid.csvData st /\
  csvPageInRange (csvRun st evs).
Proof.
  unfold csvRun. revert st.
  induction evs as [|ev evs IH]; intros st Hevs Hsize Hin; simpl; [auto|].
  inversion Hevs as [|? ? Hev Hevs']; subst.
  destruct (csvStep_range st ev Hev (conj Hsize Hin)) as [Hdata [Hsize' Hin']].
  destruct (IH (csvStep st ev) Hevs' Hsize' Hin') as [Hdata' Hrange].
  split; [congruence | exact Hrange].
Qed.

Lemma csv_page_stays_in_unfiltered_range_witness :
  csvPageInRange
    (csvRun (sampleCsvState "" None None)
            [CsvSelectPageSize (Size 5); CsvNext; CsvTypeFilter "ab"; CsvClickHeader 1%nat]).
Proof.
  apply csv_page_stays_in_unfiltered_range.
  - repeat constructor; simpl; auto.
  - simpl. lia.
  - unfold csvPageInRange. simpl. split; [lia|]. vm_compute. discriminate.
Defined.

End PageNumbers.

(* ------------------------------------------------------------------ *)
(** ** Tags                                                             *)
(* ------------------------------------------------------------------ *)

Section SetFacts.
Import Js JsMore.

Lemma Set_has_In (s : list string) (x : string) : Set_has s x = true <-> In x s.
Proof. apply Array_includes_In. Qed.

Lemma Set_add_In (s : list string) (x y : string) :
  In y (Set_add s x) <-> In y s \/ y = x.
Proof.
  unfold Set_add. destruct (Set_has s x) eqn:E.
  - apply Set_has_In in E. split; [auto | intros [H| ->]; assumption].
  - rewrite in_app_iff. simpl. intuition.
Qed.

Lemma Set_add_NoDup (s : list string) (x : string) : NoDup s -> NoDup (Set_add s x).
Proof.
  intros Hs. unfold Set_add. destruct (Set_has s x) eqn:E; [exact Hs|].
  apply NoDup_snoc; [exact Hs|]. intros Hin. apply Set_has_In in Hin. congruence.
Qed.

Lemma fold_Set_add (xs s : list string) :
  (forall y, In y (fold_left Set_add xs s) <-> In y s \/ In y xs) /\
  (NoDup s -> NoDup (fold_left Set_add xs s)).
Proof.
  revert s. induction xs as [|x xs IH]; intros s; simpl.
  - split; [intuition | auto].
  - destruct (IH (Set_add s x)) as [Hin Hnd]. split.
    + intros y. rewrite Hin, Set_add_In. intuition.
    + intros Hs. apply Hnd, Set_add_NoDup, Hs.
Qed.

Lemma Set_from_In (xs : list string) (y : string) : In y (Set_from xs) <-> In y xs.
Proof.
  unfold Set_from. rewrite (proj1 (fold_Set_add xs [])). simpl. tauto.
Qed.

Lemma Set_from_NoDup (xs : list string) : NoDup (Set_from xs).
Proof. apply (proj2 (fold_Set_add xs [])). constructor. Qed.

Lemma Set_from_id (s : list string) : NoDup s -> Set_from s = s.
Proof.
  intros Hs. unfold Set_from.
  assert (H : forall acc, NoDup (acc ++ s) -> fold_left Set_add s acc = acc ++ s).
  { clear Hs. induction s as [|x s IH]; intros acc Hnd; simpl.
    - rewrite app_nil_r. reflexivity.
    - unfold Set_add at 2. destruct (Set_has acc x) eqn:E.
      + apply Set_has_In in E. apply NoDup_remove_2 in Hnd.
        exfalso. apply Hnd. apply in_or_app. left. exact E.
      + rewrite IH; rewrite <- app_assoc; [reflexivity | exact Hnd]. }
  apply (H []). exact Hs.
Qed.

Lemma Set_delete_In (s : list string) (x y : string) :
  In y (Set_delete s x) <-> In y s /\ y <> x.
Proof.
  unfold Set_delete. rewrite filter_In, negb_true_iff, String.eqb_neq. reflexivity.
Qed.

Lemma leb_le (a b : string) :
  String.leb a b = true <-> ReferenceHost.codeUnitCompare a b <= 0.
Proof.
  unfold String.leb, ReferenceHost.codeUnitCompare.
  destruct (String.compare a b); split; intros H; try reflexivity; try lia; discriminate.
Qed.

Lemma sorted_strict {A : Type} (R : A -> A -> Prop) (l : list A) :
  StronglySorted R l -> NoDup l -> StronglySorted (fun a b => R a b /\ a <> b) l.
Proof.
  induction 1 as [|x l Hs IH Hx]; intros Hnd; constructor.
  - apply IH. inversion Hnd; assumption.
  - inversion Hnd as [|? ? Hnotin _]; subst. rewrite Forall_forall in *.
    intros y Hy. split; [apply Hx, Hy | intros ->; contradiction].
Qed.

Lemma Array_sort_default_sorted (xs : list string) :
  StronglySorted (fun a b => String.leb a b = true) (Array_sort_default xs).
Proof.
  unfold Array_sort_default. apply sortBy_sorted with (Dom := fun _ => True).
  - intros a b _ _. apply String.leb_total.
  - intros a b c _ _ _. rewrite !leb_le. apply codeUnitCompare_trans.
  - apply Forall_forall. intros; exact I.
Qed.

End SetFacts.

Section Tags.
Import Js JsMore Data ReportGrid Handlers.

Lemma tagSet_spec (reports : list Report) (s : list string) :
  (forall t, In t (fold_left (fun tagSet report => fold_left Set_add (tags report) tagSet)
                             reports s)
             <-> In t s \/ exists r, In r reports /\ In t (tags r)) /\
  (NoDup s ->
   NoDup (fold_left (fun tagSet report => fold_left Set_add (tags report) tagSet)
                    reports s)).
Proof.
  revert s. induction reports as [|r rs IH]; intros s; simpl.
  - split; [|auto]. intros t. split; [auto | intros [H|[r [[] _]]]; exact H].
  - destruct (IH (fold_left Set_add (tags r) s)) as [Hin Hnd].
    destruct (fold_Set_add (tags r) s) as [Hin' Hnd']. split.
    + intros t. rewrite Hin, Hin'. split.
      * intros [[H|H]|[r' [Hr' Ht]]]; eauto 6.
      * intros [H|[r' [[<-|Hr'] Ht]]]; eauto 6.
    + intros Hs. apply Hnd, Hnd', Hs.
Qed.

(** X7.  The tags offered by the tag select are exactly the tags carried
    by some report, each once, in strictly ascending order of their code
    units. *)
Theorem getAllTags_lists_each_tag_once_in_order (reports : list Report) :
  (forall t, In t (getAllTags reports) <-> exists r, In r reports /\ In t (tags r)) /\
  NoDup (getAllTags reports) /\
  StronglySorted (fun a b => String.ltb a b = true) (getAllTags reports).
Proof.
  destruct (tagSet_spec reports []) as [Hin Hnd].
  assert (Hperm : Permutation (getAllTags reports)
            (fold_left (fun tagSet report => fold_left Set_add (tags report) tagSet)
                       reports []))
    by apply sortBy_perm.
  assert (Hnodup : NoDup (getAllTags reports)).
  { apply (Permutation_NoDup (Permutation_sym Hperm)), Hnd. constructor. }
  split.
  { intros t. split.
    - intros Ht. apply (Permutation_in _ Hperm) in Ht. apply Hin in Ht.
      destruct Ht as [[]|Ht]. exact Ht.
    - intros Ht. apply (Permutation_in _ (Permutation_sym Hperm)). apply Hin. auto. }
  split; [exact Hnodup|].
  apply StronglySorted_impl
    with (R := fun a b => String.leb a b = true /\ a <> b).
  - intros a b _ _ [Hle Hne]. unfold String.ltb. unfold String.leb in Hle.
    destruct (String.compare a b) eqn:E; try reflexivity; try discriminate.
    apply String.compare_eq_iff in E. contradiction.
  - apply sorted_strict; [apply Array_sort_default_sorted | exact Hnodup].
Qed.

End Tags.

Section TagEditing.
Import Js JsMore Data ReportGrid Handlers.

Lemma setTags_same (r : Report) : setTags (tags r) r = r.
Proof. destruct r; reflexivity. Qed.

Lemma Forall2_map_r {A B : Type} (R : A -> B -> Prop) (f : A -> B) (l : list A) :
  (forall x, In x l -> R x (f x)) -> Forall2 R l (map f l).
Proof.
  induction l as [|x l IH]; intros H; simpl; constructor.
  - apply H. left. reflexivity.
  - apply IH. intros y Hy. apply H. right. exact Hy.
Qed.




Lemma removed_tags (t : string) (ts : list string) :
  ~ In t (filter (fun tag => negb (String.eqb tag t)) ts) /\
  incl (filter (fun tag => negb (String.eqb tag t)) ts) ts /\
  (forall x, In x ts -> x <> t -> In x (filter (fun tag => negb (String.eqb tag t)) ts)) /\
  (NoDup ts -> NoDup (filter (fun tag => negb (String.eqb tag t)) ts)) /\
  (~ In t ts -> filter (fun tag => negb (String.eqb tag t)) ts = ts).
Proof.
  split.
  { intros H. apply filter_In in H. destruct H as [_ H].
    rewrite String.eqb_refl in H. discriminate. }
  split; [apply incl_filter|].
  split.
  { intros x Hx Hne. apply filter_In. split; [exact Hx|].
    apply negb_true_iff, String.eqb_neq. exact Hne. }
  split; [apply NoDup_filter|].
  intros Hnotin. apply filter_all. apply Forall_forall. intros x Hx.
  apply negb_true_iff, String.eqb_neq. intros ->. contradiction.
Qed.

Lemma handleRemoveTag_reports (reportId t : string) (st : GridState) :
  reports (handleRemoveTag reportId t st)
  = map (fun report =>
           if String.eqb (id report) reportId
           then setTags (filter (fun tag => negb (String.eqb tag t)) (tags report)) report
           else report)
        (reports st).
Proof.
  unfold handleRemoveTag. destruct (activeTagFilter st) as [a|]; [|reflexivity].
  destruct (String.eqb a t); reflexivity.
Qed.

(** X9.  [handleRemoveTag] takes the tag off the reports with the given
    id and off no other: those reports do not carry it afterwards and
    keep their other tags in order, no other field and no other report
    changes, and tags stay sets.  The tag filter is cleared exactly when
    it was set to the removed tag, so it is never left on that tag; the
    other controls stay as they are. *)
Theorem handleRemoveTag_removes_the_tag_and_clears_its_filter
    (reportId t : string) (st : GridState) :
  let st' := handleRemoveTag reportId t st in
  Forall2 (fun r r' =>
             r' = setTags (tags r') r /\
             (id r = reportId ->
                ~ In t (tags r') /\
                tags r' = filter (fun tag => negb (String.eqb tag t)) (tags r)) /\
             (id r <> reportId \/ ~ In t (tags r) -> r' = r) /\
             (NoDup (tags r) -> NoDup (tags r')))
          (reports st) (reports st') /\
  (activeTagFilter st = Some t -> activeTagFilter st' = None) /\
  (activeTagFilter st <> Some t -> activeTagFilter st' = activeTagFilter st) /\
  activeTagFilter st' <> Some t /\
  st' = setActiveTagFilter (activeTagFilter st') (setReports (reports st') st).
Proof.
  cbv zeta. split.
  - rewrite handleRemoveTag_reports. apply Forall2_map_r. intros r _.
    destruct (removed_tags t (tags r)) as [Hgone [_ [_ [Hnd Hsame]]]].
    destruct (String.eqb (id r) reportId) eqn:E.
    + apply String.eqb_eq in E. simpl. split; [reflexivity|].
      split; [intros _; split; [exact Hgone | reflexivity]|].
      split; [|exact Hnd]. intros [Hne|Hnotin]; [contradiction|].
      rewrite (Hsame Hnotin). apply setTags_same.
    + apply String.eqb_neq in E. rewrite setTags_same. split; [reflexivity|].
      split; [intros H; contradiction|]. split; auto.
  - unfold handleRemoveTag.
    destruct (activeTagFilter st) as [a|] eqn:Ea.
    + destruct (String.eqb a t) eqn:E; simpl; rewrite ?Ea.
      * apply String.eqb_eq in E. subst a.
        split; [reflexivity|]. split; [intros H; contradiction|].
        split; [discriminate | reflexivity].
      * apply String.eqb_neq in E.
        split; [intros [= ->]; contradiction|]. split; [reflexivity|].
        split; [intros [= ->]; contradiction|].
        unfold setActiveTagFilter, setReports; simpl. rewrite Ea. reflexivity.
    + simpl. rewrite Ea. split; [discriminate|]. split; [reflexivity|].
      split; [discriminate|].
      unfold setActiveTagFilter, setReports; simpl. rewrite Ea. reflexivity.
Qed.

(** X10.  Removing a tag that was just added brings the reports back:
    if no report with the given id carried the typed tag, [handleAddTag]
    followed by [handleRemoveTag] of that tag leaves the list of reports
    as it was. *)
Theorem remove_after_add_restores_reports (reportId : string) (st : TagEditor) :
  let t := trim (newTag st) in
  (forall r, In r (reports (editorGrid st)) -> id r = reportId -> ~ In t (tags r)) ->
  reports (handleRemoveTag reportId t (editorGrid (handleAddTag reportId "Enter" st)))
  = reports (editorGrid st).
Proof.
  cbv zeta. intros Hfresh. rewrite handleRemoveTag_reports.
  unfold handleAddTag. simpl.
  destruct (truthy (trim (newTag st))); simpl.
  - rewrite map_map. rewrite <- (map_id (reports (editorGrid st))) at 2.
    apply map_ext_in. intros r Hr.
    destruct (String.eqb (id r) reportId) eqn:E; simpl; [|rewrite E; reflexivity].
    apply String.eqb_eq in E. specialize (Hfresh r Hr E).
    replace (Array_includes (tags r) (trim (newTag st))) with false
      by (symmetry; apply not_true_is_false; rewrite Array_includes_In; exact Hfresh).
    simpl. rewrite (proj2 (String.eqb_eq _ _) E). unfold setTags; simpl.
    rewrite filter_app; simpl. rewrite String.eqb_refl; simpl. rewrite app_nil_r.
    destruct (removed_tags (trim (newTag st)) (tags r)) as [_ [_ [_ [_ Hsame]]]].
    rewrite (Hsame Hfresh). destruct r; reflexivity.
  - rewrite <- (map_id (reports (editorGrid st))) at 2.
    apply map_ext_in. intros r Hr.
    destruct (String.eqb (id r) reportId) eqn:E; [|reflexivity].
    apply String.eqb_eq in E.
    destruct (removed_tags (trim (newTag st)) (tags r)) as [_ [_ [_ [_ Hsame]]]].
    rewrite (Hsame (Hfresh r Hr E)). apply setTags_same.
Qed.

Lemma remove_after_add_witness :
  reports (handleRemoveTag "A" "urgent"
             (editorGrid (handleAddTag "A" "Enter" (sampleEditor " urgent "))))
  = [recordB; recordA].
Proof.
  apply (remove_after_add_restores_reports "A" (sampleEditor " urgent ")).
  simpl. intros r [<-|[<-|[]]] _; simpl; tauto.
Defined.

End TagEditing.

(* ------------------------------------------------------------------ *)
(** ** Expanded groups                                                  *)
(* ------------------------------------------------------------------ *)

Section ExpandedGroups.
Import Js JsMore Data ReportGrid Handlers.
Context {host : Host}.

Lemma bool_eq_iff (a b : bool) : (a = true <-> b = true) -> a = b.
Proof. destruct a, b; intuition congruence. Qed.

Lemma Set_has_toggleGroup (date x : string) (prev : list string) :
  Set_has (toggleGroup date prev) x
  = if String.eqb x date then negb (Set_has prev x) else Set_has prev x.
Proof.
  apply bool_eq_iff. unfold toggleGroup.
  destruct (Set_has (Set_from prev) date) eqn:E.
  - rewrite Set_has_In, Set_delete_In, Set_from_In.
    apply (proj1 (Set_has_In _ _)) in E. apply (proj1 (Set_from_In _ _)) in E.
    destruct (String.eqb x date) eqn:Ex.
    + apply String.eqb_eq in Ex. subst x.
      rewrite (proj2 (Set_has_In prev date) E). simpl. intuition discriminate.
    + apply String.eqb_neq in Ex. rewrite Set_has_In. tauto.
  - rewrite Set_has_In, Set_add_In, Set_from_In.
    assert (Hnot : ~ In date prev).
    { intros H. apply (proj2 (Set_from_In _ _)) in H.
      apply (proj2 (Set_has_In _ _)) in H. congruence. }
    destruct (String.eqb x date) eqn:Ex.
    + apply String.eqb_eq in Ex. subst x.
      replace (Set_has prev date) with false
        by (symmetry; apply not_true_is_false; rewrite Set_has_In; exact Hnot).
      simpl. tauto.
    + apply String.eqb_neq in Ex. rewrite Set_has_In. tauto.
Qed.

(** X11.  A click on a group header flips the expanded state of that
    group and of no other, so two clicks restore it; after Expand All
    every group the list shows is expanded, and the expanded set is the
    set of their keys; after Collapse All none is. *)
Theorem group_headers_toggle_and_expand
    (reports : list Report) (searchTerm : string)
    (tagFilter : option string) (statusFilter : option bool) :
  (forall date x prev,
      Set_has (toggleGroup date prev) x
      = if String.eqb x date then negb (Set_has prev x) else Set_has prev x) /\
  (forall date x prev,
      Set_has (toggleGroup date (toggleGroup date prev)) x = Set_has prev x) /\
  (forall groups,
      groupReportsByDate reports searchTerm tagFilter statusFilter = Return groups ->
      forall date, Set_has (expandAll (Some groups)) date = true <->
                   exists g, In (date, g) groups) /\
  (forall date, Set_has collapseAll date = false) /\
  expandAll None = [].
Proof.
  split; [intros; apply Set_has_toggleGroup|].
  split.
  { intros date x prev. rewrite !Set_has_toggleGroup.
    destruct (String.eqb x date); [apply negb_involutive | reflexivity]. }
  split.
  { intros groups _ date. unfold expandAll. rewrite Set_has_In, Set_from_In, in_map_iff.
    split.
    - intros [[k g] [E Hin]]. simpl in E. subst k. exists g. exact Hin.
    - intros [g Hin]. exists (date, g). auto. }
  split; reflexivity.
Qed.

End ExpandedGroups.

(* ------------------------------------------------------------------ *)
(** ** Viewing a report                                                 *)
(* ------------------------------------------------------------------ *)

Section ViewingReports.
Import Js JsMore Data DataReads ReportGrid Handlers.
Variable reportFile : string -> option string.

Lemma world_eta (w : World) :
  {| disk := disk w; reachable := reachable w; console := console w |} = w.
Proof. destruct w; reflexivity. Qed.

(** X12.  [handleViewReport] rejects an inactive report with an alert,
    without a call to the server and without any change of the viewer.
    For an active report it opens the viewer on the parsed file; when
    the file cannot be read, the failure is logged by [getReportCSV] and
    again by the handler, and when the server cannot be reached it is
    logged by the handler; in both cases the viewer stays as it was. *)
Theorem handleViewReport_outcomes (report : Report) (v : Viewer) (w : World) :
  (isActive report = false ->
     handleViewReport reportFile report v w
     = (Return {| selectedReport := selectedReport v; csvData := csvData v;
                  alerts := alerts v ++ ["This report is inactive and cannot be viewed"] |},
        w)) /\
  (isActive report = true -> reachable w = true ->
     forall content, reportFile (id report) = Some content ->
     handleViewReport reportFile report v w
     = (Return {| selectedReport := Some (id report);
                  csvData := Some (parseCSV content); alerts := alerts v |}, w)) /\
  (isActive report = true -> reachable w = true -> reportFile (id report) = None ->
     exists error error',
       handleViewReport reportFile report v w
       = (Return v,
          logged (logged w ("Error fetching report CSV: " ++ error)%string)
                 ("Error fetching CSV: " ++ error')%string)) /\
  (isActive report = true -> reachable w = false ->
     exists error,
       handleViewReport reportFile report v w
       = (Return v, logged w ("Error fetching CSV: " ++ error)%string)).
Proof.
  destruct w as [d r c].
  unfold handleViewReport, getReportCSV, readReportFile, serverAction, try_catch, bind,
    ret, throw, console_error, logged.
  cbn [reachable disk console].
  split; [intros ->; reflexivity|].
  split; [intros -> -> content ->; reflexivity|].
  split; [intros -> -> ->; do 2 eexists; reflexivity|].
  intros -> ->. eexists. reflexivity.
Qed.

End ViewingReports.

Section ViewingSamples.
Import Js JsMore Data DataReads ReportGrid Handlers.

Lemma handleViewReport_witness :
  handleViewReport (fun _ => None) recordA
    {| selectedReport := None; csvData := None; alerts := [] |} readOnlyWorld
  = (Return {| selectedReport := None; csvData := None;
               alerts := ["This report is inactive and cannot be viewed"] |},
     readOnlyWorld).
Proof.
  apply (handleViewReport_outcomes (fun _ => None) recordA
           {| selectedReport := None; csvData := None; alerts := [] |} readOnlyWorld).
  reflexivity.
Defined.

End ViewingSamples.

(* ------------------------------------------------------------------ *)
(** ** The reads of the store                                           *)
(* ------------------------------------------------------------------ *)

Section StoreReads.
Import Js Data DataReads ReportGrid.
Variable reportFile : string -> option string.
Variable parse : string -> outcome (list (list (string * string))).

Lemma loadReport_pure (e : Entry) (w : World) :
  loadReport reportFile parse e w = ((loadedReport reportFile parse) e, w).
Proof.
  unfold loadReport, loadedReport, readReportFile, lift, bind, ret.
  destruct (reportFile (entry_id e)) as [content|]; [|reflexivity].
  destruct (parse content); reflexivity.
Qed.

Lemma Promise_all_pure (es : list Entry) (w : World) :
  Promise_all (loadReport reportFile parse) es w = ((loadedAll reportFile parse) es, w).
Proof.
  induction es as [|e rest IH]; [reflexivity|].
  cbn [Promise_all loadedAll]. unfold bind at 1. rewrite loadReport_pure.
  destruct ((loadedReport reportFile parse) e) as [r|error]; [|reflexivity].
  unfold bind at 1. rewrite IH. destruct ((loadedAll reportFile parse) rest); reflexivity.
Qed.

Lemma loadedReport_spec (e : Entry) :
  (forall r, (loadedReport reportFile parse) e = Return r -> (loadedFrom reportFile parse) e r) /\
  ((entryLoads reportFile parse) e -> exists r, (loadedReport reportFile parse) e = Return r) /\
  (forall error, (loadedReport reportFile parse) e = Throw error -> ~ (entryLoads reportFile parse) e).
Proof.
  unfold loadedReport, loadedFrom, entryLoads.
  destruct (reportFile (entry_id e)) as [content|] eqn:Ef.
  - destruct (parse content) as [rows|error'] eqn:Ep.
    + split; [intros r [= <-]; simpl; eauto 10|]. split; [eauto | discriminate].
    + split; [discriminate|]. split.
      * intros [c [rows [[= <-] Hp]]]. congruence.
      * intros error _ [c [rows [[= <-] Hp]]]. congruence.
  - split; [discriminate|]. split.
    + intros [c [rows [H _]]]. discriminate.
    + intros error _ [c [rows [H _]]]. discriminate.
Qed.

Lemma loadedAll_spec (es : list Entry) :
  (forall rs, (loadedAll reportFile parse) es = Return rs -> Forall2 (loadedFrom reportFile parse) es rs) /\
  (Forall (entryLoads reportFile parse) es -> exists rs, (loadedAll reportFile parse) es = Return rs) /\
  (forall error, (loadedAll reportFile parse) es = Throw error -> exists e, In e es /\ ~ (entryLoads reportFile parse) e).
Proof.
  induction es as [|e rest [IH1 [IH2 IH3]]]; simpl.
  - split; [intros rs [= <-]; constructor|]. split; [eauto | discriminate].
  - destruct (loadedReport_spec e) as [H1 [H2 H3]].
    destruct ((loadedReport reportFile parse) e) as [r|error'] eqn:Er.
    + destruct ((loadedAll reportFile parse) rest) as [rs'|error''] eqn:Erest.
      * split; [intros rs [= <-]; constructor; auto|]. split; [eauto | discriminate].
      * split; [discriminate|]. split.
        -- intros Hall. inversion Hall; subst. destruct (IH2 H5) as [rs E]. discriminate.
        -- intros error _. destruct (IH3 error'' eq_refl) as [e' [Hin Hno]].
           exists e'. auto.
    + split; [discriminate|]. split.
      * intros Hall. inversion Hall; subst. destruct (H2 H4) as [r E]. discriminate.
      * intros error _. exists e. split; [auto | apply (H3 error' eq_refl)].
Qed.

Lemma getReportsByFolder_cases (folderId : string) (w : World) :
  getReportsByFolder reportFile parse folderId w
  = match structure (disk w) with
    | None =>
        (Return [], logged w "Error fetching reports: ENOENT: structure.json")
    | Some folders =>
        match find (fun f => String.eqb (folder_id f) folderId) folders with
        | None => (Return [], w)
        | Some folder =>
            match (loadedAll reportFile parse) (folder_reports folder) with
            | Return rs => (Return rs, w)
            | Throw error =>
                (Return [], logged w ("Error fetching reports:" ++ " " ++ error)%string)
            end
        end
    end.
Proof.
  unfold getReportsByFolder, try_catch, bind, readStructure, console_error, ret, logged.
  destruct (structure (disk w)) as [folders|]; [|reflexivity].
  destruct (find _ folders) as [folder|]; [|reflexivity].
  rewrite Promise_all_pure. destruct ((loadedAll reportFile parse) (folder_reports folder)); reflexivity.
Qed.

Lemma getReportsByFolder_returns (folderId : string) (w : World) :
  exists rs w', getReportsByFolder reportFile parse folderId w = (Return rs, w').
Proof.
  rewrite getReportsByFolder_cases.
  destruct (structure (disk w)) as [folders|]; [|eauto].
  destruct (find _ folders) as [folder|]; [|eauto].
  destruct ((loadedAll reportFile parse) (folder_reports folder)); eauto.
Qed.

(** X13.  [getReportsByFolder] never throws.  It returns no report, and
    logs nothing, for a folder id that the structure does not have; it
    returns no report and logs the failure when the structure cannot be
    read or when the file of any one entry cannot be read or parsed; and
    when every entry loads it returns one report per entry, in the order
    of the entries, with the id, flag, tags and date of the entry, the
    name prefixed by "Report ", and the parsed file as data, leaving the
    world as it is. *)
Theorem getReportsByFolder_all_or_nothing (folderId : string) (w : World) :
  (exists rs w', getReportsByFolder reportFile parse folderId w = (Return rs, w')) /\
  (structure (disk w) = None ->
     exists error,
       getReportsByFolder reportFile parse folderId w
       = (Return [], logged w ("Error fetching reports: " ++ error)%string)) /\
  (forall folders, structure (disk w) = Some folders ->
     (forall f, In f folders -> folder_id f <> folderId) ->
     getReportsByFolder reportFile parse folderId w = (Return [], w)) /\
  (forall folders folder, structure (disk w) = Some folders ->
     find (fun f => String.eqb (folder_id f) folderId) folders = Some folder ->
     (Forall (entryLoads reportFile parse) (folder_reports folder) ->
        exists rs, getReportsByFolder reportFile parse folderId w = (Return rs, w) /\
                   Forall2 (loadedFrom reportFile parse) (folder_reports folder) rs) /\
     (~ Forall (entryLoads reportFile parse) (folder_reports folder) ->
        exists error,
          getReportsByFolder reportFile parse folderId w
          = (Return [], logged w ("Error fetching reports: " ++ error)%string))).
Proof.
  split; [apply getReportsByFolder_returns|].
  rewrite getReportsByFolder_cases.
  split; [intros ->; eexists; reflexivity|].
  split.
  { intros folders -> Hnone.
    destruct (find _ folders) as [folder|] eqn:E; [|reflexivity].
    apply find_some in E. destruct E as [Hin E]. apply String.eqb_eq in E.
    exfalso. apply (Hnone folder Hin E). }
  intros folders folder -> ->.
  destruct (loadedAll_spec (folder_reports folder)) as [H1 [H2 H3]].
  split.
  - intros Hall. destruct (H2 Hall) as [rs E]. rewrite E. exists rs. auto.
  - intros Hnot. destruct ((loadedAll reportFile parse) (folder_reports folder)) as [rs|error] eqn:E.
    + exfalso. apply Hnot. specialize (H1 rs eq_refl).
      clear -H1. induction H1 as [|e r es rs Her _ IH]; constructor; [|exact IH].
      destruct Her as [_ [_ [_ [_ [_ [content [Hf Hp]]]]]]]. exists content, (data r). auto.
    + eexists. reflexivity.
Qed.

(** X14.  The dashboard page fails exactly when the structure cannot be
    read: [getReportFolders] has no [try], so a failed read is thrown to
    the caller and nothing is logged; when the structure is read the page
    always returns, with no default folder and no report for a structure
    without folders. *)
Theorem Page_fails_only_on_unreadable_structure (w : World) :
  (structure (disk w) = None ->
     exists error, Page reportFile parse w = (Throw error, w)) /\
  (structure (disk w) = Some [] -> Page reportFile parse w = (Return ([], None, []), w)) /\
  (forall folders, structure (disk w) = Some folders ->
     exists rs w', Page reportFile parse w
                   = (Return (folders, option_map folder_id (hd_error folders), rs), w')).
Proof.
  unfold Page, getReportFolders, bind, readStructure, ret.
  split; [intros ->; eexists; reflexivity|]. split; [intros ->; reflexivity|].
  intros folders ->. destruct folders as [|f fs]; simpl; [eauto|].
  destruct (String.eqb (folder_id f) ""); simpl; [eauto|].
  destruct (getReportsByFolder_returns (folder_id f) w) as [rs [w' E]].
  rewrite E. eauto.
Qed.

End StoreReads.

Section StoreWrites.
Import Js Data DataReads ReportGrid.
Variable reportFile : string -> option string.
Variable parse : string -> outcome (list (list (string * string))).

Lemma toggleReportStatus_true (reportId : string) (status : bool) (w w' : World) :
  toggleReportStatus reportId status w = (Return true, w') <->
  exists folders,
    structure (disk w) = Some folders /\ writable (disk w) = true /\
    w' = {| disk := {| structure := Some (foldersWithStatus reportId status folders);
                       writable := true |};
            reachable := reachable w; console := console w |}.
Proof.
  unfold toggleReportStatus, try_catch, bind, readStructure, writeStructure,
    console_error, ret.
  destruct (structure (disk w)) as [folders|]; [destruct (writable (disk w))|].
  - split.
    + intros [= <-]. exists folders. auto.
    + intros [fs [[= <-] [_ ->]]]. reflexivity.
  - split; [discriminate | intros [fs [_ [H _]]]; discriminate].
  - split; [discriminate | intros [fs [H _]]; discriminate].
Qed.

Lemma find_foldersWithStatus (reportId folderId : string) (status : bool)
    (folders : list Folder) :
  find (fun f => String.eqb (folder_id f) folderId) (foldersWithStatus reportId status folders)
  = option_map (fun folder =>
                  {| folder_id := folder_id folder; folder_name := folder_name folder;
                     folder_reports :=
                       map (entryWithStatus reportId status) (folder_reports folder) |})
               (find (fun f => String.eqb (folder_id f) folderId) folders).
Proof.
  induction folders as [|f fs IH]; simpl; [reflexivity|].
  destruct (String.eqb (folder_id f) folderId); [reflexivity | exact IH].
Qed.

Lemma loadedAll_withStatus (reportId : string) (status : bool) (es : list Entry) :
  loadedAll reportFile parse (map (entryWithStatus reportId status) es)
  = match loadedAll reportFile parse es with
    | Return rs => Return (map (reportWithStatus reportId status) rs)
    | Throw error => Throw error
    end.
Proof.
  induction es as [|e rest IH]; [reflexivity|]. cbn [map loadedAll]. rewrite IH.
  assert (He : loadedReport reportFile parse (entryWithStatus reportId status e)
               = match loadedReport reportFile parse e with
                 | Return r => Return (reportWithStatus reportId status r)
                 | Throw error => Throw error
                 end).
  { unfold loadedReport, entryWithStatus, reportWithStatus.
    destruct (String.eqb (entry_id e) reportId) eqn:E; simpl.
    - destruct (reportFile (entry_id e)) as [content|]; [|reflexivity].
      destruct (parse content); [|reflexivity]. simpl. rewrite E. reflexivity.
    - destruct (reportFile (entry_id e)) as [content|]; [|reflexivity].
      destruct (parse content); [|reflexivity]. simpl. rewrite E. reflexivity. }
  rewrite He. destruct (loadedReport reportFile parse e); [|reflexivity].
  destruct (loadedAll reportFile parse rest); reflexivity.
Qed.

Lemma entryWithStatus_twice (reportId : string) (status : bool) (e : Entry) :
  entryWithStatus reportId status (entryWithStatus reportId status e)
  = entryWithStatus reportId status e.
Proof.
  unfold entryWithStatus. destruct (String.eqb (entry_id e) reportId) eqn:E; simpl;
    rewrite E; reflexivity.
Qed.

Lemma read_after_write (reportId folderId : string) (status : bool) (w : World)
    (folders : list Folder) :
  structure (disk w) = Some folders ->
  forall w', structure (disk w') = Some (foldersWithStatus reportId status folders) ->
  exists rs,
    fst (getReportsByFolder reportFile parse folderId w) = Return rs /\
    fst (getReportsByFolder reportFile parse folderId w')
    = Return (map (reportWithStatus reportId status) rs).
Proof.
  intros Hs w' Hs'. rewrite !getReportsByFolder_cases, Hs, Hs', find_foldersWithStatus.
  destruct (find _ folders) as [folder|]; simpl; [|exists []; auto].
  rewrite loadedAll_withStatus.
  destruct (loadedAll reportFile parse (folder_reports folder)) as [rs|error]; simpl.
  - exists rs. auto.
  - exists []. auto.
Qed.

(** X15.  A toggle that [toggleReportStatus] reports as done is read
    back: every folder then lists the reports it listed before, the
    reports with the given id carrying the written status and the others
    unchanged, and nothing was logged.  Writing the same status again
    changes nothing more. *)
Theorem toggled_status_is_read_back (reportId : string) (status : bool) (w w' : World) :
  toggleReportStatus reportId status w = (Return true, w') ->
  console w' = console w /\
  (forall folderId, exists rs,
      fst (getReportsByFolder reportFile parse folderId w) = Return rs /\
      fst (getReportsByFolder reportFile parse folderId w')
      = Return (map (reportWithStatus reportId status) rs)) /\
  toggleReportStatus reportId status w' = (Return true, w').
Proof.
  intros Hdone. apply toggleReportStatus_true in Hdone.
  destruct Hdone as [folders [Hs [Hw ->]]].
  split; [reflexivity|]. split.
  - intros folderId. apply (read_after_write reportId folderId status w folders Hs).
    reflexivity.
  - apply toggleReportStatus_true. eexists. split; [reflexivity|]. split; [reflexivity|].
    simpl. do 3 f_equal. unfold foldersWithStatus. rewrite map_map. apply map_ext.
    intros f. simpl. f_equal. rewrite map_map. apply map_ext.
    intros e. symmetry. apply entryWithStatus_twice.
Qed.

(** X16.  When the call reaches the server and the write succeeds,
    [handleToggleActive] leaves the file and the reports in memory in
    agreement on the reports it was called for: the file holds the
    negation of [currentStatus] for the given id, and so does every
    report in memory with that id whose flag was [currentStatus].
    Nothing is logged, and reports with another id are untouched in the
    file and in memory. *)
Theorem handleToggleActive_written_and_shown
    (reportId : string) (currentStatus : bool) (reports : list Report) (w : World)
    (folders : list Folder) :
  reachable w = true -> structure (disk w) = Some folders -> writable (disk w) = true ->
  exists reports' w',
    handleToggleActive reportId currentStatus reports w = (Return reports', w') /\
    console w' = console w /\
    structure (disk w') = Some (foldersWithStatus reportId (negb currentStatus) folders) /\
    Forall2 (fun r r' =>
               (id r <> reportId -> r' = r) /\
               (id r = reportId -> r' = setActive (negb (isActive r)) r) /\
               (id r = reportId -> isActive r = currentStatus ->
                  r' = reportWithStatus reportId (negb currentStatus) r))
            reports reports'.
Proof.
  intros Hr Hs Hw.
  assert (Hdone : toggleReportStatus reportId (negb currentStatus) w
                  = (Return true,
                     {| disk := {| structure :=
                                     Some (foldersWithStatus reportId (negb currentStatus)
                                                             folders);
                                   writable := true |};
                        reachable := reachable w; console := console w |})).
  { apply toggleReportStatus_true. exists folders. auto. }
  exists (toggled reportId reports). eexists. split.
  - unfold handleToggleActive, try_catch, bind, serverAction, ret.
    rewrite Hr, Hdone. reflexivity.
  - split; [reflexivity|]. split; [reflexivity|].
    unfold toggled. apply Forall2_map_r. intros r _.
    unfold reportWithStatus. destruct (String.eqb (id r) reportId) eqn:E.
    + apply String.eqb_eq in E.
      split; [intros H; contradiction|]. split; [reflexivity|].
      intros _ ->. reflexivity.
    + apply String.eqb_neq in E.
      split; [reflexivity|]. split; intros H; contradiction.
Qed.

End StoreWrites.

Section StoreEdges.
Import Js Data DataReads ReportGrid.

Lemma foldersWithStatus_unknown (reportId : string) (status : bool) (folders : list Folder) :
  (forall f e, In f folders -> In e (folder_reports f) -> entry_id e <> reportId) ->
  foldersWithStatus reportId status folders = folders.
Proof.
  intros Hunknown. unfold foldersWithStatus.
  rewrite <- (map_id folders) at 2. apply map_ext_in. intros f Hf.
  replace (map (entryWithStatus reportId status) (folder_reports f))
    with (folder_reports f); [destruct f; reflexivity|].
  rewrite <- (map_id (folder_reports f)) at 1. apply map_ext_in. intros e He.
  unfold entryWithStatus.
  destruct (String.eqb (entry_id e) reportId) eqn:E; [|reflexivity].
  apply String.eqb_eq in E. exfalso. apply (Hunknown f e Hf He E).
Qed.

(** X17.  [toggleReportStatus] does not check that the report exists:
    for an id that no entry of the structure has, on a store that can be
    read and written, it returns [true], logs nothing and leaves the
    content of the file as it was. *)
Theorem toggleReportStatus_unknown_id_reports_success
    (reportId : string) (status : bool) (w : World) (folders : list Folder) :
  structure (disk w) = Some folders -> writable (disk w) = true ->
  (forall f e, In f folders -> In e (folder_reports f) -> entry_id e <> reportId) ->
  toggleReportStatus reportId status w = (Return true, w).
Proof.
  intros Hs Hw Hunknown. apply toggleReportStatus_true. exists folders.
  split; [exact Hs|]. split; [exact Hw|].
  rewrite (foldersWithStatus_unknown reportId status folders Hunknown).
  destruct w as [[s wr] r c]. simpl in *. subst. reflexivity.
Qed.

End StoreEdges.

(* ------------------------------------------------------------------ *)
(** ** How filters and sorts compose                                    *)
(* ------------------------------------------------------------------ *)

Section FilterAlgebra.
Import Js Data ReportGrid.

Lemma filter_filter {A : Type} (p q : A -> bool) (l : list A) :
  filter p (filter q l) = filter (fun x => q x && p x) l.
Proof.
  induction l as [|x l IH]; simpl; [reflexivity|].
  destruct (q x); simpl; [destruct (p x)|]; rewrite IH; reflexivity.
Qed.

(** X18.  Filtering is idempotent, and the three filters can be applied
    one after the other: filtering by the search term, then by the tag,
    then by the status gives what [filterReports] gives for the three
    together. *)
Theorem filterReports_composes
    (reports : list Report) (searchTerm : string)
    (tagFilter : option string) (statusFilter : option bool) :
  filterReports (filterReports reports searchTerm tagFilter statusFilter)
                searchTerm tagFilter statusFilter
  = filterReports reports searchTerm tagFilter statusFilter /\
  filterReports
    (filterReports (filterReports reports searchTerm None None) "" tagFilter None)
    "" None statusFilter
  = filterReports reports searchTerm tagFilter statusFilter.
Proof.
  unfold filterReports. rewrite !filter_filter. split; apply filter_ext; intros r.
  - destruct (matchesSearch searchTerm r), (matchesTag tagFilter r),
      (matchesStatus statusFilter r); reflexivity.
  - change (matchesSearch "" r) with true. change (matchesTag None r) with true.
    change (matchesStatus None r) with true.
    destruct (matchesSearch searchTerm r), (matchesTag tagFilter r),
      (matchesStatus statusFilter r); reflexivity.
Qed.

Lemma toLowerCase_append (a b : string) :
  toLowerCase (a ++ b) = (toLowerCase a ++ toLowerCase b)%string.
Proof. induction a as [|c a IH]; simpl; [reflexivity | rewrite IH; reflexivity]. Qed.

Lemma toLowerCase_empty (s : string) : toLowerCase s = "" <-> s = "".
Proof. destruct s; simpl; split; intros H; try reflexivity; discriminate. Qed.

Lemma string_append_assoc (a b c : string) : ((a ++ b) ++ c = a ++ (b ++ c))%string.
Proof. induction a as [|x a IH]; simpl; [reflexivity | rewrite IH; reflexivity]. Qed.

Lemma includes_trans (a b c : string) :
  includes a b = true -> includes b c = true -> includes a c = true.
Proof.
  rewrite !includes_spec. intros [p1 [q1 ->]] [p2 [q2 ->]].
  exists (p1 ++ p2)%string, (q2 ++ q1)%string.
  rewrite !string_append_assoc. reflexivity.
Qed.

Lemma includes_empty (a : string) : includes "" a = true -> a = "".
Proof.
  rewrite includes_spec. intros [p [q E]].
  destruct p; [destruct a; [reflexivity | discriminate] | discriminate].
Qed.

(** X19.  The search does not tell the case of the term: two terms with
    the same lower-case form select the same reports. *)
Theorem search_term_case_is_ignored
    (reports : list Report) (term1 term2 : string)
    (tagFilter : option string) (statusFilter : option bool) :
  toLowerCase term1 = toLowerCase term2 ->
  filterReports reports term1 tagFilter statusFilter
  = filterReports reports term2 tagFilter statusFilter.
Proof.
  intros Hsame. unfold filterReports. apply filter_ext. intros r.
  unfold matchesSearch. rewrite Hsame.
  replace (String.eqb term1 "") with (String.eqb term2 ""); [reflexivity|].
  apply bool_eq_iff. rewrite !String.eqb_eq.
  rewrite <- (toLowerCase_empty term1), <- (toLowerCase_empty term2), Hsame. reflexivity.
Qed.

Lemma search_term_case_witness :
  toLowerCase "SALE" = toLowerCase "sale" /\
  filterReports [recordB; recordA] "SALE" None None
  = filterReports [recordB; recordA] "sale" None None.
Proof.
  split; [reflexivity|].
  apply (search_term_case_is_ignored [recordB; recordA] "SALE" "sale"). reflexivity.
Defined.

(** X20.  A longer search term narrows the result: if a term occurs in
    another, case ignored, the reports selected by the longer one are
    among those selected by the shorter, in the same order; so typing on
    never brings back a report that was filtered out. *)
Theorem longer_search_term_narrows
    (reports : list Report) (shorter longer : string)
    (tagFilter : option string) (statusFilter : option bool) :
  includes (toLowerCase longer) (toLowerCase shorter) = true ->
  filterReports reports longer tagFilter statusFilter
  = filterReports (filterReports reports shorter tagFilter statusFilter)
                  longer tagFilter statusFilter /\
  incl (filterReports reports longer tagFilter statusFilter)
       (filterReports reports shorter tagFilter statusFilter).
Proof.
  intros Hocc.
  assert (Hnarrow : forall r, matchesSearch longer r = true -> matchesSearch shorter r = true).
  { intros r. unfold matchesSearch. rewrite !orb_true_iff, !String.eqb_eq.
    intros [->|Hin].
    - left. apply toLowerCase_empty, includes_empty. exact Hocc.
    - right. eapply includes_trans; eassumption. }
  assert (E : filterReports reports longer tagFilter statusFilter
              = filterReports (filterReports reports shorter tagFilter statusFilter)
                              longer tagFilter statusFilter).
  { unfold filterReports. rewrite filter_filter. apply filter_ext. intros r.
    specialize (Hnarrow r).
    destruct (matchesSearch longer r), (matchesSearch shorter r),
      (matchesTag tagFilter r), (matchesStatus statusFilter r);
      try reflexivity; discriminate (Hnarrow eq_refl). }
  split; [exact E|]. rewrite E. unfold filterReports at 1. apply incl_filter.
Qed.

Lemma longer_search_term_witness :
  includes (toLowerCase "Sales") (toLowerCase "sal") = true /\
  incl (filterReports [recordB; recordA] "Sales" None None)
       (filterReports [recordB; recordA] "sal" None None).
Proof.
  split; [reflexivity|].
  apply (longer_search_term_narrows [recordB; recordA] "sal" "Sales"). reflexivity.
Defined.

End FilterAlgebra.

Section SortAlgebra.
Import Js Data ReportGrid.
Context {host : Host} {consistent : ConsistentCollation host}.

Lemma sortBy_sorted_id {A : Type} (le : A -> A -> bool) (l : list A) :
  StronglySorted (fun a b => le a b = true) l -> sortBy le l = l.
Proof.
  induction 1 as [|x l Hs IH Hx]; simpl; [reflexivity|].
  rewrite IH. destruct l as [|y r]; [reflexivity|]. simpl.
  inversion Hx as [|? ? Hxy _]; subst. rewrite Hxy. reflexivity.
Qed.

Lemma Array_sort_reports_sorted (f : SortField) (d : SortDirection) (rs : list Report) :
  Forall (comparable f) rs ->
  StronglySorted (fun a b => precedes (compareReports f d) a b = true)
                 (Array_sort (compareReports f d) rs).
Proof.
  intros Hdom. unfold Array_sort.
  apply sortBy_sorted with (Dom := comparable f); [| |exact Hdom].
  - intros a b Ha Hb. rewrite !precedes_inOrder by assumption.
    apply inOrder_total; assumption.
  - intros a b c Ha Hb Hc. rewrite !precedes_inOrder by assumption.
    apply inOrder_trans.
Qed.

(** X21.  Sorting is idempotent: for a host with a consistent collation
    and, when the field is the date, reports whose dates are all valid,
    sorting a sorted list again by the same field and direction returns
    it as it is. *)
Theorem sortReports_is_idempotent (rs : list Report) (s : SortState) :
  (field s = Some byDate -> Forall validDate rs) ->
  sortReports (sortReports rs s) s = sortReports rs s.
Proof.
  intros Hvalid. unfold sortReports.
  destruct (field s) as [f|] eqn:Ef; [|reflexivity].
  destruct (direction s) as [d|] eqn:Ed; [|reflexivity].
  rewrite ?Ef, ?Ed. unfold Array_sort at 1. apply sortBy_sorted_id.
  apply Array_sort_reports_sorted.
  destruct f; simpl; try (apply Forall_forall; intros; exact I).
  apply Hvalid. congruence.
Qed.

End SortAlgebra.

(* ------------------------------------------------------------------ *)
(** ** The store at work on sample data                                 *)
(* ------------------------------------------------------------------ *)

Section StoreSamples.
Import Js JsMore Data DataReads ReportGrid Handlers.

Lemma getReportsByFolder_witness :
  fst (getReportsByFolder sampleFiles sampleParse "f1" writableWorld) = Return [] /\
  getReportsByFolder allFiles sampleParse "f2" writableWorld = (Return [], writableWorld) /\
  map name (match fst (getReportsByFolder allFiles sampleParse "f1" writableWorld) with
            | Return rs => rs
            | Throw _ => []
            end) = ["Report 1"; "Report 2"].
Proof.
  destruct (getReportsByFolder_all_or_nothing allFiles sampleParse "f2" writableWorld)
    as [_ [_ [Hunknown _]]].
  split; [reflexivity|]. split; [|reflexivity].
  apply (Hunknown _ eq_refl). intros f [<-|[]]. discriminate.
Defined.

Lemma toggled_status_witness :
  fst (getReportsByFolder allFiles sampleParse "f1"
         (snd (toggleReportStatus "1" false writableWorld)))
  = Return (map (reportWithStatus "1" false)
                [ {| id := "1"; name := "Report 1"; isActive := true; data := [];
                     tags := []; date := "2024-01-02" |};
                  {| id := "2"; name := "Report 2"; isActive := true; data := [];
                     tags := []; date := "2024-01-02" |} ]).
Proof.
  destruct (toggled_status_is_read_back allFiles sampleParse "1" false writableWorld
              (snd (toggleReportStatus "1" false writableWorld)) eq_refl)
    as [_ [Hread _]].
  destruct (Hread "f1") as [rs [Hbefore Hafter]].
  rewrite Hafter. vm_compute in Hbefore. injection Hbefore as <-. reflexivity.
Defined.

Lemma handleToggleActive_written_witness :
  exists reports' w',
    handleToggleActive "1" true [sampleReport "1"; sampleReport "2"] writableWorld
      = (Return reports', w') /\
    map isActive reports' = [false; true] /\ console w' = [].
Proof.
  destruct (handleToggleActive_written_and_shown "1" true
              [sampleReport "1"; sampleReport "2"] writableWorld _ eq_refl eq_refl eq_refl)
    as [reports' [w' [E [Hlog _]]]].
  exists reports', w'. split; [exact E|]. split; [|exact Hlog].
  vm_compute in E. injection E as <- _. reflexivity.
Defined.

Lemma toggle_unknown_id_witness :
  toggleReportStatus "9" false writableWorld = (Return true, writableWorld).
Proof.
  apply (toggleReportStatus_unknown_id_reports_success "9" false writableWorld _ eq_refl
           eq_refl).
  intros f e [<-|[]] [<-|[<-|[]]]; discriminate.
Defined.

Lemma sortReports_idempotent_witness :
  sortReports (host := referenceHost)
    (sortReports (host := referenceHost) [recordB; recordA; recordC] byNameAscending)
    byNameAscending
  = [recordA; recordB; recordC].
Proof.
  rewrite (sortReports_is_idempotent (host := referenceHost)
             [recordB; recordA; recordC] byNameAscending).
  - reflexivity.
  - intros E. discriminate E.
Defined.

End StoreSamples.

(* ------------------------------------------------------------------ *)
(** ** Sorting a numeric column of the detail view                      *)
(* ------------------------------------------------------------------ *)

Section NumericColumn.
Import Js Data ReportGrid.
Context {host : Host}.

Lemma notAfter_sub_Fin (x y : Q) :
  onGrid x -> onGrid y ->
  notAfter (sub (Fin x) (Fin y)) = true <-> (x <= y)%Q.
Proof.
  intros Hx Hy. unfold notAfter. rewrite sign_sub by assumption.
  cbn [numberCompare]. rewrite Z.leb_le. rewrite Qle_alt.
  destruct (x ?= y)%Q; split; intros H; try lia; try discriminate; try congruence.
Qed.

Lemma rowCompare_numeric (column : nat) (d : SortDirection) (a b : list string) (qa qb : Q) :
  numericAt column a qa -> numericAt column b qb ->
  precedes (rowCompare column d) a b = true <->
  match d with asc => (qa <= qb)%Q | desc => (qb <= qa)%Q end.
Proof.
  intros [ca [Ha Na]] [cb [Hb Nb]]. unfold precedes, rowCompare, comparePair, cellAt in *.
  rewrite (nth_error_nth _ _ _ Ha), (nth_error_nth _ _ _ Hb), Na, Nb.
  pose proof (Number_isDouble ca) as Ga. pose proof (Number_isDouble cb) as Gb.
  rewrite Na in Ga. rewrite Nb in Gb.
  destruct d; apply notAfter_sub_Fin; assumption.
Qed.

(** X22.  A column whose cells all parse as finite numbers is sorted by
    their values: the reprocessing returns the rows that pass the filter,
    rearranged so that the values of the column ascend, or descend, with
    the direction. *)
Theorem numeric_column_is_sorted_by_value
    (st : CsvState) (dt : CsvData) (column : nat) (d : SortDirection) :
  csvSortField st = Some column -> csvSortDirection st = Some d ->
  (forall row, In row (rows dt) -> exists q, numericAt column row q) ->
  exists out,
    getProcessedCsvData st dt = Return out /\
    Permutation (rows out) (keptRows st dt) /\
    StronglySorted
      (fun a b => forall qa qb, numericAt column a qa -> numericAt column b qb ->
                                match d with asc => (qa <= qb)%Q | desc => (qb <= qa)%Q end)
      (rows out).
Proof.
  intros Hc Hd Hnum.
  assert (Hkept : forall row, In row (keptRows st dt) -> exists q, numericAt column row q).
  { intros row Hrow. apply keptRows_In in Hrow. apply Hnum, Hrow. }
  assert (Hcol : forall row, In row (keptRows st dt) -> hasColumn column row).
  { intros row Hrow. destruct (Hkept row Hrow) as [q [c [Hcell _]]].
    unfold hasColumn. apply nth_error_Some. unfold cellAt in Hcell. congruence. }
  exists {| headers := headers dt; rows := Array_sort (rowCompare column d) (keptRows st dt) |}.
  split.
  { unfold getProcessedCsvData. fold (keptRows st dt). rewrite Hc, Hd.
    rewrite (Array_sort_throwing_pure _ (rowCompare column d)); [reflexivity|].
    intros a b Ha Hb. unfold rowCompare.
    apply compareRows_pair; apply cellAt_hasColumn; auto. }
  cbn [rows]. split; [apply sortBy_perm|].
  unfold Array_sort.
  apply StronglySorted_impl
    with (R := fun a b => precedes (rowCompare column d) a b = true).
  - intros a b _ _ Hab qa qb Ha Hb.
    apply (rowCompare_numeric column d a b qa qb Ha Hb). exact Hab.
  - apply sortBy_sorted with (Dom := fun row => exists q, numericAt column row q).
    + intros a b [qa Ha] [qb Hb].
      rewrite (rowCompare_numeric column d a b qa qb Ha Hb),
              (rowCompare_numeric column d b a qb qa Hb Ha).
      destruct (Qlt_le_dec qa qb) as [H|H]; [apply Qlt_le_weak in H|];
        destruct d; auto.
    + intros a b c [qa Ha] [qb Hb] [qc Hc'].
      rewrite (rowCompare_numeric column d a b qa qb Ha Hb),
              (rowCompare_numeric column d b c qb qc Hb Hc'),
              (rowCompare_numeric column d a c qa qc Ha Hc').
      destruct d; intros H1 H2; eapply Qle_trans; eassumption.
    + apply Forall_forall. exact Hkept.
Qed.

End NumericColumn.

Section NumericColumnSample.
Import Js Data ReportGrid.

Lemma numeric_column_witness :
  exists out,
    getProcessedCsvData (host := referenceHost)
      {| csvData := numbersTable; currentPage := 1; pageSize := Size 10;
         csvSortField := Some 1%nat; csvSortDirection := Some asc; csvFilter := "" |}
      numbersTable = Return out /\
    rows out = [["c"; "-2.5"]; ["d"; ""]; ["b"; "9"]; ["a"; "10"]].
Proof.
  destruct (numeric_column_is_sorted_by_value (host := referenceHost)
              {| csvData := numbersTable; currentPage := 1; pageSize := Size 10;
                 csvSortField := Some 1%nat; csvSortDirection := Some asc;
                 csvFilter := "" |}
              numbersTable 1%nat asc eq_refl eq_refl)
    as [out [E _]].
  - intros row [<-|[<-|[<-|[<-|[]]]]]; eexists; eexists; split; reflexivity.
  - exists out. split; [exact E|]. vm_compute in E. injection E as <-. reflexivity.
Defined.

(** The values compared are the binary64 values of the cells: of three
    integers around [2^53] the two that round to one value keep their
    order, and cells that overflow are infinities, equal to one
    another. *)
Example numeric_column_rounding :
  getProcessedCsvData (host := referenceHost) (sortedByColumn 1 asc largeNumbersTable)
                      largeNumbersTable
  = Return {| headers := ["name"; "n"];
              rows := [["c"; "9007199254740991"]; ["a"; "9007199254740993"];
                       ["b"; "9007199254740992"]] |} /\
  getProcessedCsvData (host := referenceHost) (sortedByColumn 1 desc largeNumbersTable)
                      largeNumbersTable
  = Return {| headers := ["name"; "n"];
              rows := [["a"; "9007199254740993"]; ["b"; "9007199254740992"];
                       ["c"; "9007199254740991"]] |} /\
  getProcessedCsvData (host := referenceHost) (sortedByColumn 1 asc overflowTable)
                      overflowTable
  = Return {| headers := ["name"; "n"];
              rows := [["d"; "-1e400"]; ["b"; "5"]; ["a"; "1e400"]; ["c"; "1e400"]] |}.
Proof. vm_compute. repeat split; reflexivity. Qed.

End NumericColumnSample.
